(** * Portmaster firewall core: packet handling and verdict issuing

    A shallow embedding of the packet-interception core of the Portmaster
    firewall (package [firewall], file with [handlePacket],
    [fastTrackedPermit], [initialHandler], [inspectThenVerdict] and
    [issueVerdict]) together with the properties its specification states.

    Go pointers to a connection are modelled by passing the record in and
    handing the mutated record back; package-level variables, the driver's
    verdict sinks and the connection table live in an explicit [World] that
    every operation threads through a small state monad.  A call of a nil
    function value is the only run-time panic the embedded code can raise;
    it is the [None] outcome of the monad. *)

From Stdlib Require Import ZArith List Bool String Lia Sorted.
From stdpp Require Import base gmap strings.
Import ListNotations.

Local Open Scope string_scope.
Local Open Scope list_scope.
Local Open Scope Z_scope.

(** ** Addresses, packets and layers *)

(** [net.IP] is a byte slice: four bytes for the short IPv4 form, sixteen
    for IPv6 and for the IPv4-in-IPv6 form. *)
Definition IP : Type := list Z.

Definition IPv4len : nat := 4%nat.
Definition IPv6len : nat := 16%nat.

Definition v4InV6Prefix : IP := [0; 0; 0; 0; 0; 0; 0; 0; 0; 0; 255; 255].

(** [net.IPv4(a, b, c, d)] returns the sixteen-byte form. *)
Definition IPv4 (a b c d : Z) : IP := v4InV6Prefix ++ [a; b; c; d].

Fixpoint bytesEqual (a b : list Z) : bool :=
  match a, b with
  | [], [] => true
  | x :: a', y :: b' => (x =? y) && bytesEqual a' b'
  | _, _ => false
  end.

(** [net.IP.Equal]: an IPv4 address and its IPv4-in-IPv6 form are equal. *)
Definition IPEqual (ip x : IP) : bool :=
  if (length ip =? length x)%nat then bytesEqual ip x
  else if ((length ip =? IPv4len) && (length x =? IPv6len))%nat then
    bytesEqual (firstn 12 x) v4InV6Prefix && bytesEqual ip (skipn 12 x)
  else if ((length ip =? IPv6len) && (length x =? IPv4len))%nat then
    bytesEqual (firstn 12 ip) v4InV6Prefix && bytesEqual (skipn 12 ip) x
  else false.

(** [blockedIPv4 = net.IPv4(0, 0, 0, 17)] and
    [blockedIPv6 = net.ParseIP("::17")]; the last group of the latter is
    hexadecimal. *)
Definition blockedIPv4 : IP := IPv4 0 0 0 17.
Definition blockedIPv6 : IP := [0; 0; 0; 0; 0; 0; 0; 0; 0; 0; 0; 0; 0; 0; 0; 23].

(** The layer-4 protocols [fastTrackedPermit] tells apart. *)
Inductive IPProtocol : Type :=
  | ICMP
  | ICMPv6
  | TCP
  | UDP
  | OtherProtocol (n : Z).

(** gopacket's ICMP type numbers. *)
Definition ICMPv4TypeEchoReply : Z := 0.
Definition ICMPv4TypeEchoRequest : Z := 8.
Definition ICMPv6TypeEchoRequest : Z := 128.
Definition ICMPv6TypeEchoReply : Z := 129.

(** What [pkt.Layers().LayerClass(layers.LayerClassIPControl)] yields: the
    first ICMPv4 or ICMPv6 layer with its [TypeCode.Type()], or nil. *)
Inductive IPControlLayer : Type :=
  | LayerICMPv4 (icmpType : Z)
  | LayerICMPv6 (icmpType : Z).

(** The names of [netutils]' address scopes, as they appear in its test. *)
Inductive IPScope : Type :=
  | HostLocal
  | LinkLocal
  | SiteLocal
  | Global
  | LocalMulticast
  | GlobalMulticast
  | Invalid.

Definition error : Type := string.

(** [packet.Info] *)
Record PacketInfo : Type := mkInfo {
  Inbound : bool;
  Protocol : IPProtocol;
  Src : IP;
  Dst : IP;
  SrcPort : Z;
  DstPort : Z
}.

(** A [packet.Packet] as far as the firewall observes it: its metadata and
    the answers of the methods the firewall calls on it. *)
Record Packet : Type := mkPacket {
  Info : PacketInfo;
  GetConnectionID : string;
  FastTrackedByIntegration : bool;
  IsOutbound : bool;
  LoadPacketData : option error;
  LayerClassIPControl : option IPControlLayer
}.

(** The verdict sinks of a packet. *)
Inductive Sink : Type :=
  | SinkAccept
  | SinkBlock
  | SinkDrop
  | SinkPermanentAccept
  | SinkPermanentBlock
  | SinkPermanentDrop
  | SinkRerouteToNameserver
  | SinkRerouteToTunnel.

(** ** Verdicts *)

(** [network.Verdict] is an integer type whose named values are declared in
    the [network] package; [issueVerdict] compares verdicts with [<] and is
    handed the literal [0].  The named values are parameters of the
    development. *)
Class VerdictValues : Type := mkVerdicts {
  VerdictUndecided : Z;
  VerdictAccept : Z;
  VerdictBlock : Z;
  VerdictDrop : Z;
  VerdictRerouteToNameserver : Z;
  VerdictRerouteToTunnel : Z;
  VerdictFailed : Z
}.

(** The named values are pairwise distinct: six of them label the cases of
    the [switch] of [issueVerdict], and Go refuses equal case labels.
    [VerdictUndecided] is the zero value, which the call sites of
    [issueVerdict] propose, and no verdict lies below it: the handlers test
    [verdict > VerdictUndecided] to tell a verdict from none. *)
Definition verdictsDistinct (V : VerdictValues) : Prop :=
  VerdictUndecided = 0 /\
  NoDup [VerdictUndecided; VerdictAccept; VerdictBlock; VerdictDrop;
         VerdictRerouteToNameserver; VerdictRerouteToTunnel; VerdictFailed] /\
  Forall (fun v => 0 <= v)
         [VerdictAccept; VerdictBlock; VerdictDrop;
          VerdictRerouteToNameserver; VerdictRerouteToTunnel; VerdictFailed].

(** Modelled from the spec: the order of the verdict kinds, which the
    missing declaration of [network.Verdict] fixes.  The spec's order is
    undecided < accept < {reroute-to-tunnel, reroute-to-nameserver} < block
    < drop < failed; the two reroute kinds are ranked together and are
    different values. *)
Definition verdictsSpecOrder (V : VerdictValues) : Prop :=
  VerdictUndecided = 0 /\
  VerdictUndecided < VerdictAccept /\
  VerdictAccept < VerdictRerouteToTunnel /\
  VerdictAccept < VerdictRerouteToNameserver /\
  VerdictRerouteToTunnel <> VerdictRerouteToNameserver /\
  VerdictRerouteToTunnel < VerdictBlock /\
  VerdictRerouteToNameserver < VerdictBlock /\
  VerdictBlock < VerdictDrop /\
  VerdictDrop < VerdictFailed.

(** Modelled from the spec: one numbering that follows the spec's order. *)
Definition specVerdicts : VerdictValues :=
  {| VerdictUndecided := 0;
     VerdictAccept := 1;
     VerdictRerouteToTunnel := 2;
     VerdictRerouteToNameserver := 3;
     VerdictBlock := 4;
     VerdictDrop := 5;
     VerdictFailed := 6 |}.

(** ** Connections *)

(** The stages of the per-connection state machine that the firewall
    installs with [SetFirewallHandler]. *)
Inductive FirewallHandler : Type :=
  | HandlerInitial
  | HandlerInspectThenVerdict.

(** [network.Connection], restricted to the attributes the firewall reads
    or writes.  [firewallHandler = None] is the nil handler. *)
Record Connection : Type := mkConnection {
  ID : string;
  ConnInbound : bool;
  LocalPort : Z;
  EntityProtocol : Z;
  EntityIPScope : IPScope;
  EntityDomain : string;
  ProcessPid : Z;
  Verdict : Z;
  ReasonMsg : string;
  Internal : bool;
  Inspecting : bool;
  VerdictPermanent : bool;
  firewallHandler : option FirewallHandler;
  saveWhenFinished : bool
}.

Definition withVerdict (v : Z) (c : Connection) : Connection :=
  mkConnection (ID c) (ConnInbound c) (LocalPort c) (EntityProtocol c)
    (EntityIPScope c) (EntityDomain c) (ProcessPid c) v (ReasonMsg c)
    (Internal c) (Inspecting c) (VerdictPermanent c) (firewallHandler c)
    (saveWhenFinished c).

Definition withReasonMsg (m : string) (c : Connection) : Connection :=
  mkConnection (ID c) (ConnInbound c) (LocalPort c) (EntityProtocol c)
    (EntityIPScope c) (EntityDomain c) (ProcessPid c) (Verdict c) m
    (Internal c) (Inspecting c) (VerdictPermanent c) (firewallHandler c)
    (saveWhenFinished c).

Definition withInternal (b : bool) (c : Connection) : Connection :=
  mkConnection (ID c) (ConnInbound c) (LocalPort c) (EntityProtocol c)
    (EntityIPScope c) (EntityDomain c) (ProcessPid c) (Verdict c)
    (ReasonMsg c) b (Inspecting c) (VerdictPermanent c) (firewallHandler c)
    (saveWhenFinished c).

Definition withInspecting (b : bool) (c : Connection) : Connection :=
  mkConnection (ID c) (ConnInbound c) (LocalPort c) (EntityProtocol c)
    (EntityIPScope c) (EntityDomain c) (ProcessPid c) (Verdict c)
    (ReasonMsg c) (Internal c) b (VerdictPermanent c) (firewallHandler c)
    (saveWhenFinished c).

Definition withVerdictPermanent (b : bool) (c : Connection) : Connection :=
  mkConnection (ID c) (ConnInbound c) (LocalPort c) (EntityProtocol c)
    (EntityIPScope c) (EntityDomain c) (ProcessPid c) (Verdict c)
    (ReasonMsg c) (Internal c) (Inspecting c) b (firewallHandler c)
    (saveWhenFinished c).

Definition withFirewallHandler (h : option FirewallHandler) (c : Connection)
  : Connection :=
  mkConnection (ID c) (ConnInbound c) (LocalPort c) (EntityProtocol c)
    (EntityIPScope c) (EntityDomain c) (ProcessPid c) (Verdict c)
    (ReasonMsg c) (Internal c) (Inspecting c) (VerdictPermanent c) h
    (saveWhenFinished c).

Definition withSaveWhenFinished (b : bool) (c : Connection) : Connection :=
  mkConnection (ID c) (ConnInbound c) (LocalPort c) (EntityProtocol c)
    (EntityIPScope c) (EntityDomain c) (ProcessPid c) (Verdict c)
    (ReasonMsg c) (Internal c) (Inspecting c) (VerdictPermanent c)
    (firewallHandler c) b.

(** Modelled from the spec: [Connection.SetFirewallHandler],
    [StopFirewallHandler] and [SaveWhenFinished] of the [network] package
    (not among the sources): the handler pointer is replaced, cleared, and
    the save-pending flag is raised. *)
Definition SetFirewallHandler (h : FirewallHandler) (c : Connection)
  : Connection := withFirewallHandler (Some h) c.

Definition StopFirewallHandler (c : Connection) : Connection :=
  withFirewallHandler None c.

Definition SaveWhenFinished (c : Connection) : Connection :=
  withSaveWhenFinished true c.

(** Modelled from the spec: [Connection.SetVerdict] of the [network] package
    (not among the sources).  The spec keeps the record's verdict monotonic
    (it never downgrades): the new verdict and reason are stored when the
    new verdict is not below the current one, and dropped otherwise. *)
Definition SetVerdict (newVerdict : Z) (reason : string) (c : Connection)
  : Connection :=
  if Verdict c <=? newVerdict
  then withReasonMsg reason (withVerdict newVerdict c)
  else c.

(** Modelled from the spec: [Connection.Accept] of the [network] package
    (not among the sources) sets the verdict accept with a reason. *)
Definition Accept `{VerdictValues} (reason : string) (c : Connection)
  : Connection := SetVerdict VerdictAccept reason c.

(** ** The world the firewall runs in *)

(** The four statistics counters. *)
Record Stats : Type := mkStats {
  packetsAccepted : Z;
  packetsBlocked : Z;
  packetsDropped : Z;
  packetsFailed : Z
}.

(** The package-level variables of [firewall], the verdicts the driver has
    received (oldest first, each with its packet), the firewall handlers
    that were invoked (oldest first, each with the id of its connection),
    and the connection table of the [network] package. *)
Record World : Type := mkWorld {
  nameserverIPMatcher : option (IP -> bool);
  nameserverIPMatcherSet : bool;
  nameserverIPMatcherReady : bool;
  stats : Stats;
  verdicts : list (Packet * Sink);
  handlerCalls : list (string * option FirewallHandler);
  conns : gmap string Connection
}.

Definition withStats (s : Stats) (w : World) : World :=
  mkWorld (nameserverIPMatcher w) (nameserverIPMatcherSet w)
    (nameserverIPMatcherReady w) s (verdicts w) (handlerCalls w) (conns w).

Definition withVerdicts (l : list (Packet * Sink)) (w : World) : World :=
  mkWorld (nameserverIPMatcher w) (nameserverIPMatcherSet w)
    (nameserverIPMatcherReady w) (stats w) l (handlerCalls w) (conns w).

Definition withHandlerCalls (l : list (string * option FirewallHandler))
  (w : World) : World :=
  mkWorld (nameserverIPMatcher w) (nameserverIPMatcherSet w)
    (nameserverIPMatcherReady w) (stats w) (verdicts w) l (conns w).

Definition withConns (m : gmap string Connection) (w : World) : World :=
  mkWorld (nameserverIPMatcher w) (nameserverIPMatcherSet w)
    (nameserverIPMatcherReady w) (stats w) (verdicts w) (handlerCalls w) m.

(** State of a freshly loaded package: no matcher, counters at zero. *)
Definition initialWorld : World :=
  mkWorld None false false (mkStats 0 0 0 0) [] [] ∅.

(** A computation reads and writes the world, and may panic. *)
Definition M (A : Type) : Type := World -> option (A * World).

Definition ret {A} (a : A) : M A := fun w => Some (a, w).

Definition bind {A B} (m : M A) (k : A -> M B) : M B :=
  fun w => match m w with
           | Some (a, w') => k a w'
           | None => None
           end.

Definition panic {A} : M A := fun _ => None.

Notation "x <- m ;; k" := (bind m (fun x => k))
  (at level 62, m at next level, right associativity).
Notation "m ;;; k" := (bind m (fun _ => k))
  (at level 62, right associativity).

Definition modifyWorld (f : World -> World) : M unit :=
  fun w => Some (tt, f w).

Definition getWorld : M World := fun w => Some (w, w).

(** The counters are [uint64]; [atomic.AddUint64] wraps around. *)
Definition uint64Modulus : Z := 2 ^ 64.

Inductive Counter : Type :=
  | CounterAccepted
  | CounterBlocked
  | CounterDropped
  | CounterFailed.

Definition bumpStats (c : Counter) (s : Stats) : Stats :=
  let inc n := (n + 1) mod uint64Modulus in
  match c with
  | CounterAccepted =>
      mkStats (inc (packetsAccepted s)) (packetsBlocked s) (packetsDropped s)
        (packetsFailed s)
  | CounterBlocked =>
      mkStats (packetsAccepted s) (inc (packetsBlocked s)) (packetsDropped s)
        (packetsFailed s)
  | CounterDropped =>
      mkStats (packetsAccepted s) (packetsBlocked s) (inc (packetsDropped s))
        (packetsFailed s)
  | CounterFailed =>
      mkStats (packetsAccepted s) (packetsBlocked s) (packetsDropped s)
        (inc (packetsFailed s))
  end.

(** [atomic.AddUint64(counter, 1)] *)
Definition AddUint64 (c : Counter) : M unit :=
  modifyWorld (fun w => withStats (bumpStats c (stats w)) w).

(** Calling a verdict sink of [pkt]: the driver receives the verdict.  The
    error a sink may return is only logged by its callers. *)
Definition callSink (pkt : Packet) (s : Sink) : M unit :=
  modifyWorld (fun w => withVerdicts (verdicts w ++ [(pkt, s)]) w).

(** The periodic part of [statLogger]: after the log line, the four
    counters are stored back to zero. *)
Definition resetStats (w : World) : World := withStats (mkStats 0 0 0 0) w.

Definition statsSum (s : Stats) : Z :=
  packetsAccepted s + packetsBlocked s + packetsDropped s + packetsFailed s.

(** ** Collaborators and configuration *)

(** What the firewall consumes from other packages: configuration getters,
    the policy engine, the stream manager, the tunnel, the ICMP listener,
    address classification and the single-flight group.  Each is the answer
    the collaborator gives at the time of the call. *)
Record Env : Type := mkEnv {
  permanentVerdicts : bool;
  filterEnabled : bool;
  localPortIsPreAuthenticated : Z -> Z -> bool;
  ownPID : Z;
  apiPortSet : bool;
  apiIP : IP;
  apiPort : Z;
  DecideOnConnection : Connection -> Packet -> Connection;
  ClientReady : bool;
  AwaitRequest : PacketInfo -> string -> option error;
  InitializeInspectors : Connection -> Packet -> Connection;
  (* streamManager.HandlePacket: the record as the manager leaves it, and
     the returned verdict, reason text (None for a nil reason) and error *)
  streamManagerHandlePacket :
    Connection -> Packet -> Connection * (Z * option string * option error);
  SubmitPacketToICMPListener : Packet -> bool;
  ClassifyIP : IP -> IPScope;
  IsGlobal : IPScope -> bool;
  IsMyIP : IP -> bool * option error;
  NewConnectionFromFirstPacket : Packet -> Connection;
  (* singleflight: the results of a call already in flight for a key, and
     whether other callers joined a call this caller leads *)
  inflight : string -> option (option Connection * option error);
  duplicates : string -> bool
}.

(** ** The firewall *)

(** [SetNameserverIPMatcher]: [abool.SetToIf(false, true)] succeeds only
    when the flag was clear.  The result is the returned error. *)
Definition SetNameserverIPMatcher (fn : option (IP -> bool))
  : M (option error) :=
  fun w =>
    if nameserverIPMatcherSet w
    then Some (Some "nameserver IP matcher already set", w)
    else
      Some (None,
            mkWorld fn true true (stats w) (verdicts w) (handlerCalls w)
              (conns w)).

(** Calling the package variable [nameserverIPMatcher]; a nil function
    value panics. *)
Definition callNameserverIPMatcher (ip : IP) : M bool :=
  fun w => match nameserverIPMatcher w with
           | Some fn => Some (fn ip, w)
           | None => None
           end.

(** The echo test of [fastTrackedPermit]: an ICMPv4 layer of type echo
    request or echo reply, or an ICMPv6 layer of type echo request or echo
    reply. *)
Definition isEchoLayer (l : option IPControlLayer) : bool :=
  match l with
  | Some (LayerICMPv4 t) =>
      (t =? ICMPv4TypeEchoRequest) || (t =? ICMPv4TypeEchoReply)
  | Some (LayerICMPv6 t) =>
      (t =? ICMPv6TypeEchoRequest) || (t =? ICMPv6TypeEchoReply)
  | None => false
  end.

Definition isUDP (p : IPProtocol) : bool :=
  match p with UDP => true | _ => false end.

Definition isTCP (p : IPProtocol) : bool :=
  match p with TCP => true | _ => false end.

(** [fastTrackedPermit] quickly permits certain network critical or
    internal connections; the result is [handled]. *)
Definition fastTrackedPermit (env : Env) (pkt : Packet) : M bool :=
  let meta := Info pkt in
  (* already fast-tracked by the OS integration *)
  if FastTrackedByIntegration pkt then ret true
  (* connection was already blocked *)
  else if IPEqual (Dst meta) blockedIPv4 || IPEqual (Dst meta) blockedIPv6
  then callSink pkt SinkPermanentBlock ;;; ret true
  (* network self-check *)
  else if (SrcPort meta =? DstPort meta) && IPEqual (Src meta) (Dst meta)
  then callSink pkt SinkPermanentAccept ;;; ret true
  else
    match Protocol meta with
    | ICMP | ICMPv6 =>
        match LoadPacketData pkt with
        | Some _ => callSink pkt SinkPermanentAccept ;;; ret true
        | None =>
            (* echo requests and replies are handled regularly *)
            if isEchoLayer (LayerClassIPControl pkt) then ret false
            else
              let submitted := SubmitPacketToICMPListener env pkt in
              (if submitted
               then callSink pkt SinkAccept
               else callSink pkt SinkPermanentAccept) ;;;
              ret true
        end
    | UDP | TCP =>
        let port := DstPort meta in
        if (port =? 67) || (port =? 68) || (port =? 546) || (port =? 547)
        then
          (* DHCP and DHCPv6 must be UDP, in local network scopes *)
          if negb (isUDP (Protocol meta)) then ret false
          else
            match ClassifyIP env (Dst meta) with
            | HostLocal | LinkLocal | SiteLocal | LocalMulticast =>
                callSink pkt SinkPermanentAccept ;;; ret true
            | _ => ret false
            end
        else if port =? apiPort env then
          (* the Portmaster API is TCP only *)
          if negb (isTCP (Protocol meta)) then ret false
          else if negb (apiPortSet env) then ret false
          else if negb (IPEqual (Dst meta) (apiIP env)) then ret false
          else
            match IsMyIP env (Src meta) with
            | (_, Some _) => ret false
            | (false, None) => ret false
            | (true, None) => callSink pkt SinkPermanentAccept ;;; ret true
            end
        else if port =? 53 then
          w <- getWorld ;;
          if negb (nameserverIPMatcherReady w) then ret false
          else
            isNameserver <- callNameserverIPMatcher (Dst meta) ;;
            if negb isNameserver then ret false
            else
              match IsMyIP env (Src meta) with
              | (_, Some _) => ret false
              | (false, None) => ret false
              | (true, None) => callSink pkt SinkPermanentAccept ;;; ret true
              end
        else ret false
    | OtherProtocol _ => ret false
    end.

(** First block of [issueVerdict]: enable the permanent verdict. *)
Definition enablePermanent (env : Env) (conn : Connection)
  (allowPermanent : bool) : Connection :=
  if allowPermanent && negb (VerdictPermanent conn) then
    let conn := withVerdictPermanent (permanentVerdicts env) conn in
    if VerdictPermanent conn then SaveWhenFinished conn else conn
  else conn.

(** Second block of [issueVerdict]: a verdict below the connection's is
    replaced by the connection's. *)
Definition effectiveVerdict (conn : Connection) (verdict : Z) : Z :=
  if verdict <? Verdict conn then Verdict conn else verdict.

(** The [switch] of [issueVerdict]. *)
Definition applyVerdict `{VerdictValues} (conn : Connection) (pkt : Packet)
  (verdict : Z) : M unit :=
  if verdict =? VerdictAccept then
    AddUint64 CounterAccepted ;;;
    if VerdictPermanent conn
    then callSink pkt SinkPermanentAccept
    else callSink pkt SinkAccept
  else if verdict =? VerdictBlock then
    AddUint64 CounterBlocked ;;;
    if VerdictPermanent conn
    then callSink pkt SinkPermanentBlock
    else callSink pkt SinkBlock
  else if verdict =? VerdictDrop then
    AddUint64 CounterDropped ;;;
    if VerdictPermanent conn
    then callSink pkt SinkPermanentDrop
    else callSink pkt SinkDrop
  else if verdict =? VerdictRerouteToNameserver then
    callSink pkt SinkRerouteToNameserver
  else if verdict =? VerdictRerouteToTunnel then
    callSink pkt SinkRerouteToTunnel
  else if verdict =? VerdictFailed then
    AddUint64 CounterFailed ;;;
    callSink pkt SinkDrop
  else
    AddUint64 CounterDropped ;;;
    callSink pkt SinkDrop.

Definition issueVerdict `{VerdictValues} (env : Env) (conn : Connection)
  (pkt : Packet) (verdict : Z) (allowPermanent : bool) : M Connection :=
  let conn := enablePermanent env conn allowPermanent in
  let verdict := effectiveVerdict conn verdict in
  applyVerdict conn pkt verdict ;;;
  ret conn.

Definition defaultHandler `{VerdictValues} (env : Env) (conn : Connection)
  (pkt : Packet) : M Connection :=
  issueVerdict env conn pkt 0 true.

Definition inspectThenVerdict `{VerdictValues} (env : Env)
  (conn : Connection) (pkt : Packet) : M Connection :=
  let '(conn, (verdict, reason, err)) :=
    streamManagerHandlePacket env conn pkt in
  (* temporarily accept the packet and retry the next time *)
  let verdict := match err with
                 | Some _ => VerdictAccept
                 | None => verdict
                 end in
  let conn :=
    if VerdictUndecided <? verdict then
      let reason := match reason with
                    | Some r => r
                    | None => ""
                    end in
      SetVerdict verdict reason conn
    else conn in
  let conn :=
    if negb (Inspecting conn)
    then SaveWhenFinished (StopFirewallHandler conn)
    else conn in
  issueVerdict env conn pkt 0 (negb (Inspecting conn)).

Definition initialHandler `{VerdictValues} (env : Env) (conn : Connection)
  (pkt : Packet) : M Connection :=
  (* pre-authenticated port *)
  if negb (ConnInbound conn) &&
     localPortIsPreAuthenticated env (EntityProtocol conn) (LocalPort conn)
  then
    let conn := Accept "connection by Portmaster" conn in
    let conn := withInternal true conn in
    let conn := StopFirewallHandler conn in
    issueVerdict env conn pkt 0 true
  else
    (* redirect rogue dns requests to the Portmaster *)
    rogue <-
      (if IsOutbound pkt && (DstPort (Info pkt) =? 53) &&
          negb (ProcessPid conn =? ownPID env)
       then
         w <- getWorld ;;
         if nameserverIPMatcherReady w then
           isNameserver <- callNameserverIPMatcher (Dst (Info pkt)) ;;
           ret (negb isNameserver)
         else ret false
       else ret false) ;;
    if (rogue : bool) then
      let conn := withVerdict VerdictRerouteToNameserver conn in
      let conn := withReasonMsg "redirecting rogue dns query" conn in
      let conn := withInternal true conn in
      let conn := StopFirewallHandler conn in
      issueVerdict env conn pkt 0 true
    else if negb (filterEnabled env) then
      let conn := withInspecting false conn in
      let conn := Accept "privacy filter disabled" conn in
      let conn := StopFirewallHandler conn in
      issueVerdict env conn pkt 0 true
    else
      let conn := DecideOnConnection env conn pkt in
      (* tunneling *)
      let conn :=
        if IsOutbound pkt && ClientReady env &&
           IsGlobal env (EntityIPScope conn) &&
           (Verdict conn =? VerdictAccept)
        then
          match AwaitRequest env (Info pkt) (EntityDomain conn) with
          | Some _ => conn
          | None => withVerdict VerdictRerouteToTunnel conn
          end
        else conn in
      if Inspecting conn then
        let conn := InitializeInspectors env conn pkt in
        let conn := SetFirewallHandler HandlerInspectThenVerdict conn in
        inspectThenVerdict env conn pkt
      else
        let conn := StopFirewallHandler conn in
        issueVerdict env conn pkt 0 true.

(** Modelled from the spec: the table side of record creation and the
    dispatch of [Connection.HandlePacket], both of the [network] package
    (not among the sources).  The table keeps the record created for a
    first packet under its connection id; a record is handled by its
    current firewall handler, or by the default handler when that is nil;
    the table entry is the handled record itself (a pointer in the code),
    so it shows what the handler wrote. *)
Definition storeConnection (id : string) (conn : Connection) : M unit :=
  modifyWorld (fun w => withConns (<[id := conn]> (conns w)) w).

Definition ConnectionHandlePacket `{VerdictValues} (env : Env)
  (id : string) (conn : Connection) (pkt : Packet) : M unit :=
  modifyWorld (fun w =>
    withHandlerCalls (handlerCalls w ++ [(id, firewallHandler conn)]) w) ;;;
  conn' <- match firewallHandler conn with
           | Some HandlerInitial => initialHandler env conn pkt
           | Some HandlerInspectThenVerdict => inspectThenVerdict env conn pkt
           | None => defaultHandler env conn pkt
           end ;;
  storeConnection id conn'.

(** [singleflight.Group.Do]: a caller that finds a call in flight for the
    key receives that call's results, shared; otherwise it runs [fn] itself
    and the results are shared when other callers joined meanwhile. *)
Definition singleflightDo (env : Env) (key : string)
  (fn : M (option Connection * option error))
  : M (option Connection * option error * bool) :=
  match inflight env key with
  | Some (v, err) => ret (v, err, true)
  | None => r <- fn ;; ret (r, duplicates env key)
  end.

(** [getConnection]; the flags [created] and [shared] only feed the trace
    log. *)
Definition getConnection (env : Env) (pkt : Packet)
  : M (option Connection * option error) :=
  r <- singleflightDo env (GetConnectionID pkt)
         (w <- getWorld ;;
          match conns w !! GetConnectionID pkt with
          | Some conn => ret (Some conn, None)
          | None =>
              let conn := NewConnectionFromFirstPacket env pkt in
              let conn := SetFirewallHandler HandlerInitial conn in
              storeConnection (GetConnectionID pkt) conn ;;;
              ret (Some conn, None)
          end) ;;
  match r with
  | (_, Some err, _) =>
      ret (None, Some ("failed to get connection: " +:+ err))
  | (None, None, _) => ret (None, Some "connection getter returned nil")
  | (Some conn, None, _) => ret (Some conn, None)
  end.

Definition handlePacket `{VerdictValues} (env : Env) (pkt : Packet)
  : M unit :=
  handled <- fastTrackedPermit env pkt ;;
  if (handled : bool) then ret tt
  else
    r <- getConnection env pkt ;;
    match r with
    | (_, Some _) => callSink pkt SinkDrop
    | (Some conn, None) =>
        ConnectionHandlePacket env (GetConnectionID pkt) conn pkt
    | (None, None) => panic
    end.

(** ** Running a sequence of [issueVerdict] calls *)

(** One call of [issueVerdict]: the collaborators' answers at that time, the
    record as it is when the call is made, the packet and the arguments. *)
Record IssueCall : Type := mkCall {
  callEnv : Env;
  callConn : Connection;
  callPkt : Packet;
  callVerdict : Z;
  callAllowPermanent : bool
}.

Definition issueCall `{VerdictValues} (c : IssueCall) : M Connection :=
  issueVerdict (callEnv c) (callConn c) (callPkt c) (callVerdict c)
    (callAllowPermanent c).

Fixpoint issueVerdicts `{VerdictValues} (calls : list IssueCall) : M unit :=
  match calls with
  | [] => ret tt
  | c :: rest => issueCall c ;;; issueVerdicts rest
  end.

(** The verdict a call dispatches on: the value [issueVerdict] switches
    over. *)
Definition dispatchedVerdict (c : IssueCall) : Z :=
  effectiveVerdict
    (enablePermanent (callEnv c) (callConn c) (callAllowPermanent c))
    (callVerdict c).

Definition isReroute `{VerdictValues} (v : Z) : bool :=
  (v =? VerdictRerouteToNameserver) || (v =? VerdictRerouteToTunnel).

(** A series of [SetNameserverIPMatcher] calls and the errors they return. *)
Fixpoint setMatchers (fns : list (option (IP -> bool)))
  : M (list (option error)) :=
  match fns with
  | [] => ret []
  | fn :: rest =>
      err <- SetNameserverIPMatcher fn ;;
      errs <- setMatchers rest ;;
      ret (err :: errs)
  end.

(** ** Reading sinks *)

Inductive SinkKind : Type :=
  | KindAccept
  | KindBlock
  | KindDrop
  | KindRerouteToNameserver
  | KindRerouteToTunnel.

Definition sinkKind (s : Sink) : SinkKind :=
  match s with
  | SinkAccept | SinkPermanentAccept => KindAccept
  | SinkBlock | SinkPermanentBlock => KindBlock
  | SinkDrop | SinkPermanentDrop => KindDrop
  | SinkRerouteToNameserver => KindRerouteToNameserver
  | SinkRerouteToTunnel => KindRerouteToTunnel
  end.

Definition sinkPermanent (s : Sink) : bool :=
  match s with
  | SinkPermanentAccept | SinkPermanentBlock | SinkPermanentDrop => true
  | _ => false
  end.

(** The spec's rank of a verdict value: undecided, accept, the two reroute
    kinds together, block, drop, failed; [None] for a value that is none of
    the named ones. *)
Definition specRank `{VerdictValues} (v : Z) : option nat :=
  if v =? VerdictUndecided then Some 0%nat
  else if v =? VerdictAccept then Some 1%nat
  else if isReroute v then Some 2%nat
  else if v =? VerdictBlock then Some 3%nat
  else if v =? VerdictDrop then Some 4%nat
  else if v =? VerdictFailed then Some 5%nat
  else None.

(** The spec's order on verdict values: their ranks are compared, so the
    two reroute kinds count as equal; a value that is none of the named
    ones is not ordered. *)
Definition rankLeb `{VerdictValues} (a b : Z) : bool :=
  match specRank a, specRank b with
  | Some x, Some y => (x <=? y)%nat
  | _, _ => false
  end.

(** Non-decreasing in the spec's order. *)
Definition rankSorted `{VerdictValues} (l : list Z) : Prop :=
  Sorted (fun a b => rankLeb a b = true) l.

(** The verdict [v] of one call is matched by the next call: by its
    proposal or by the verdict of the record it is made on. *)
Definition matchedBy `{VerdictValues} (v : Z) (next : IssueCall) : bool :=
  rankLeb v (callVerdict next) || rankLeb v (Verdict (callConn next)).

(** Proposal and record verdict of a call are named verdicts. *)
Definition namedCall `{VerdictValues} (c : IssueCall) : Prop :=
  specRank (callVerdict c) <> None /\
  specRank (Verdict (callConn c)) <> None.

(** ** Reading counters and layers *)

(** Counters that have not wrapped around hold no negative value. *)
Definition statsInRange (s : Stats) : Prop :=
  0 <= packetsAccepted s /\ 0 <= packetsBlocked s /\
  0 <= packetsDropped s /\ 0 <= packetsFailed s.

(** A call whose effective verdict has a counter: every verdict but the two
    reroute verdicts. *)
Definition countsInStats `{VerdictValues} (c : IssueCall) : bool :=
  negb (isReroute (dispatchedVerdict c)).

(** The control layer is an echo request or an echo reply. *)
Definition echoRequestOrReply (l : option IPControlLayer) : Prop :=
  exists t,
    (l = Some (LayerICMPv4 t) /\
     (t = ICMPv4TypeEchoRequest \/ t = ICMPv4TypeEchoReply)) \/
    (l = Some (LayerICMPv6 t) /\
     (t = ICMPv6TypeEchoRequest \/ t = ICMPv6TypeEchoReply)).

(** ** Sample data

    The flow of the spec's rogue-DNS scenario, a quiet set of collaborators
    and some records, for evaluating the definitions on concrete inputs. *)

Definition sampleID : string := "17-192.168.1.10-54321-8.8.8.8-53".

Definition dnsPacket : Packet :=
  {| Info := {| Inbound := false; Protocol := UDP;
                Src := [192; 168; 1; 10]; Dst := [8; 8; 8; 8];
                SrcPort := 54321; DstPort := 53 |};
     GetConnectionID := sampleID;
     FastTrackedByIntegration := false;
     IsOutbound := true;
     LoadPacketData := None;
     LayerClassIPControl := None |}.

(** A record in the state [NewConnectionFromFirstPacket] and
    [SetFirewallHandler(initialHandler)] leave it in, with a given verdict
    and inspecting flag. *)
Definition sampleConn (verdict : Z) (inspecting : bool) : Connection :=
  {| ID := sampleID; ConnInbound := false; LocalPort := 54321;
     EntityProtocol := 17; EntityIPScope := Global; EntityDomain := "";
     ProcessPid := 1000; Verdict := verdict; ReasonMsg := "";
     Internal := false; Inspecting := inspecting; VerdictPermanent := false;
     firewallHandler := Some HandlerInitial; saveWhenFinished := false |}.

(** Collaborators that decide nothing: the policy leaves the record as it
    is, no tunnel, no listener; the permanent-verdicts option, the stream
    manager and the call in flight are given. *)
Definition sampleEnv (permanent : bool)
  (manager : Connection -> Packet ->
             Connection * (Z * option string * option error))
  (flight : option (option Connection * option error)) : Env :=
  {| permanentVerdicts := permanent;
     filterEnabled := true;
     localPortIsPreAuthenticated := fun _ _ => false;
     ownPID := 4242;
     apiPortSet := false;
     apiIP := [];
     apiPort := 817;
     DecideOnConnection := fun c _ => c;
     ClientReady := false;
     AwaitRequest := fun _ _ => Some "no request";
     InitializeInspectors := fun c _ => c;
     streamManagerHandlePacket := manager;
     SubmitPacketToICMPListener := fun _ => false;
     ClassifyIP := fun _ => Global;
     IsGlobal := fun s => match s with
                          | Global | GlobalMulticast => true
                          | _ => false
                          end;
     IsMyIP := fun _ => (false, None);
     NewConnectionFromFirstPacket := fun _ => sampleConn 0 false;
     inflight := fun _ => flight;
     duplicates := fun _ => false |}.

(** A stream manager that finds nothing, and one that fails. *)
Definition quietManager (c : Connection) (_ : Packet)
  : Connection * (Z * option string * option error) := (c, (0, None, None)).

Definition failingManager (c : Connection) (_ : Packet)
  : Connection * (Z * option string * option error) :=
  (c, (0, None, Some "tcp-stream: parse failure")).

(** A stream manager that fails right after it has ended the inspection. *)
Definition lastFailingManager (c : Connection) (_ : Packet)
  : Connection * (Z * option string * option error) :=
  (withInspecting false c, (0, None, Some "tcp-stream: parse failure")).

Definition quietEnv : Env := sampleEnv false quietManager None.

(** The resolver's matcher for the in-process nameserver at 127.0.0.17. *)
Definition sampleMatcher (ip : IP) : bool := IPEqual ip (IPv4 127 0 0 17).

(** An ICMPv4 destination-unreachable message from 10.0.0.1 to 10.0.0.5. *)
Definition icmpPacket : Packet :=
  {| Info := {| Inbound := true; Protocol := ICMP;
                Src := [10; 0; 0; 1]; Dst := [10; 0; 0; 5];
                SrcPort := 0; DstPort := 0 |};
     GetConnectionID := "1-10.0.0.5-0-10.0.0.1-0";
     FastTrackedByIntegration := false;
     IsOutbound := false;
     LoadPacketData := None;
     LayerClassIPControl := Some (LayerICMPv4 3) |}.

(** The spec's loopback self-check and sentinel-block packets. *)
Definition selfCheckPacket : Packet :=
  {| Info := {| Inbound := false; Protocol := TCP;
                Src := [10; 0; 0; 5]; Dst := [10; 0; 0; 5];
                SrcPort := 53124; DstPort := 53124 |};
     GetConnectionID := "6-10.0.0.5-53124-10.0.0.5-53124";
     FastTrackedByIntegration := false;
     IsOutbound := true;
     LoadPacketData := None;
     LayerClassIPControl := None |}.

Definition sentinelPacket : Packet :=
  {| Info := {| Inbound := false; Protocol := TCP;
                Src := [192; 168; 1; 10]; Dst := [0; 0; 0; 17];
                SrcPort := 44000; DstPort := 80 |};
     GetConnectionID := "6-192.168.1.10-44000-0.0.0.17-80";
     FastTrackedByIntegration := false;
     IsOutbound := true;
     LoadPacketData := None;
     LayerClassIPControl := None |}.

(** The world after the resolver has registered its matcher. *)
Definition matcherWorld : World :=
  mkWorld (Some sampleMatcher) true true (mkStats 0 0 0 0) [] [] ∅.

(** ** Reading worlds *)

(** The set-once guard keeps this: once the ready flag is up, the matcher
    variable holds a function. *)
Definition matcherInstalled (w : World) : Prop :=
  nameserverIPMatcherReady w = true -> nameserverIPMatcher w <> None.

(** [w'] is [w] after one more verdict for [pkt] and some counter steps:
    nothing else differs. *)
Definition oneVerdict (pkt : Packet) (s : Sink) (w w' : World) : Prop :=
  exists st, w' = withVerdicts (verdicts w ++ [(pkt, s)]) (withStats st w).

(** The destination is one of the two sentinel addresses. *)
Definition sentinelDst (pkt : Packet) : bool :=
  IPEqual (Dst (Info pkt)) blockedIPv4 || IPEqual (Dst (Info pkt)) blockedIPv6.

(** Source and destination are the same endpoint. *)
Definition selfCheck (pkt : Packet) : bool :=
  (SrcPort (Info pkt) =? DstPort (Info pkt)) &&
  IPEqual (Src (Info pkt)) (Dst (Info pkt)).

Definition dhcpPort (port : Z) : bool :=
  (port =? 67) || (port =? 68) || (port =? 546) || (port =? 547).

Definition localScope (s : IPScope) : bool :=
  match s with
  | HostLocal | LinkLocal | SiteLocal | LocalMulticast => true
  | _ => false
  end.

(** A series of packets of one connection whose firewall handler is nil:
    each goes to [defaultHandler], with the collaborators' answers at that
    time, and the record is handed on. *)
Fixpoint defaultHandlerAll `{VerdictValues} (conn : Connection)
  (pkts : list (Env * Packet)) : M Connection :=
  match pkts with
  | [] => ret conn
  | (env, pkt) :: rest =>
      conn' <- defaultHandler env conn pkt ;;
      defaultHandlerAll conn' rest
  end.


(** Collaborators of a host in a local network: every address is local in
    scope and the host's own, the API listens on 127.0.0.1:817. *)
Definition lanEnv : Env :=
  {| permanentVerdicts := true;
     filterEnabled := true;
     localPortIsPreAuthenticated := fun _ _ => false;
     ownPID := 4242;
     apiPortSet := true;
     apiIP := [127; 0; 0; 1];
     apiPort := 817;
     DecideOnConnection := fun c _ => c;
     ClientReady := false;
     AwaitRequest := fun _ _ => Some "no request";
     InitializeInspectors := fun c _ => c;
     streamManagerHandlePacket := quietManager;
     SubmitPacketToICMPListener := fun _ => true;
     ClassifyIP := fun _ => LocalMulticast;
     IsGlobal := fun _ => false;
     IsMyIP := fun _ => (true, None);
     NewConnectionFromFirstPacket := fun _ => sampleConn 0 false;
     inflight := fun _ => None;
     duplicates := fun _ => false |}.

(** The spec's DHCP request, a request to the API and a query to the
    in-process nameserver. *)
Definition dhcpPacket : Packet :=
  {| Info := {| Inbound := false; Protocol := UDP;
                Src := [0; 0; 0; 0]; Dst := [255; 255; 255; 255];
                SrcPort := 68; DstPort := 67 |};
     GetConnectionID := "17-0.0.0.0-68-255.255.255.255-67";
     FastTrackedByIntegration := false;
     IsOutbound := true;
     LoadPacketData := None;
     LayerClassIPControl := None |}.

Definition apiPacket : Packet :=
  {| Info := {| Inbound := false; Protocol := TCP;
                Src := [127; 0; 0; 1]; Dst := [127; 0; 0; 1];
                SrcPort := 40000; DstPort := 817 |};
     GetConnectionID := "6-127.0.0.1-40000-127.0.0.1-817";
     FastTrackedByIntegration := false;
     IsOutbound := true;
     LoadPacketData := None;
     LayerClassIPControl := None |}.


(** ** Package resolver *)

(** [net.Addr], and the factory type [func(network string) net.Addr]; a nil
    address is [None]. *)
Definition Addr : Type := string.
Definition LocalAddrFactory : Type := string -> option Addr.

(** [SetLocalAddrFactory]: the package variable [localAddrFactory] (nil is
    [None]) is written only while it is nil. *)
Definition SetLocalAddrFactory (laf : option LocalAddrFactory)
  (localAddrFactory : option LocalAddrFactory) : option LocalAddrFactory :=
  match localAddrFactory with
  | None => laf
  | Some _ => localAddrFactory
  end.

Definition getLocalAddr (localAddrFactory : option LocalAddrFactory)
  (network : string) : option Addr :=
  match localAddrFactory with
  | Some factory => factory network
  | None => None
  end.

(** A series of registrations, in order. *)
Definition setLocalAddrFactories (lafs : list (option LocalAddrFactory))
  (localAddrFactory : option LocalAddrFactory) : option LocalAddrFactory :=
  fold_left (fun current laf => SetLocalAddrFactory laf current) lafs
    localAddrFactory.

(** The first registration that is not nil. *)
Fixpoint firstFactory (lafs : list (option LocalAddrFactory))
  : option LocalAddrFactory :=
  match lafs with
  | [] => None
  | Some f :: _ => Some f
  | None :: rest => firstFactory rest
  end.

(** [strings.Join] *)
Fixpoint Join (elems : list string) (sep : string) : string :=
  match elems with
  | [] => ""
  | [e] => e
  | e :: rest => e +:+ sep +:+ Join rest sep
  end.

(** The state the config-change hook of [start] closes over, and the number
    of [loadResolvers] calls made so far. *)
Record ResolverState : Type := mkResolverState {
  prevNameservers : string;
  loadResolversCalls : nat
}.

(** [start] up to the registration of the hooks: the resolvers are loaded
    and the configured nameservers are remembered, joined by spaces. *)
Definition resolverStart (configuredNameServers : list string)
  : ResolverState :=
  {| prevNameservers := Join configuredNameServers " ";
     loadResolversCalls := 1 |}.

(** The hook for the event "config change", run with the nameservers that
    are configured at that time. *)
Definition configChangeHook (configuredNameServers : list string)
  (st : ResolverState) : ResolverState :=
  let newNameservers := Join configuredNameServers " " in
  if negb (String.eqb newNameservers (prevNameservers st))
  then {| prevNameservers := newNameservers;
          loadResolversCalls := S (loadResolversCalls st) |}
  else st.

(** The hook for the event "network changed" always reloads. *)
Definition networkChangedHook (st : ResolverState) : ResolverState :=
  {| prevNameservers := prevNameservers st;
     loadResolversCalls := S (loadResolversCalls st) |}.

(** The number of places in a series of configurations at which the joined
    text differs from the one before. *)
Fixpoint joinedChanges (previous : string) (configs : list (list string))
  : nat :=
  match configs with
  | [] => 0
  | c :: rest =>
      (if String.eqb (Join c " ") previous then 0 else 1)
      + joinedChanges (Join c " ") rest
  end.

(** A series of config-change events, in order. *)
Definition runConfigChanges (configs : list (list string))
  (st : ResolverState) : ResolverState :=
  fold_left (fun s c => configChangeHook c s) configs st.

(** ** Package interception: the nfqueue firewall rules *)

(** [strings.Split] for a separator of one byte, as the package calls it. *)
Fixpoint Split (s : string) (sep : Ascii.ascii) : list string :=
  match s with
  | EmptyString => [EmptyString]
  | String c rest =>
      if Ascii.eqb c sep then EmptyString :: Split rest sep
      else match Split rest sep with
           | [] => [String c EmptyString]
           | field :: fields => String c field :: fields
           end
  end.

Definition v4chains : list string :=
  [ "mangle C170"; "mangle C171"; "filter C17" ].

Definition v4rules : list string :=
  [ "mangle C170 -j CONNMARK --restore-mark";
    "mangle C170 -m mark --mark 0 -j NFQUEUE --queue-num 17040 --queue-bypass";
    "mangle C171 -j CONNMARK --restore-mark";
    "mangle C171 -m mark --mark 0 -j NFQUEUE --queue-num 17140 --queue-bypass";
    "filter C17 -m mark --mark 0 -j DROP";
    "filter C17 -m mark --mark 1700 -j RETURN";
    "filter C17 -m mark --mark 1701 -j REJECT --reject-with icmp-host-prohibited";
    "filter C17 -m mark --mark 1702 -j DROP";
    "filter C17 -j CONNMARK --save-mark";
    "filter C17 -m mark --mark 1710 -j RETURN";
    "filter C17 -m mark --mark 1711 -j REJECT --reject-with icmp-host-prohibited";
    "filter C17 -m mark --mark 1712 -j DROP";
    "filter C17 -m mark --mark 1717 -j RETURN" ].

Definition v4once : list string :=
  [ "mangle OUTPUT -j C170";
    "mangle INPUT -j C171";
    "filter OUTPUT -j C17";
    "filter INPUT -j C17";
    "nat OUTPUT -m mark --mark 1799 -p udp -j DNAT --to 127.0.0.17:53";
    "nat OUTPUT -m mark --mark 1717 -p tcp -j DNAT --to 127.0.0.17:717";
    "nat OUTPUT -m mark --mark 1717 -p udp -j DNAT --to 127.0.0.17:717" ].

Definition v6chains : list string :=
  [ "mangle C170"; "mangle C171"; "filter C17" ].

Definition v6rules : list string :=
  [ "mangle C170 -j CONNMARK --restore-mark";
    "mangle C170 -m mark --mark 0 -j NFQUEUE --queue-num 17060 --queue-bypass";
    "mangle C171 -j CONNMARK --restore-mark";
    "mangle C171 -m mark --mark 0 -j NFQUEUE --queue-num 17160 --queue-bypass";
    "filter C17 -m mark --mark 0 -j DROP";
    "filter C17 -m mark --mark 1700 -j RETURN";
    "filter C17 -m mark --mark 1701 -j REJECT --reject-with icmp6-adm-prohibited";
    "filter C17 -m mark --mark 1702 -j DROP";
    "filter C17 -j CONNMARK --save-mark";
    "filter C17 -m mark --mark 1710 -j RETURN";
    "filter C17 -m mark --mark 1711 -j REJECT --reject-with icmp6-adm-prohibited";
    "filter C17 -m mark --mark 1712 -j DROP";
    "filter C17 -m mark --mark 1717 -j RETURN" ].

Definition v6once : list string :=
  [ "mangle OUTPUT -j C170";
    "mangle INPUT -j C171";
    "filter OUTPUT -j C17";
    "filter INPUT -j C17";
    "nat OUTPUT -m mark --mark 1799 -p udp -j DNAT --to [fd17::17]:53";
    "nat OUTPUT -m mark --mark 1717 -p tcp -j DNAT --to [fd17::17]:717";
    "nat OUTPUT -m mark --mark 1717 -p udp -j DNAT --to [fd17::17]:717" ].

Inductive IPTProtocol : Type :=
  | ProtocolIPv4
  | ProtocolIPv6.

(** The calls the package makes into go-iptables. *)
Inductive IPTCall : Type :=
  | IptNewWithProtocol (protocol : IPTProtocol)
  | IptClearChain (table chain : string)
  | IptAppend (table chain : string) (rulespec : list string)
  | IptExists (table chain : string) (rulespec : list string)
  | IptInsert (table chain : string) (pos : Z) (rulespec : list string)
  | IptDelete (table chain : string) (rulespec : list string)
  | IptDeleteChain (table chain : string).

(** What a call answers: the boolean of [Exists] (unused by the others) and
    the error. *)
Record IPTReply : Type := mkReply {
  replyOk : bool;
  replyErr : option error
}.

Definition IPTLog : Type := list (IPTCall * IPTReply).

(** The iptables of the host, as far as the package can tell: each call is
    answered, and the answer may depend on everything that was called
    before. *)
Definition IPTBackend : Type := IPTLog -> IPTCall -> IPTReply.

(** A computation calls into iptables, keeping the log of the calls and
    their answers (oldest first); [None] is a run-time panic, for an index
    or a slice bound out of range. *)
Definition IPT (A : Type) : Type := IPTLog -> option (A * IPTLog).

Definition iptRet {A} (a : A) : IPT A := fun log => Some (a, log).

Definition iptBind {A B} (m : IPT A) (k : A -> IPT B) : IPT B :=
  fun log => match m log with
             | Some (a, log') => k a log'
             | None => None
             end.

Definition iptPanic {A} : IPT A := fun _ => None.

Notation "x <~ m ;; k" := (iptBind m (fun x => k))
  (at level 62, m at next level, right associativity).

Definition iptCall (B : IPTBackend) (c : IPTCall) : IPT IPTReply :=
  fun log => let r := B log c in Some (r, log ++ [(c, r)]).

(** [splittedRule[0]], [splittedRule[1]] and [splittedRule[2:]] of a line
    split at its spaces; with fewer than two fields the indexing or the
    slicing panics. *)
Definition ruleFields (rule : string)
  : option (string * string * list string) :=
  match Split rule Ascii.Space with
  | table :: chain :: rulespec => Some (table, chain, rulespec)
  | _ => None
  end.

(** The three loops of [activateIPTables]; each returns at the first error. *)
Fixpoint clearChains (B : IPTBackend) (chains : list string)
  : IPT (option error) :=
  match chains with
  | [] => iptRet None
  | chain :: rest =>
      match ruleFields chain with
      | None => iptPanic
      | Some (table, name, _) =>
          r <~ iptCall B (IptClearChain table name) ;;
          match replyErr r with
          | Some err => iptRet (Some err)
          | None => clearChains B rest
          end
      end
  end.

Fixpoint appendRules (B : IPTBackend) (rules : list string)
  : IPT (option error) :=
  match rules with
  | [] => iptRet None
  | rule :: rest =>
      match ruleFields rule with
      | None => iptPanic
      | Some (table, chain, rulespec) =>
          r <~ iptCall B (IptAppend table chain rulespec) ;;
          match replyErr r with
          | Some err => iptRet (Some err)
          | None => appendRules B rest
          end
      end
  end.

Fixpoint insertOnce (B : IPTBackend) (once : list string)
  : IPT (option error) :=
  match once with
  | [] => iptRet None
  | rule :: rest =>
      match ruleFields rule with
      | None => iptPanic
      | Some (table, chain, rulespec) =>
          r <~ iptCall B (IptExists table chain rulespec) ;;
          match replyErr r with
          | Some err => iptRet (Some err)
          | None =>
              if negb (replyOk r) then
                r' <~ iptCall B (IptInsert table chain 1 rulespec) ;;
                match replyErr r' with
                | Some err => iptRet (Some err)
                | None => insertOnce B rest
                end
              else insertOnce B rest
          end
      end
  end.

Definition activateIPTables (B : IPTBackend) (protocol : IPTProtocol)
  (rules once chains : list string) : IPT (option error) :=
  r <~ iptCall B (IptNewWithProtocol protocol) ;;
  match replyErr r with
  | Some err => iptRet (Some err)
  | None =>
      e <~ clearChains B chains ;;
      match e with
      | Some err => iptRet (Some err)
      | None =>
          e <~ appendRules B rules ;;
          match e with
          | Some err => iptRet (Some err)
          | None => insertOnce B once
          end
      end
  end.

(** A [*multierror.Error] is the list of the errors appended to it, nil
    when there is none; appending a multierror appends its errors. *)
Definition appendError (multierr : list error) (err : option error)
  : list error :=
  match err with
  | Some e => multierr ++ [e]
  | None => multierr
  end.

(** The two loops of [deactivateIPTables]; they go on after an error. *)
Fixpoint deleteRules (B : IPTBackend) (rules : list string)
  (multierr : list error) : IPT (list error) :=
  match rules with
  | [] => iptRet multierr
  | rule :: rest =>
      match ruleFields rule with
      | None => iptPanic
      | Some (table, chain, rulespec) =>
          r <~ iptCall B (IptExists table chain rulespec) ;;
          let multierr := appendError multierr (replyErr r) in
          if replyOk r then
            r' <~ iptCall B (IptDelete table chain rulespec) ;;
            deleteRules B rest (appendError multierr (replyErr r'))
          else deleteRules B rest multierr
      end
  end.

Fixpoint deleteChains (B : IPTBackend) (chains : list string)
  (multierr : list error) : IPT (list error) :=
  match chains with
  | [] => iptRet multierr
  | chain :: rest =>
      match ruleFields chain with
      | None => iptPanic
      | Some (table, name, _) =>
          r <~ iptCall B (IptClearChain table name) ;;
          let multierr := appendError multierr (replyErr r) in
          r' <~ iptCall B (IptDeleteChain table name) ;;
          deleteChains B rest (appendError multierr (replyErr r'))
      end
  end.

Definition deactivateIPTables (B : IPTBackend) (protocol : IPTProtocol)
  (rules chains : list string) : IPT (list error) :=
  r <~ iptCall B (IptNewWithProtocol protocol) ;;
  match replyErr r with
  | Some err => iptRet [err]
  | None =>
      multierr <~ deleteRules B rules [] ;;
      deleteChains B chains multierr
  end.

Definition activateNfqueueFirewall (B : IPTBackend) : IPT (option error) :=
  e <~ activateIPTables B ProtocolIPv4 v4rules v4once v4chains ;;
  match e with
  | Some err => iptRet (Some err)
  | None => activateIPTables B ProtocolIPv6 v6rules v6once v6chains
  end.

Definition DeactivateNfqueueFirewall (B : IPTBackend) : IPT (list error) :=
  errs4 <~ deactivateIPTables B ProtocolIPv4 v4once v4chains ;;
  errs6 <~ deactivateIPTables B ProtocolIPv6 v6once v6chains ;;
  iptRet (errs4 ++ errs6).

(** *** Reading logs *)

Inductive IPTOp : Type :=
  | OpNew | OpClearChain | OpAppend | OpExists | OpInsert | OpDelete
  | OpDeleteChain.

Definition isOp (op : IPTOp) (entry : IPTCall * IPTReply) : bool :=
  match op, fst entry with
  | OpNew, IptNewWithProtocol _
  | OpClearChain, IptClearChain _ _
  | OpAppend, IptAppend _ _ _
  | OpExists, IptExists _ _ _
  | OpInsert, IptInsert _ _ _ _
  | OpDelete, IptDelete _ _ _
  | OpDeleteChain, IptDeleteChain _ _ => true
  | _, _ => false
  end.

Definition countOp (op : IPTOp) (log : IPTLog) : nat :=
  length (List.filter (isOp op) log).

(** The errors among the answers of a log, in order. *)
Definition replyErrors (log : IPTLog) : list error :=
  flat_map (fun entry => match replyErr (snd entry) with
                         | Some e => [e]
                         | None => []
                         end) log.

(** The [Exists] calls of a log that were answered with the given boolean. *)
Definition countExists (answer : bool) (log : IPTLog) : nat :=
  length (List.filter (fun entry => isOp OpExists entry &&
                                    Bool.eqb (replyOk (snd entry)) answer) log).

(** Every line has the two fields the code indexes. *)
Definition wellFormedRules (rules : list string) : Prop :=
  Forall (fun rule => ruleFields rule <> None) rules.

(** The calls of [new] were answered without an error up to the last, whose
    error is the result; with no result, without any error. *)
Definition stopsAtFirstError (new : IPTLog) (res : option error) : Prop :=
  match res with
  | None => replyErrors new = []
  | Some e =>
      exists before call reply,
        new = before ++ [(call, reply)] /\
        replyErrors before = [] /\ replyErr reply = Some e
  end.

(** An iptables that answers every call without an error and finds no rule,
    and one whose every call fails. *)
Definition emptyBackend : IPTBackend := fun _ _ => mkReply false None.

Definition brokenBackend : IPTBackend :=
  fun _ _ => mkReply false (Some "iptables: permission denied").

(** Every [Insert] of a log is at position 1. *)
Definition insertsAtHead (log : IPTLog) : Prop :=
  Forall (fun entry => match fst entry with
                       | IptInsert _ _ pos _ => pos = 1
                       | _ => True
                       end) log.

(** *** The calls a run is expected to make *)

(** Every call of [new] was answered by the backend, on the log as it was
    when the call was made. *)
Fixpoint answeredBy (B : IPTBackend) (log new : IPTLog) : Prop :=
  match new with
  | [] => True
  | (call, reply) :: rest =>
      reply = B log call /\ answeredBy B (log ++ [(call, reply)]) rest
  end.

(** The answers of the [Exists] calls of a log, in order. *)
Definition existsAnswers (log : IPTLog) : list bool :=
  map (fun entry => replyOk (snd entry)) (List.filter (isOp OpExists) log).

(** One [ClearChain] for each chain line, on its table and chain. *)
Definition clearCalls (chains : list string) : list IPTCall :=
  flat_map (fun chain => match ruleFields chain with
                         | Some (table, name, _) => [IptClearChain table name]
                         | None => []
                         end) chains.

(** One [Append] for each rule line, with its table, chain and rulespec. *)
Definition appendCalls (rules : list string) : list IPTCall :=
  flat_map (fun rule => match ruleFields rule with
                        | Some (table, chain, rulespec) =>
                            [IptAppend table chain rulespec]
                        | None => []
                        end) rules.

(** For each once-rule an [Exists] on its table, chain and rulespec,
    followed by an [Insert] of the same rule at position 1 when the answer
    was no; [present] holds the answers, in order. *)
Fixpoint insertCalls (once : list string) (present : list bool)
  : list IPTCall :=
  match once with
  | [] => []
  | rule :: rest =>
      match ruleFields rule with
      | Some (table, chain, rulespec) =>
          IptExists table chain rulespec ::
          match present with
          | false :: answers =>
              IptInsert table chain 1 rulespec :: insertCalls rest answers
          | true :: answers => insertCalls rest answers
          | [] => insertCalls rest []
          end
      | None => insertCalls rest present
      end
  end.

Definition activateCalls (protocol : IPTProtocol)
  (rules once chains : list string) (present : list bool) : list IPTCall :=
  IptNewWithProtocol protocol ::
  clearCalls chains ++ appendCalls rules ++ insertCalls once present.

(** For each rule an [Exists] on its table, chain and rulespec, followed by
    a [Delete] of the same rule when the answer was yes. *)
Fixpoint deleteCalls (rules : list string) (present : list bool)
  : list IPTCall :=
  match rules with
  | [] => []
  | rule :: rest =>
      match ruleFields rule with
      | Some (table, chain, rulespec) =>
          IptExists table chain rulespec ::
          match present with
          | true :: answers =>
              IptDelete table chain rulespec :: deleteCalls rest answers
          | false :: answers => deleteCalls rest answers
          | [] => deleteCalls rest []
          end
      | None => deleteCalls rest present
      end
  end.

(** For each chain line a [ClearChain] and a [DeleteChain] on its table and
    chain. *)
Definition removeCalls (chains : list string) : list IPTCall :=
  flat_map (fun chain => match ruleFields chain with
                         | Some (table, name, _) =>
                             [IptClearChain table name;
                              IptDeleteChain table name]
                         | None => []
                         end) chains.

Definition deactivateCalls (protocol : IPTProtocol)
  (rules chains : list string) (present : list bool) : list IPTCall :=
  IptNewWithProtocol protocol ::
  deleteCalls rules present ++ removeCalls chains.

(** ** Package interception: starting and stopping the nfqueue backend *)

(** A handle on an opened queue (an [nfQueue]); nil is [None]. *)
Definition Queue : Type := Z.

(** What the package does besides calling iptables. *)
Inductive NfqEvent : Type :=
  | EvFactory (qid : Z) (v6 : bool)
  | EvDestroy (q : Queue)
  | EvGoHandleInterception.

(** The package variables: the four queues, whether [shutdownSignal] is
    closed, and what has been done so far. *)
Record NfqState : Type := mkNfqState {
  out4Queue : option Queue;
  in4Queue : option Queue;
  out6Queue : option Queue;
  in6Queue : option Queue;
  shutdownSignalClosed : bool;
  nfqLog : IPTLog;
  nfqEvents : list NfqEvent
}.

(** The host: its iptables, the flag [-experimental-nfqueue], the two queue
    constructors, and the text of a multierror. *)
Record NfqEnv : Type := mkNfqEnv {
  iptables : IPTBackend;
  experimentalNfqueueBackend : bool;
  NewNFQueue : Z -> option Queue * option error;
  nfqexpNew : Z -> bool -> option Queue * option error;
  multierrorText : list error -> string
}.

Definition nfQueueFactory (env : NfqEnv) (qid : Z) (v6 : bool)
  : option Queue * option error :=
  if experimentalNfqueueBackend env then nfqexpNew env qid v6
  else NewNFQueue env qid.

Definition addEvents (evs : list NfqEvent) (st : NfqState) : NfqState :=
  mkNfqState (out4Queue st) (in4Queue st) (out6Queue st) (in6Queue st)
    (shutdownSignalClosed st) (nfqLog st) (nfqEvents st ++ evs).

Definition withNfqLog (log : IPTLog) (st : NfqState) : NfqState :=
  mkNfqState (out4Queue st) (in4Queue st) (out6Queue st) (in6Queue st)
    (shutdownSignalClosed st) log (nfqEvents st).

Definition destroyEvents (q : option Queue) : list NfqEvent :=
  match q with
  | Some h => [EvDestroy h]
  | None => []
  end.

(** [StopNfqueueInterception].  The deferred [close(shutdownSignal)] runs
    when the function returns; closing a closed channel panics. *)
Definition StopNfqueueInterception (env : NfqEnv) (st : NfqState)
  : option (option error * NfqState) :=
  let st := addEvents (destroyEvents (out4Queue st)) st in
  let st := addEvents (destroyEvents (in4Queue st)) st in
  let st := addEvents (destroyEvents (out6Queue st)) st in
  let st := addEvents (destroyEvents (in6Queue st)) st in
  match DeactivateNfqueueFirewall (iptables env) (nfqLog st) with
  | None => None
  | Some (errs, log) =>
      let st := withNfqLog log st in
      let res :=
        match errs with
        | [] => None
        | _ => Some ("interception: error while deactivating nfqueue: "
                     +:+ multierrorText env errs)
        end in
      if shutdownSignalClosed st then None
      else Some (res,
                 mkNfqState (out4Queue st) (in4Queue st) (out6Queue st)
                   (in6Queue st) true (nfqLog st) (nfqEvents st))
  end.

(** The four queues [StartNfqueueInterception] opens, in order. *)
Definition queueOpenings : list NfqEvent :=
  [ EvFactory 17040 false; EvFactory 17140 false;
    EvFactory 17060 true; EvFactory 17160 true ].

(** The package as loaded, and a host where everything works. *)
Definition initialNfqState : NfqState :=
  mkNfqState None None None None false [] [].

Definition workingNfqEnv : NfqEnv :=
  {| iptables := emptyBackend;
     experimentalNfqueueBackend := false;
     NewNFQueue := fun qid => (Some qid, None);
     nfqexpNew := fun qid _ => (Some qid, None);
     multierrorText := fun errs => Join errs "; " |}.

(** ** Package interception: [Start] and [Stop] *)

(** What [Start] and [Stop] set in motion: the platform's [start] on the
    packet channel itself or on a traced channel feeding it, the metrics
    writer, and the platform's [stop]. *)
Inductive InterceptionEvent : Type :=
  | EvGoWriteMetrics
  | EvPlatformStart (traced : bool)
  | EvPlatformStop.

Record InterceptionState : Type := mkInterceptionState {
  metricsDoneClosed : bool;
  interceptionEvents : list InterceptionEvent
}.

(** The flag [-disable-interception], the metrics destination, and the
    answers of the platform's [start] and [stop], which are not among the
    sources. *)
Record InterceptionEnv : Type := mkInterceptionEnv {
  disableInterception : bool;
  packetMetricsDestination : string;
  platformStart : option error;
  platformStop : option error
}.

Definition InterceptionStart (env : InterceptionEnv) (st : InterceptionState)
  : option (option error * InterceptionState) :=
  if disableInterception env then Some (None, st)
  else if negb (String.eqb (packetMetricsDestination env) "") then
    Some (platformStart env,
          mkInterceptionState (metricsDoneClosed st)
            (interceptionEvents st ++ [EvGoWriteMetrics; EvPlatformStart true]))
  else
    Some (platformStart env,
          mkInterceptionState (metricsDoneClosed st)
            (interceptionEvents st ++ [EvPlatformStart false])).

(** [Stop]: closing the closed channel [metrics.done] panics. *)
Definition InterceptionStop (env : InterceptionEnv) (st : InterceptionState)
  : option (option error * InterceptionState) :=
  if disableInterception env then Some (None, st)
  else if metricsDoneClosed st then None
  else Some (platformStop env,
             mkInterceptionState true
               (interceptionEvents st ++ [EvPlatformStop])).

(** ** Package interception: starting the nfqueue backend *)

(** The package variables of both files. *)
Record PackageState : Type := mkPackageState {
  nfqState : NfqState;
  interceptionState : InterceptionState
}.

Definition withNfqState (n : NfqState) (st : PackageState) : PackageState :=
  mkPackageState n (interceptionState st).

(** The platform's [stop], which is not among the sources: it may change
    the package variables, return an error, or panic. *)
Definition PlatformStop : Type :=
  PackageState -> option (option error * PackageState).

(** [Stop] as [StartNfqueueInterception] calls it, on all the package
    variables and with the platform's [stop] as it may be: closing the
    closed channel [metrics.done] panics, and the platform's [stop] runs
    after the channel is closed.  [InterceptionStop] is what this does to
    [metrics.done] and the events when the platform's [stop] only
    answers. *)
Definition Stop (env : InterceptionEnv) (stop : PlatformStop)
  (st : PackageState) : option (option error * PackageState) :=
  if disableInterception env then Some (None, st)
  else if metricsDoneClosed (interceptionState st) then None
  else stop (mkPackageState (nfqState st)
               (mkInterceptionState true
                  (interceptionEvents (interceptionState st)
                   ++ [EvPlatformStop]))).

(** [_ = Stop()] followed by [return fmt.Errorf(...)]: the error of [Stop]
    is dropped, a panic of [Stop] is not. *)
Definition stopAndFail (ienv : InterceptionEnv) (stop : PlatformStop)
  (msg : string) (st : PackageState) : option (option error * PackageState) :=
  match Stop ienv stop st with
  | None => None
  | Some (_, st') => Some (Some msg, st')
  end.

(** [StartNfqueueInterception]: every failure calls [Stop] before it
    returns. *)
Definition StartNfqueueInterception (env : NfqEnv) (ienv : InterceptionEnv)
  (stop : PlatformStop) (st : PackageState)
  : option (option error * PackageState) :=
  let n := nfqState st in
  match activateNfqueueFirewall (iptables env) (nfqLog n) with
  | None => None
  | Some (Some err, log) =>
      stopAndFail ienv stop ("could not initialize nfqueue: " +:+ err)
        (withNfqState (withNfqLog log n) st)
  | Some (None, log) =>
      let n := withNfqLog log n in
      let '(q, err) := nfQueueFactory env 17040 false in
      let n := addEvents [EvFactory 17040 false]
                 (mkNfqState q (in4Queue n) (out6Queue n) (in6Queue n)
                    (shutdownSignalClosed n) (nfqLog n) (nfqEvents n)) in
      match err with
      | Some err =>
          stopAndFail ienv stop ("nfqueue(IPv4, out): " +:+ err)
            (withNfqState n st)
      | None =>
      let '(q, err) := nfQueueFactory env 17140 false in
      let n := addEvents [EvFactory 17140 false]
                 (mkNfqState (out4Queue n) q (out6Queue n) (in6Queue n)
                    (shutdownSignalClosed n) (nfqLog n) (nfqEvents n)) in
      match err with
      | Some err =>
          stopAndFail ienv stop ("nfqueue(IPv4, in): " +:+ err)
            (withNfqState n st)
      | None =>
      let '(q, err) := nfQueueFactory env 17060 true in
      let n := addEvents [EvFactory 17060 true]
                 (mkNfqState (out4Queue n) (in4Queue n) q (in6Queue n)
                    (shutdownSignalClosed n) (nfqLog n) (nfqEvents n)) in
      match err with
      | Some err =>
          stopAndFail ienv stop ("nfqueue(IPv6, out): " +:+ err)
            (withNfqState n st)
      | None =>
      let '(q, err) := nfQueueFactory env 17160 true in
      let n := addEvents [EvFactory 17160 true]
                 (mkNfqState (out4Queue n) (in4Queue n) (out6Queue n) q
                    (shutdownSignalClosed n) (nfqLog n) (nfqEvents n)) in
      match err with
      | Some err =>
          stopAndFail ienv stop ("nfqueue(IPv6, in): " +:+ err)
            (withNfqState n st)
      | None =>
          Some (None,
                withNfqState (addEvents [EvGoHandleInterception] n) st)
      end end end end
  end.

(** The steps of [StartNfqueueInterception] that can fail: the activation
    of the rules (step 0) and the four queues (steps 1 to 4); the error of
    a step, given the result of the activation, and the text put before
    it. *)
Definition startStepError (env : NfqEnv) (activation : option error)
  (step : nat) : option error :=
  match step with
  | 0%nat => activation
  | 1%nat => snd (nfQueueFactory env 17040 false)
  | 2%nat => snd (nfQueueFactory env 17140 false)
  | 3%nat => snd (nfQueueFactory env 17060 true)
  | 4%nat => snd (nfQueueFactory env 17160 true)
  | _ => None
  end.

Definition startStepPrefix (step : nat) : string :=
  match step with
  | 0%nat => "could not initialize nfqueue: "
  | 1%nat => "nfqueue(IPv4, out): "
  | 2%nat => "nfqueue(IPv4, in): "
  | 3%nat => "nfqueue(IPv6, out): "
  | 4%nat => "nfqueue(IPv6, in): "
  | _ => ""
  end.

(** The four queue variables, in the order they are assigned, and what the
    four constructor calls return. *)
Definition queueVariables (n : NfqState) : list (option Queue) :=
  [out4Queue n; in4Queue n; out6Queue n; in6Queue n].

Definition queueHandles (env : NfqEnv) : list (option Queue) :=
  [ fst (nfQueueFactory env 17040 false);
    fst (nfQueueFactory env 17140 false);
    fst (nfQueueFactory env 17060 true);
    fst (nfQueueFactory env 17160 true) ].

(** The package as loaded, with interception enabled and no metrics
    destination; a platform [stop] that only answers, and the one that
    runs [StopNfqueueInterception]. *)
Definition initialPackageState : PackageState :=
  mkPackageState initialNfqState (mkInterceptionState false []).

Definition plainInterceptionEnv : InterceptionEnv :=
  {| disableInterception := false;
     packetMetricsDestination := "";
     platformStart := None;
     platformStop := None |}.

Definition answeringStop (answer : option error) : PlatformStop :=
  fun st => Some (answer, st).

Definition nfqueueStop (env : NfqEnv) : PlatformStop :=
  fun st => match StopNfqueueInterception env (nfqState st) with
            | None => None
            | Some (err, n) => Some (err, withNfqState n st)
            end.

(** ** Basic facts *)

Lemma specVerdicts_order : verdictsSpecOrder specVerdicts.
Proof. unfold verdictsSpecOrder; simpl; lia. Qed.

Lemma specOrder_distinct (V : VerdictValues) :
  verdictsSpecOrder V -> verdictsDistinct V.
Proof.
  unfold verdictsSpecOrder, verdictsDistinct.
  intros (H0 & H1 & H2 & H3 & H4 & H5 & H6 & H7 & H8).
  split; [exact H0|]. split.
  - repeat (apply NoDup_cons_2 || apply NoDup_nil_2);
      rewrite ?elem_of_cons, ?elem_of_nil; lia.
  - repeat constructor; lia.
Qed.

Lemma specVerdicts_distinct : verdictsDistinct specVerdicts.
Proof. apply specOrder_distinct, specVerdicts_order. Qed.

(** The disequalities and bounds [verdictsDistinct] packs. *)
Lemma verdictsDistinct_facts (V : VerdictValues) :
  verdictsDistinct V ->
  VerdictUndecided = 0 /\
  0 < VerdictAccept /\ 0 < VerdictBlock /\ 0 < VerdictDrop /\
  0 < VerdictRerouteToNameserver /\ 0 < VerdictRerouteToTunnel /\
  0 < VerdictFailed /\
  VerdictAccept <> VerdictBlock /\ VerdictAccept <> VerdictDrop /\
  VerdictAccept <> VerdictRerouteToNameserver /\
  VerdictAccept <> VerdictRerouteToTunnel /\
  VerdictAccept <> VerdictFailed /\
  VerdictBlock <> VerdictDrop /\
  VerdictBlock <> VerdictRerouteToNameserver /\
  VerdictBlock <> VerdictRerouteToTunnel /\
  VerdictBlock <> VerdictFailed /\
  VerdictDrop <> VerdictRerouteToNameserver /\
  VerdictDrop <> VerdictRerouteToTunnel /\
  VerdictDrop <> VerdictFailed /\
  VerdictRerouteToNameserver <> VerdictRerouteToTunnel /\
  VerdictRerouteToNameserver <> VerdictFailed /\
  VerdictRerouteToTunnel <> VerdictFailed.
Proof.
  unfold verdictsDistinct. intros (H0 & Hnd & Hpos).
  repeat match goal with
         | H : NoDup (_ :: _) |- _ =>
             apply NoDup_cons in H; destruct H as [? H]
         end.
  repeat match goal with
         | H : Forall _ (_ :: _) |- _ =>
             apply Forall_cons in H; destruct H as [? H]
         end.
  rewrite ?not_elem_of_cons in *.
  destruct_and?. rewrite H0 in *.
  repeat split; try assumption; try (apply not_eq_sym; assumption);
    match goal with
    | |- 0 < ?v =>
        match goal with
        | Hne : 0 ≠ v, Hle : 0 ≤ v |- _ => clear - Hne Hle; lia
        end
    end.
Qed.

Lemma effectiveVerdict_max (conn : Connection) (verdict : Z) :
  effectiveVerdict conn verdict = Z.max verdict (Verdict conn).
Proof. unfold effectiveVerdict. destruct (Z.ltb_spec verdict (Verdict conn)); lia. Qed.

Lemma enablePermanent_Verdict env conn allow :
  Verdict (enablePermanent env conn allow) = Verdict conn.
Proof.
  unfold enablePermanent.
  destruct (allow && negb (VerdictPermanent conn)); [|reflexivity].
  simpl. destruct (permanentVerdicts env); reflexivity.
Qed.

Lemma enablePermanent_VerdictPermanent env conn allow :
  VerdictPermanent (enablePermanent env conn allow) =
  VerdictPermanent conn || (allow && permanentVerdicts env).
Proof.
  unfold enablePermanent.
  destruct allow, (VerdictPermanent conn) eqn:E; simpl; rewrite ?E; try reflexivity.
  destruct (permanentVerdicts env); reflexivity.
Qed.

(** Case analysis over the comparisons of a [switch]. *)
Ltac switch_cases :=
  repeat match goal with
         | |- context [Z.eqb ?a ?b] => destruct (Z.eqb_spec a b)
         end.

(** What the [switch] of [issueVerdict] does, case by case: one sink call
    on the packet and at most one counter step. *)
Lemma applyVerdict_cases `{V : VerdictValues} (HV : verdictsDistinct V)
  (conn : Connection) (pkt : Packet) (v : Z) (w : World) :
  exists s st,
    applyVerdict conn pkt v w =
      Some (tt, withVerdicts (verdicts w ++ [(pkt, s)]) (withStats st w)) /\
    (v = VerdictAccept ->
       s = (if VerdictPermanent conn then SinkPermanentAccept else SinkAccept)
       /\ st = bumpStats CounterAccepted (stats w)) /\
    (v = VerdictBlock ->
       s = (if VerdictPermanent conn then SinkPermanentBlock else SinkBlock)
       /\ st = bumpStats CounterBlocked (stats w)) /\
    (v = VerdictDrop ->
       s = (if VerdictPermanent conn then SinkPermanentDrop else SinkDrop)
       /\ st = bumpStats CounterDropped (stats w)) /\
    (v = VerdictRerouteToNameserver ->
       s = SinkRerouteToNameserver /\ st = stats w) /\
    (v = VerdictRerouteToTunnel ->
       s = SinkRerouteToTunnel /\ st = stats w) /\
    (v = VerdictFailed ->
       s = SinkDrop /\ st = bumpStats CounterFailed (stats w)) /\
    (v <> VerdictAccept -> v <> VerdictBlock -> v <> VerdictDrop ->
     v <> VerdictRerouteToNameserver -> v <> VerdictRerouteToTunnel ->
     v <> VerdictFailed ->
       s = SinkDrop /\ st = bumpStats CounterDropped (stats w)).
Proof.
  pose proof (verdictsDistinct_facts V HV) as F.
  unfold applyVerdict. switch_cases; subst;
    destruct (VerdictPermanent conn) eqn:EP;
    (eexists; eexists; split;
     [ unfold bind, AddUint64, callSink, modifyWorld; simpl; try rewrite EP; try reflexivity
     | repeat split; intros; try reflexivity; try (exfalso; intuition congruence) ]).
Qed.

Lemma issueVerdict_unfold `{V : VerdictValues} env conn pkt verdict allow w :
  issueVerdict env conn pkt verdict allow w =
  (applyVerdict (enablePermanent env conn allow) pkt
     (Z.max verdict (Verdict conn)) ;;;
   ret (enablePermanent env conn allow)) w.
Proof.
  unfold issueVerdict.
  rewrite effectiveVerdict_max, enablePermanent_Verdict. reflexivity.
Qed.

Lemma dispatchedVerdict_max (c : IssueCall) :
  dispatchedVerdict c = Z.max (callVerdict c) (Verdict (callConn c)).
Proof.
  unfold dispatchedVerdict.
  rewrite effectiveVerdict_max, enablePermanent_Verdict. reflexivity.
Qed.

(** The values that have a rank are the named ones. *)
Lemma specRank_inv `{V : VerdictValues} (v : Z) (r : nat) :
  specRank v = Some r ->
  (v = VerdictUndecided /\ r = 0%nat) \/
  (v = VerdictAccept /\ r = 1%nat) \/
  ((v = VerdictRerouteToNameserver \/ v = VerdictRerouteToTunnel)
   /\ r = 2%nat) \/
  (v = VerdictBlock /\ r = 3%nat) \/
  (v = VerdictDrop /\ r = 4%nat) \/
  (v = VerdictFailed /\ r = 5%nat).
Proof.
  unfold specRank, isReroute.
  switch_cases; simpl; intros E; inversion E; subst; tauto.
Qed.

Lemma specRank_named `{V : VerdictValues} (HV : verdictsSpecOrder V) :
  specRank VerdictUndecided = Some 0%nat /\
  specRank VerdictAccept = Some 1%nat /\
  specRank VerdictRerouteToNameserver = Some 2%nat /\
  specRank VerdictRerouteToTunnel = Some 2%nat /\
  specRank VerdictBlock = Some 3%nat /\
  specRank VerdictDrop = Some 4%nat /\
  specRank VerdictFailed = Some 5%nat.
Proof.
  destruct HV as (H0 & H1 & H2 & H3 & H4 & H5 & H6 & H7 & H8).
  unfold specRank, isReroute.
  repeat split; switch_cases; simpl; try reflexivity; exfalso; lia.
Qed.

(** On the named values the numeric order is the spec's order. *)
Lemma specRank_monotone `{V : VerdictValues} (HV : verdictsSpecOrder V)
  (v1 v2 : Z) (r1 r2 : nat) :
  specRank v1 = Some r1 -> specRank v2 = Some r2 ->
  (r1 < r2)%nat -> v1 < v2.
Proof.
  intros E1 E2 Hlt.
  apply specRank_inv in E1. apply specRank_inv in E2.
  destruct HV as (H0 & H1 & H2 & H3 & H4 & H5 & H6 & H7 & H8).
  intuition (subst; lia).
Qed.

Lemma specRank_max `{V : VerdictValues} (HV : verdictsSpecOrder V)
  (v1 v2 : Z) (r1 r2 : nat) :
  specRank v1 = Some r1 -> specRank v2 = Some r2 ->
  specRank (Z.max v1 v2) = Some (Nat.max r1 r2).
Proof.
  intros E1 E2.
  destruct (Nat.lt_trichotomy r1 r2) as [Hlt | [Heq | Hgt]].
  - pose proof (specRank_monotone HV _ _ _ _ E1 E2 Hlt).
    rewrite Z.max_r by lia. rewrite Nat.max_r by lia. exact E2.
  - subst r2. rewrite Nat.max_id.
    destruct (Z.max_spec v1 v2) as [[_ ->] | [_ ->]]; assumption.
  - pose proof (specRank_monotone HV _ _ _ _ E2 E1 Hgt).
    rewrite Z.max_l by lia. rewrite Nat.max_l by lia. exact E1.
Qed.

Lemma Sorted_map_iff {A B : Type} (f : A -> B) (R : B -> B -> Prop)
  (l : list A) :
  Sorted R (map f l) <-> Sorted (fun a b => R (f a) (f b)) l.
Proof.
  induction l as [|a l IH]; simpl.
  - split; constructor.
  - split; intros HS; inversion HS as [|? ? Hs Hh]; subst;
      (constructor; [apply IH; exact Hs|]);
      destruct l; simpl in *; constructor; inversion Hh; assumption.
Qed.

Lemma Sorted_iff_on {A : Type} (P : A -> Prop) (R1 R2 : A -> A -> Prop)
  (l : list A) :
  (forall a b, P a -> P b -> (R1 a b <-> R2 a b)) ->
  Forall P l -> (Sorted R1 l <-> Sorted R2 l).
Proof.
  intros HR. induction 1 as [|a l Ha Hl IH]; [split; constructor|].
  split; intros HS; inversion HS as [|? ? Hs Hh]; subst;
    (constructor; [apply IH; exact Hs|]);
    destruct Hl; constructor; inversion Hh; subst; apply (HR a x); assumption.
Qed.

Lemma Sorted_conj {A : Type} (R1 R2 : A -> A -> Prop) (l : list A) :
  Sorted (fun a b => R1 a b /\ R2 a b) l <-> Sorted R1 l /\ Sorted R2 l.
Proof.
  induction l as [|a l IH]; [repeat constructor|].
  split.
  - intros HS. inversion HS as [|? ? Hs Hh]; subst.
    apply IH in Hs. destruct Hs as [Hs1 Hs2].
    split; (constructor; [assumption|]);
      destruct l; constructor; inversion Hh; subst; tauto.
  - intros [H1 H2].
    inversion H1 as [|? ? Hs1 Hh1]; inversion H2 as [|? ? Hs2 Hh2]; subst.
    constructor; [apply IH; split; assumption|].
    destruct l; constructor. inversion Hh1; inversion Hh2; subst.
    split; assumption.
Qed.

Lemma Sorted_weaken {A : Type} (R1 R2 : A -> A -> Prop) (l : list A) :
  (forall a b, R1 a b -> R2 a b) -> Sorted R1 l -> Sorted R2 l.
Proof.
  intros HR. induction 1 as [|a l Hs IH Hh]; constructor; [exact IH|].
  destruct Hh; constructor. apply HR. assumption.
Qed.

(** In the spec's order, a verdict is below what the next call dispatches
    exactly when the next call matches it. *)
Lemma rankLeb_dispatched `{V : VerdictValues} (HV : verdictsSpecOrder V)
  (v : Z) (next : IssueCall) :
  namedCall next ->
  rankLeb v (dispatchedVerdict next) = matchedBy v next.
Proof.
  intros [Hp Hr]. unfold matchedBy, rankLeb.
  destruct (specRank (callVerdict next)) as [p|] eqn:Ep; [|congruence].
  destruct (specRank (Verdict (callConn next))) as [r|] eqn:Er;
    [|congruence].
  rewrite dispatchedVerdict_max, (specRank_max HV _ _ _ _ Ep Er).
  destruct (specRank v) as [x|]; [|reflexivity].
  clear. destruct (Nat.leb_spec x (Nat.max p r)), (Nat.leb_spec x p),
    (Nat.leb_spec x r); simpl; try reflexivity; lia.
Qed.

Lemma rankLeb_from_dispatched `{V : VerdictValues}
  (HV : verdictsSpecOrder V) (c : IssueCall) (d : Z) :
  namedCall c ->
  rankLeb (dispatchedVerdict c) d =
  rankLeb (Verdict (callConn c)) d && rankLeb (callVerdict c) d.
Proof.
  intros [Hp Hr]. unfold rankLeb.
  destruct (specRank (callVerdict c)) as [p|] eqn:Ep; [|congruence].
  destruct (specRank (Verdict (callConn c))) as [r|] eqn:Er; [|congruence].
  rewrite dispatchedVerdict_max, (specRank_max HV _ _ _ _ Ep Er).
  destruct (specRank d) as [y|]; [|reflexivity].
  clear. destruct (Nat.leb_spec (Nat.max p r) y), (Nat.leb_spec r y),
    (Nat.leb_spec p y); simpl; try reflexivity; lia.
Qed.

(** When the dispatched verdicts of a series of calls are non-decreasing. *)
Lemma rankSorted_dispatched `{V : VerdictValues} (HV : verdictsSpecOrder V)
  (calls : list IssueCall) :
  Forall namedCall calls ->
  (rankSorted (map dispatchedVerdict calls) <->
   Sorted (fun c next => matchedBy (Verdict (callConn c)) next = true /\
                         matchedBy (callVerdict c) next = true) calls).
Proof.
  intros Hn. unfold rankSorted. rewrite Sorted_map_iff.
  apply (Sorted_iff_on namedCall); [|exact Hn].
  intros c next Hc Hnext.
  rewrite (rankLeb_from_dispatched HV c _ Hc), andb_true_iff,
    !(rankLeb_dispatched HV _ next Hnext).
  reflexivity.
Qed.

Lemma dispatched_undecided `{V : VerdictValues} (HV : verdictsSpecOrder V)
  (c : IssueCall) :
  callVerdict c = VerdictUndecided ->
  specRank (Verdict (callConn c)) <> None ->
  dispatchedVerdict c = Verdict (callConn c).
Proof.
  intros Hp Hr. rewrite dispatchedVerdict_max, Hp.
  destruct (specRank (Verdict (callConn c))) as [r|] eqn:Er; [|congruence].
  apply specRank_inv in Er.
  destruct HV as (H0 & H1 & H2 & H3 & H4 & H5 & H6 & H7 & H8).
  clear Hr Hp. intuition lia.
Qed.

(** ** The verdict issuer *)

(** C6.  Every call of [issueVerdict] calls exactly one sink on the packet.
    Its kind is the kind of the effective verdict, the maximum of the
    proposed verdict and the record's, for accept, block, drop and the two
    reroute verdicts; and it is a permanent sink exactly when the record's
    permanent flag is set at that point and the effective verdict is
    accept, block or drop: every other effective verdict gets a one-shot
    sink, also on a permanent record. *)
Theorem issueVerdict_sink_matches `{V : VerdictValues}
  (HV : verdictsDistinct V) (env : Env) (conn : Connection) (pkt : Packet)
  (verdict : Z) (allowPermanent : bool) (w : World) :
  let eff := Z.max verdict (Verdict conn) in
  exists s conn' w',
    issueVerdict env conn pkt verdict allowPermanent w = Some (conn', w') /\
    verdicts w' = verdicts w ++ [(pkt, s)] /\
    VerdictPermanent conn' =
      VerdictPermanent conn || (allowPermanent && permanentVerdicts env) /\
    (eff = VerdictAccept -> sinkKind s = KindAccept) /\
    (eff = VerdictBlock -> sinkKind s = KindBlock) /\
    (eff = VerdictDrop -> sinkKind s = KindDrop) /\
    (eff = VerdictRerouteToNameserver -> s = SinkRerouteToNameserver) /\
    (eff = VerdictRerouteToTunnel -> s = SinkRerouteToTunnel) /\
    (sinkPermanent s = true <->
     VerdictPermanent conn' = true /\
     (eff = VerdictAccept \/ eff = VerdictBlock \/ eff = VerdictDrop)).
Proof.
  intros eff.
  pose proof (verdictsDistinct_facts V HV) as F.
  rewrite issueVerdict_unfold. fold eff.
  set (conn' := enablePermanent env conn allowPermanent).
  destruct (applyVerdict_cases HV conn' pkt eff w)
    as (s & st & Erun & HA & HB & HD & HN & HT & HF & HO).
  exists s, conn', (withVerdicts (verdicts w ++ [(pkt, s)]) (withStats st w)).
  split; [unfold bind, ret; rewrite Erun; reflexivity|].
  split; [reflexivity|].
  split; [apply enablePermanent_VerdictPermanent|].
  repeat split.
  - intros E. destruct (HA E) as [-> _]. destruct (VerdictPermanent conn'); reflexivity.
  - intros E. destruct (HB E) as [-> _]. destruct (VerdictPermanent conn'); reflexivity.
  - intros E. destruct (HD E) as [-> _]. destruct (VerdictPermanent conn'); reflexivity.
  - intros E. apply HN, E.
  - intros E. apply HT, E.
  - destruct (Z.eq_dec eff VerdictAccept) as [E|NA];
      [destruct (HA E) as [Hs _]; rewrite Hs in H;
       destruct (VerdictPermanent conn'); [reflexivity|discriminate]|].
    destruct (Z.eq_dec eff VerdictBlock) as [E|NB];
      [destruct (HB E) as [Hs _]; rewrite Hs in H;
       destruct (VerdictPermanent conn'); [reflexivity|discriminate]|].
    destruct (Z.eq_dec eff VerdictDrop) as [E|ND];
      [destruct (HD E) as [Hs _]; rewrite Hs in H;
       destruct (VerdictPermanent conn'); [reflexivity|discriminate]|].
    destruct (Z.eq_dec eff VerdictRerouteToNameserver) as [E|NN];
      [destruct (HN E) as [Hs _]; rewrite Hs in H; discriminate|].
    destruct (Z.eq_dec eff VerdictRerouteToTunnel) as [E|NT];
      [destruct (HT E) as [Hs _]; rewrite Hs in H; discriminate|].
    destruct (Z.eq_dec eff VerdictFailed) as [E|NF];
      [destruct (HF E) as [Hs _]; rewrite Hs in H; discriminate|].
    destruct (HO NA NB ND NN NT NF) as [Hs _]; rewrite Hs in H; discriminate.
  - destruct (Z.eq_dec eff VerdictAccept) as [E|NA]; [tauto|].
    destruct (Z.eq_dec eff VerdictBlock) as [E|NB]; [tauto|].
    destruct (Z.eq_dec eff VerdictDrop) as [E|ND]; [tauto|].
    destruct (Z.eq_dec eff VerdictRerouteToNameserver) as [E|NN];
      [destruct (HN E) as [Hs _]; rewrite Hs in H; discriminate|].
    destruct (Z.eq_dec eff VerdictRerouteToTunnel) as [E|NT];
      [destruct (HT E) as [Hs _]; rewrite Hs in H; discriminate|].
    destruct (Z.eq_dec eff VerdictFailed) as [E|NF];
      [destruct (HF E) as [Hs _]; rewrite Hs in H; discriminate|].
    destruct (HO NA NB ND NN NT NF) as [Hs _]; rewrite Hs in H; discriminate.
  - intros [HP [E | [E | E]]].
    + destruct (HA E) as [-> _]. rewrite HP. reflexivity.
    + destruct (HB E) as [-> _]. rewrite HP. reflexivity.
    + destruct (HD E) as [-> _]. rewrite HP. reflexivity.
Qed.

Lemma issueVerdict_sink_matches_witness :
  verdictsDistinct specVerdicts /\
  let conn := withVerdictPermanent true (sampleConn (@VerdictRerouteToTunnel specVerdicts) false) in
  let eff := Z.max 0 (Verdict conn) in
  exists s conn' w',
    @issueVerdict specVerdicts quietEnv conn dnsPacket 0 true initialWorld
      = Some (conn', w') /\
    verdicts w' = verdicts initialWorld ++ [(dnsPacket, s)] /\
    VerdictPermanent conn' =
      VerdictPermanent conn || (true && permanentVerdicts quietEnv) /\
    (eff = @VerdictAccept specVerdicts -> sinkKind s = KindAccept) /\
    (eff = @VerdictBlock specVerdicts -> sinkKind s = KindBlock) /\
    (eff = @VerdictDrop specVerdicts -> sinkKind s = KindDrop) /\
    (eff = @VerdictRerouteToNameserver specVerdicts ->
     s = SinkRerouteToNameserver) /\
    (eff = @VerdictRerouteToTunnel specVerdicts -> s = SinkRerouteToTunnel) /\
    (sinkPermanent s = true <->
     VerdictPermanent conn' = true /\
     (eff = @VerdictAccept specVerdicts \/ eff = @VerdictBlock specVerdicts \/
      eff = @VerdictDrop specVerdicts)).
Proof.
  split.
  - apply specVerdicts_distinct.
  - apply (@issueVerdict_sink_matches specVerdicts specVerdicts_distinct).
Defined.

(** C9.  When the proposed verdict and the record's verdict are both
    undecided, [issueVerdict] calls the one-shot drop sink of the packet
    and steps the dropped counter, and no other counter. *)
Theorem issueVerdict_undecided_drops `{V : VerdictValues}
  (HV : verdictsDistinct V) (env : Env) (conn : Connection) (pkt : Packet)
  (verdict : Z) (allowPermanent : bool) (w : World) :
  verdict = VerdictUndecided ->
  Verdict conn = VerdictUndecided ->
  exists conn' w',
    issueVerdict env conn pkt verdict allowPermanent w = Some (conn', w') /\
    verdicts w' = verdicts w ++ [(pkt, SinkDrop)] /\
    packetsDropped (stats w') =
      (packetsDropped (stats w) + 1) mod uint64Modulus /\
    packetsAccepted (stats w') = packetsAccepted (stats w) /\
    packetsBlocked (stats w') = packetsBlocked (stats w) /\
    packetsFailed (stats w') = packetsFailed (stats w).
Proof.
  intros Ev Ec.
  destruct (verdictsDistinct_facts V HV)
    as (F0 & FA & FB & FD & FN & FT & FF & _).
  rewrite issueVerdict_unfold.
  set (conn' := enablePermanent env conn allowPermanent).
  destruct (applyVerdict_cases HV conn' pkt (Z.max verdict (Verdict conn)) w)
    as (s & st & Erun & _ & _ & _ & _ & _ & _ & HO).
  rewrite Ev, Ec, Z.max_id in Erun, HO.
  destruct HO as [-> ->]; try lia.
  exists conn'. eexists. split.
  - unfold bind, ret. rewrite Ev, Ec, Z.max_id, Erun. reflexivity.
  - simpl. repeat split; reflexivity.
Qed.

Lemma issueVerdict_undecided_drops_witness :
  verdictsDistinct specVerdicts /\
  0 = @VerdictUndecided specVerdicts /\
  Verdict (sampleConn 0 false) = @VerdictUndecided specVerdicts /\
  exists conn' w',
    @issueVerdict specVerdicts quietEnv (sampleConn 0 false) dnsPacket 0 true
      initialWorld = Some (conn', w') /\
    verdicts w' = verdicts initialWorld ++ [(dnsPacket, SinkDrop)] /\
    packetsDropped (stats w') =
      (packetsDropped (stats initialWorld) + 1) mod uint64Modulus /\
    packetsAccepted (stats w') = packetsAccepted (stats initialWorld) /\
    packetsBlocked (stats w') = packetsBlocked (stats initialWorld) /\
    packetsFailed (stats w') = packetsFailed (stats initialWorld).
Proof.
  split; [apply specVerdicts_distinct|].
  split; [reflexivity|]. split; [reflexivity|].
  apply (@issueVerdict_undecided_drops specVerdicts specVerdicts_distinct);
    reflexivity.
Defined.

(** ** The statistics counters *)

Lemma isReroute_true `{V : VerdictValues} (v : Z) :
  isReroute v = true ->
  v = VerdictRerouteToNameserver \/ v = VerdictRerouteToTunnel.
Proof.
  unfold isReroute. intros H. apply orb_true_iff in H.
  destruct H as [H | H]; apply Z.eqb_eq in H; tauto.
Qed.

Lemma isReroute_false `{V : VerdictValues} (v : Z) :
  isReroute v = false ->
  v <> VerdictRerouteToNameserver /\ v <> VerdictRerouteToTunnel.
Proof.
  unfold isReroute. intros H. apply orb_false_iff in H.
  destruct H as [H1 H2]. apply Z.eqb_neq in H1. apply Z.eqb_neq in H2. tauto.
Qed.

(** One call: one more verdict at the driver; the counters stay as they
    are for a reroute verdict and exactly one of them steps otherwise. *)
Lemma issueCall_step `{V : VerdictValues} (HV : verdictsDistinct V)
  (c : IssueCall) (w : World) :
  exists conn' w' s,
    issueCall c w = Some (conn', w') /\
    verdicts w' = verdicts w ++ [(callPkt c, s)] /\
    (isReroute (dispatchedVerdict c) = true -> stats w' = stats w) /\
    (isReroute (dispatchedVerdict c) = false ->
     exists k, stats w' = bumpStats k (stats w)).
Proof.
  unfold issueCall, issueVerdict. fold (dispatchedVerdict c).
  set (conn' := enablePermanent (callEnv c) (callConn c) (callAllowPermanent c)).
  set (eff := dispatchedVerdict c).
  destruct (applyVerdict_cases HV conn' (callPkt c) eff w)
    as (s & st & Erun & HA & HB & HD & HN & HT & HF & HO).
  exists conn', (withVerdicts (verdicts w ++ [(callPkt c, s)]) (withStats st w)), s.
  split; [unfold bind, ret; rewrite Erun; reflexivity|].
  split; [reflexivity|]. split.
  - intros R. apply isReroute_true in R. simpl.
    destruct R as [E | E]; [apply HN in E | apply HT in E]; tauto.
  - intros R. apply isReroute_false in R. destruct R as [NN NT]. simpl.
    destruct (Z.eq_dec eff VerdictAccept) as [E|NA];
      [exists CounterAccepted; apply HA in E; tauto|].
    destruct (Z.eq_dec eff VerdictBlock) as [E|NB];
      [exists CounterBlocked; apply HB in E; tauto|].
    destruct (Z.eq_dec eff VerdictDrop) as [E|ND];
      [exists CounterDropped; apply HD in E; tauto|].
    destruct (Z.eq_dec eff VerdictFailed) as [E|NF];
      [exists CounterFailed; apply HF in E; tauto|].
    exists CounterDropped. apply HO; assumption.
Qed.

Lemma bumpStats_sum (k : Counter) (s : Stats) :
  statsInRange s -> statsSum s + 1 < uint64Modulus ->
  statsInRange (bumpStats k s) /\ statsSum (bumpStats k s) = statsSum s + 1.
Proof.
  unfold statsInRange, statsSum. intros (HA & HB & HD & HF) Hlt.
  destruct k; simpl; rewrite Z.mod_small by lia; lia.
Qed.

Lemma issueVerdicts_sum `{V : VerdictValues} (HV : verdictsDistinct V)
  (calls : list IssueCall) :
  forall w,
    statsInRange (stats w) ->
    statsSum (stats w) + Z.of_nat (length calls) < uint64Modulus ->
    exists w',
      issueVerdicts calls w = Some (tt, w') /\
      length (verdicts w') = (length (verdicts w) + length calls)%nat /\
      statsSum (stats w') =
        statsSum (stats w) + Z.of_nat (length (List.filter countsInStats calls)).
Proof.
  induction calls as [|c rest IH]; intros w Hr Hlt.
  - exists w. simpl. split; [reflexivity|]. split; lia.
  - destruct (issueCall_step HV c w) as (conn' & w1 & s & E1 & Ev & Hre & Hnr).
    cbn [length] in Hlt.
    assert (Hstep : statsInRange (stats w1) /\
                    statsSum (stats w1) =
                    statsSum (stats w) + (if countsInStats c then 1 else 0)).
    { unfold countsInStats.
      destruct (isReroute (dispatchedVerdict c)) eqn:R; simpl.
      - rewrite (Hre eq_refl). split; [assumption|lia].
      - destruct (Hnr eq_refl) as [k ->]. apply bumpStats_sum; [assumption|lia]. }
    destruct Hstep as [Hr1 Hs1].
    destruct (IH w1 Hr1) as (w' & E2 & Hl & Hs).
    { rewrite Hs1. destruct (countsInStats c); lia. }
    exists w'. split.
    + cbn [issueVerdicts]. unfold bind at 1. rewrite E1. exact E2.
    + split.
      * rewrite Hl, Ev, length_app. simpl. lia.
      * rewrite Hs, Hs1. cbn [List.filter].
        destruct (countsInStats c); cbn [length]; lia.
Qed.

(** C2, as the code has it.  A call of [issueVerdict] hands one verdict to
    the driver; it steps exactly one of the four counters when the
    effective verdict is not a reroute verdict and none when it is.  So
    after a reset of the statistics, and for fewer calls than the counters
    can hold, accepted + blocked + dropped + failed is the number of calls
    whose effective verdict was not one of the two reroute verdicts. *)
Theorem issueVerdict_counter_conservation `{V : VerdictValues}
  (HV : verdictsDistinct V) (calls : list IssueCall) (w : World) :
  Z.of_nat (length calls) < uint64Modulus ->
  (forall c w0, In c calls ->
     exists conn' w1 s,
       issueCall c w0 = Some (conn', w1) /\
       verdicts w1 = verdicts w0 ++ [(callPkt c, s)] /\
       (isReroute (dispatchedVerdict c) = true -> stats w1 = stats w0) /\
       (isReroute (dispatchedVerdict c) = false ->
        exists k, stats w1 = bumpStats k (stats w0))) /\
  exists w',
    issueVerdicts calls (resetStats w) = Some (tt, w') /\
    length (verdicts w') = (length (verdicts w) + length calls)%nat /\
    statsSum (stats w') =
      Z.of_nat (length (List.filter countsInStats calls)).
Proof.
  intros Hlen. split.
  - intros c w0 _. apply (issueCall_step HV).
  - destruct (issueVerdicts_sum HV calls (resetStats w)) as (w' & E & Hl & Hs).
    + unfold statsInRange. simpl. lia.
    + simpl. unfold statsSum. simpl. lia.
    + exists w'. split; [exact E|]. split; [exact Hl|].
      rewrite Hs. unfold statsSum. simpl. lia.
Qed.

Lemma issueVerdict_counter_conservation_witness :
  let calls :=
    [ mkCall quietEnv (sampleConn (@VerdictAccept specVerdicts) false)
        dnsPacket 0 true;
      mkCall quietEnv (sampleConn (@VerdictRerouteToTunnel specVerdicts) false)
        dnsPacket 0 true ] in
  verdictsDistinct specVerdicts /\
  Z.of_nat (length calls) < uint64Modulus /\
  ((forall c w0, In c calls ->
      exists conn' w1 s,
        @issueCall specVerdicts c w0 = Some (conn', w1) /\
        verdicts w1 = verdicts w0 ++ [(callPkt c, s)] /\
        (@isReroute specVerdicts (dispatchedVerdict c) = true ->
         stats w1 = stats w0) /\
        (@isReroute specVerdicts (dispatchedVerdict c) = false ->
         exists k, stats w1 = bumpStats k (stats w0))) /\
   exists w',
     @issueVerdicts specVerdicts calls (resetStats initialWorld)
       = Some (tt, w') /\
     length (verdicts w') =
       (length (verdicts initialWorld) + length calls)%nat /\
     statsSum (stats w') =
       Z.of_nat (length (List.filter (@countsInStats specVerdicts) calls))).
Proof.
  intros calls.
  split; [apply specVerdicts_distinct|].
  split; [reflexivity|].
  apply (@issueVerdict_counter_conservation specVerdicts
           specVerdicts_distinct calls initialWorld).
  reflexivity.
Defined.

(** C2 as stated fails on a reroute verdict: the driver receives the
    verdict and no counter moves, so the sum of the counters falls behind
    the number of sink calls. *)
Lemma issueVerdict_counter_conservation_counterexample :
  exists conn' w',
    @issueVerdict specVerdicts quietEnv
      (sampleConn (@VerdictRerouteToNameserver specVerdicts) false)
      dnsPacket 0 true (resetStats initialWorld) = Some (conn', w') /\
    verdicts w' = [(dnsPacket, SinkRerouteToNameserver)] /\
    stats w' = mkStats 0 0 0 0 /\
    statsSum (stats w') <> Z.of_nat (length (verdicts w')).
Proof.
  eexists. eexists. split; [reflexivity|].
  split; [reflexivity|]. split; [reflexivity|].
  vm_compute. discriminate.
Qed.

(** ** Monotonic verdicts *)

(** C1, as the code has it.  [issueVerdict] dispatches on the maximum of
    the proposed verdict and the record's verdict; on the named verdicts
    that is the maximum in the spec's order undecided < accept < {reroute
    kinds} < block < drop < failed.  Hence the dispatched verdict is never
    below the record's: accept proposed on a rerouting record dispatches
    the reroute, a reroute proposed on a blocking or dropping record
    dispatches block or drop.  [issueVerdict] leaves the record's verdict as
    it is.  So over a sequence of calls the dispatched verdicts are
    non-decreasing in the spec's order exactly when each call is matched by
    the next one: its record's verdict and its proposal are each ranked no
    higher than the proposal or the record's verdict of the next call.  On
    a record whose verdict never decreases that is a condition on the
    proposals alone: no proposal outranks both the proposal and the record
    of the next call.  With the proposal [0] of every call site the
    dispatched verdict is the record's verdict. *)
Theorem issueVerdict_clamps `{V : VerdictValues}
  (HV : verdictsSpecOrder V) (calls : list IssueCall) :
  (forall c w,
     issueCall c w =
     (applyVerdict
        (enablePermanent (callEnv c) (callConn c) (callAllowPermanent c))
        (callPkt c) (Z.max (callVerdict c) (Verdict (callConn c))) ;;;
      ret (enablePermanent (callEnv c) (callConn c) (callAllowPermanent c)))
       w) /\
  (forall c w conn' w',
     issueCall c w = Some (conn', w') -> Verdict conn' = Verdict (callConn c)) /\
  (forall c, dispatchedVerdict c
             = Z.max (callVerdict c) (Verdict (callConn c))) /\
  (forall c r1 r2,
     specRank (callVerdict c) = Some r1 ->
     specRank (Verdict (callConn c)) = Some r2 ->
     specRank (dispatchedVerdict c) = Some (Nat.max r1 r2)) /\
  (forall c,
     isReroute (Verdict (callConn c)) = true ->
     callVerdict c = VerdictAccept ->
     dispatchedVerdict c = Verdict (callConn c)) /\
  (forall c,
     Verdict (callConn c) = VerdictBlock \/
     Verdict (callConn c) = VerdictDrop ->
     isReroute (callVerdict c) = true ->
     dispatchedVerdict c = Verdict (callConn c)) /\
  (Forall namedCall calls ->
   (rankSorted (map dispatchedVerdict calls) <->
    Sorted (fun c next => matchedBy (Verdict (callConn c)) next = true /\
                          matchedBy (callVerdict c) next = true) calls)) /\
  (Forall namedCall calls ->
   rankSorted (map (fun c => Verdict (callConn c)) calls) ->
   (rankSorted (map dispatchedVerdict calls) <->
    Sorted (fun c next => matchedBy (callVerdict c) next = true) calls)) /\
  (Forall (fun c => callVerdict c = VerdictUndecided /\
                    specRank (Verdict (callConn c)) <> None) calls ->
   map dispatchedVerdict calls = map (fun c => Verdict (callConn c)) calls).
Proof.
  pose proof HV as (H0 & H1 & H2 & H3 & H4 & H5 & H6 & H7 & H8).
  split; [intros c w; apply issueVerdict_unfold|].
  split.
  { intros c w conn' w'. unfold issueCall. rewrite issueVerdict_unfold.
    unfold bind, ret.
    destruct (applyVerdict _ _ _ w) as [[[] w1]|]; [|discriminate].
    intros E. inversion E. apply enablePermanent_Verdict. }
  split; [apply dispatchedVerdict_max|].
  split.
  { intros c r1 r2 E1 E2. rewrite dispatchedVerdict_max.
    apply specRank_max; assumption. }
  split.
  { intros c R E. rewrite dispatchedVerdict_max, E.
    apply isReroute_true in R. destruct R as [-> | ->]; lia. }
  split.
  { intros c B R. rewrite dispatchedVerdict_max.
    apply isReroute_true in R.
    destruct B as [-> | ->], R as [-> | ->]; lia. }
  split; [apply (rankSorted_dispatched HV)|].
  split.
  { intros Hn Hrec. rewrite (rankSorted_dispatched HV calls Hn), Sorted_conj.
    split; [intros [_ Hp]; exact Hp | intros Hp; split; [|exact Hp]].
    unfold rankSorted in Hrec. rewrite Sorted_map_iff in Hrec.
    refine (Sorted_weaken _ _ _ _ Hrec). intros c next Hle. simpl in *.
    unfold matchedBy. rewrite Hle. apply orb_true_r. }
  clear - HV. intros Hz.
  induction Hz as [|c l [Hp Hr] _ IH]; [reflexivity|].
  simpl. rewrite IH, (dispatched_undecided HV c Hp Hr). reflexivity.
Qed.

(** Three calls on a record that goes from accept to block: the second
    proposes block while the record is still at accept, and the verdicts
    dispatched are accept, block, block. *)
Lemma issueVerdict_clamps_witness :
  verdictsSpecOrder specVerdicts /\
  Forall (@namedCall specVerdicts)
    [ mkCall quietEnv (sampleConn 1 true) dnsPacket 0 false;
      mkCall quietEnv (sampleConn 1 true) dnsPacket 4 false;
      mkCall quietEnv (sampleConn 4 false) dnsPacket 0 true ] /\
  @rankSorted specVerdicts
    (map (fun c => Verdict (callConn c))
       [ mkCall quietEnv (sampleConn 1 true) dnsPacket 0 false;
         mkCall quietEnv (sampleConn 1 true) dnsPacket 4 false;
         mkCall quietEnv (sampleConn 4 false) dnsPacket 0 true ]) /\
  map dispatchedVerdict
    [ mkCall quietEnv (sampleConn 1 true) dnsPacket 0 false;
      mkCall quietEnv (sampleConn 1 true) dnsPacket 4 false;
      mkCall quietEnv (sampleConn 4 false) dnsPacket 0 true ]
  = [ @VerdictAccept specVerdicts; @VerdictBlock specVerdicts;
      @VerdictBlock specVerdicts ] /\
  @rankSorted specVerdicts
    (map dispatchedVerdict
       [ mkCall quietEnv (sampleConn 1 true) dnsPacket 0 false;
         mkCall quietEnv (sampleConn 1 true) dnsPacket 4 false;
         mkCall quietEnv (sampleConn 4 false) dnsPacket 0 true ]).
Proof.
  assert (Hn : Forall (@namedCall specVerdicts)
            [ mkCall quietEnv (sampleConn 1 true) dnsPacket 0 false;
              mkCall quietEnv (sampleConn 1 true) dnsPacket 4 false;
              mkCall quietEnv (sampleConn 4 false) dnsPacket 0 true ])
    by (repeat constructor; vm_compute; discriminate).
  assert (Hr : @rankSorted specVerdicts
            (map (fun c => Verdict (callConn c))
               [ mkCall quietEnv (sampleConn 1 true) dnsPacket 0 false;
                 mkCall quietEnv (sampleConn 1 true) dnsPacket 4 false;
                 mkCall quietEnv (sampleConn 4 false) dnsPacket 0 true ]))
    by (repeat constructor).
  split; [apply specVerdicts_order|].
  split; [exact Hn|]. split; [exact Hr|]. split; [reflexivity|].
  destruct (@issueVerdict_clamps specVerdicts specVerdicts_order
              [ mkCall quietEnv (sampleConn 1 true) dnsPacket 0 false;
                mkCall quietEnv (sampleConn 1 true) dnsPacket 4 false;
                mkCall quietEnv (sampleConn 4 false) dnsPacket 0 true ])
    as (_ & _ & _ & _ & _ & _ & _ & Hseq & _).
  apply (Hseq Hn Hr). repeat constructor.
Defined.

(** C1 as stated fails for the sequence part: on a record whose verdict is
    accept and stays accept, a call proposing block dispatches block, and
    the next call on the same record, proposing [0], dispatches accept
    again.  The proposal of the first call outranks both the proposal and
    the record of the second. *)
Lemma issueVerdict_clamps_counterexample :
  verdictsSpecOrder specVerdicts /\
  exists w',
    (conn1 <- @issueVerdict specVerdicts quietEnv (sampleConn 1 true)
                dnsPacket (@VerdictBlock specVerdicts) false ;;
     @issueVerdict specVerdicts quietEnv conn1 dnsPacket 0 false)
      initialWorld = Some (sampleConn 1 true, w') /\
    verdicts w' = [(dnsPacket, SinkBlock); (dnsPacket, SinkAccept)] /\
    map dispatchedVerdict
      [ mkCall quietEnv (sampleConn 1 true) dnsPacket
          (@VerdictBlock specVerdicts) false;
        mkCall quietEnv (sampleConn 1 true) dnsPacket 0 false ]
    = [ @VerdictBlock specVerdicts; @VerdictAccept specVerdicts ] /\
    @rankSorted specVerdicts
      (map (fun c => Verdict (callConn c))
         [ mkCall quietEnv (sampleConn 1 true) dnsPacket
             (@VerdictBlock specVerdicts) false;
           mkCall quietEnv (sampleConn 1 true) dnsPacket 0 false ]) /\
    @matchedBy specVerdicts (@VerdictBlock specVerdicts)
      (mkCall quietEnv (sampleConn 1 true) dnsPacket 0 false) = false /\
    ~ @rankSorted specVerdicts
        (map dispatchedVerdict
           [ mkCall quietEnv (sampleConn 1 true) dnsPacket
               (@VerdictBlock specVerdicts) false;
             mkCall quietEnv (sampleConn 1 true) dnsPacket 0 false ]).
Proof.
  split; [apply specVerdicts_order|].
  eexists. split; [reflexivity|].
  split; [reflexivity|]. split; [reflexivity|].
  split; [repeat constructor|]. split; [reflexivity|].
  intros HS. inversion HS as [|a l _ Hd]; subst.
  inversion Hd as [|b l' Hle]; subst. vm_compute in Hle. discriminate.
Qed.

(** ** The nameserver matcher *)

Lemma SetNameserverIPMatcher_again (fn : option (IP -> bool)) (w : World) :
  nameserverIPMatcherSet w = true ->
  SetNameserverIPMatcher fn w
  = Some (Some "nameserver IP matcher already set", w).
Proof. intros H. unfold SetNameserverIPMatcher. rewrite H. reflexivity. Qed.

Lemma setMatchers_again (fns : list (option (IP -> bool))) (w : World) :
  nameserverIPMatcherSet w = true ->
  setMatchers fns w
  = Some (map (fun _ => Some "nameserver IP matcher already set") fns, w).
Proof.
  intros H. induction fns as [|fn rest IH]; [reflexivity|].
  cbn [setMatchers map]. unfold bind at 1.
  rewrite (SetNameserverIPMatcher_again fn w H).
  unfold bind at 1. rewrite IH. reflexivity.
Qed.

(** C8.  The first call of [SetNameserverIPMatcher], the one that finds the
    set-flag clear, returns no error and installs the matcher; every later
    call returns an error and leaves the whole state, the installed matcher
    included, as it was. *)
Theorem SetNameserverIPMatcher_once (w : World) (fn : option (IP -> bool))
  (later : list (option (IP -> bool))) :
  nameserverIPMatcherSet w = false ->
  exists w1,
    SetNameserverIPMatcher fn w = Some (None, w1) /\
    nameserverIPMatcher w1 = fn /\
    nameserverIPMatcherSet w1 = true /\
    nameserverIPMatcherReady w1 = true /\
    exists errs,
      setMatchers later w1 = Some (errs, w1) /\
      length errs = length later /\
      Forall (fun err => exists msg, err = Some msg) errs /\
      forall fn', exists msg,
        SetNameserverIPMatcher fn' w1 = Some (Some msg, w1).
Proof.
  intros H.
  exists (mkWorld fn true true (stats w) (verdicts w) (handlerCalls w) (conns w)).
  split; [unfold SetNameserverIPMatcher; rewrite H; reflexivity|].
  repeat (split; [reflexivity|]).
  eexists. split; [apply setMatchers_again; reflexivity|].
  split; [apply length_map|]. split.
  - induction later as [|fn' rest IH]; simpl; constructor;
      [eexists; reflexivity | exact IH].
  - intros fn'. eexists. apply SetNameserverIPMatcher_again. reflexivity.
Qed.

Lemma SetNameserverIPMatcher_once_witness :
  nameserverIPMatcherSet initialWorld = false /\
  exists w1,
    SetNameserverIPMatcher (Some sampleMatcher) initialWorld
      = Some (None, w1) /\
    nameserverIPMatcher w1 = Some sampleMatcher /\
    nameserverIPMatcherSet w1 = true /\
    nameserverIPMatcherReady w1 = true /\
    exists errs,
      setMatchers [Some (fun _ => true); None] w1 = Some (errs, w1) /\
      length errs = length [Some (fun _ : IP => true); None] /\
      Forall (fun err => exists msg, err = Some msg) errs /\
      forall fn', exists msg,
        SetNameserverIPMatcher fn' w1 = Some (Some msg, w1).
Proof.
  split; [reflexivity|].
  apply (SetNameserverIPMatcher_once initialWorld (Some sampleMatcher)
           [Some (fun _ => true); None]).
  reflexivity.
Defined.

(** ** The fast track *)

Lemma isEchoLayer_spec (l : option IPControlLayer) :
  isEchoLayer l = true <-> echoRequestOrReply l.
Proof.
  unfold isEchoLayer, echoRequestOrReply. split.
  - destruct l as [[t | t]|]; intros H; [| |discriminate];
      apply orb_true_iff in H; rewrite !Z.eqb_eq in H; exists t; tauto.
  - intros (t & [[-> H] | [-> H]]); apply orb_true_iff;
      rewrite !Z.eqb_eq; exact H.
Qed.

(** C5.  An ICMP or ICMPv6 packet that the integration has not
    fast-tracked, that is not bound for a sentinel address and is no
    self-check: when loading its data fails, it is accepted permanently and
    handled; when its control layer is an echo request or reply, it is not
    handled and no sink is called; otherwise it is handled, with a one-shot
    accept when the ICMP listener took it and a permanent accept when not. *)
Theorem fastTrackedPermit_icmp (env : Env) (pkt : Packet) (w : World) :
  FastTrackedByIntegration pkt = false ->
  IPEqual (Dst (Info pkt)) blockedIPv4 = false ->
  IPEqual (Dst (Info pkt)) blockedIPv6 = false ->
  (SrcPort (Info pkt) =? DstPort (Info pkt)) &&
    IPEqual (Src (Info pkt)) (Dst (Info pkt)) = false ->
  Protocol (Info pkt) = ICMP \/ Protocol (Info pkt) = ICMPv6 ->
  (forall e, LoadPacketData pkt = Some e ->
     fastTrackedPermit env pkt w =
     Some (true, withVerdicts (verdicts w ++ [(pkt, SinkPermanentAccept)]) w))
  /\
  (LoadPacketData pkt = None ->
   echoRequestOrReply (LayerClassIPControl pkt) ->
     fastTrackedPermit env pkt w = Some (false, w))
  /\
  (LoadPacketData pkt = None ->
   ~ echoRequestOrReply (LayerClassIPControl pkt) ->
     fastTrackedPermit env pkt w =
     Some (true,
           withVerdicts
             (verdicts w ++
                [(pkt, if SubmitPacketToICMPListener env pkt
                       then SinkAccept else SinkPermanentAccept)]) w)).
Proof.
  intros Hft Hb4 Hb6 Hself Hproto.
  unfold fastTrackedPermit.
  rewrite Hft, Hb4, Hb6, Hself. cbn [orb].
  repeat split.
  - intros e He. destruct Hproto as [-> | ->]; rewrite He; reflexivity.
  - intros Hl He. apply isEchoLayer_spec in He.
    destruct Hproto as [-> | ->]; rewrite Hl, He; reflexivity.
  - intros Hl He.
    assert (Hn : isEchoLayer (LayerClassIPControl pkt) = false).
    { destruct (isEchoLayer (LayerClassIPControl pkt)) eqn:E; [|reflexivity].
      exfalso. apply He, isEchoLayer_spec, E. }
    destruct Hproto as [-> | ->]; rewrite Hl, Hn;
      destruct (SubmitPacketToICMPListener env pkt); reflexivity.
Qed.

Lemma fastTrackedPermit_icmp_witness :
  FastTrackedByIntegration icmpPacket = false /\
  IPEqual (Dst (Info icmpPacket)) blockedIPv4 = false /\
  IPEqual (Dst (Info icmpPacket)) blockedIPv6 = false /\
  (SrcPort (Info icmpPacket) =? DstPort (Info icmpPacket)) &&
    IPEqual (Src (Info icmpPacket)) (Dst (Info icmpPacket)) = false /\
  (Protocol (Info icmpPacket) = ICMP \/ Protocol (Info icmpPacket) = ICMPv6) /\
  ((forall e, LoadPacketData icmpPacket = Some e ->
      fastTrackedPermit quietEnv icmpPacket initialWorld =
      Some (true,
            withVerdicts
              (verdicts initialWorld ++ [(icmpPacket, SinkPermanentAccept)])
              initialWorld))
   /\
   (LoadPacketData icmpPacket = None ->
    echoRequestOrReply (LayerClassIPControl icmpPacket) ->
      fastTrackedPermit quietEnv icmpPacket initialWorld
      = Some (false, initialWorld))
   /\
   (LoadPacketData icmpPacket = None ->
    ~ echoRequestOrReply (LayerClassIPControl icmpPacket) ->
      fastTrackedPermit quietEnv icmpPacket initialWorld =
      Some (true,
            withVerdicts
              (verdicts initialWorld ++
                 [(icmpPacket,
                   if SubmitPacketToICMPListener quietEnv icmpPacket
                   then SinkAccept else SinkPermanentAccept)])
              initialWorld))).
Proof.
  split; [reflexivity|]. split; [reflexivity|]. split; [reflexivity|].
  split; [reflexivity|]. split; [left; reflexivity|].
  apply (fastTrackedPermit_icmp quietEnv icmpPacket initialWorld);
    try reflexivity.
  left; reflexivity.
Defined.

(** ** The connection handlers *)

(** C4.  An outbound packet to port 53 on a connection whose local port is
    not pre-authenticated and whose process is not the Portmaster itself,
    with the nameserver matcher registered and not matching the
    destination: the initial handler sets the record's verdict to
    reroute-to-nameserver, marks it internal, clears its firewall handler,
    and the reroute-to-nameserver sink of the packet is called. *)
Theorem initialHandler_rogue_dns `{V : VerdictValues}
  (HV : verdictsDistinct V) (env : Env) (conn : Connection) (pkt : Packet)
  (w : World) (matcher : IP -> bool) :
  IsOutbound pkt = true ->
  DstPort (Info pkt) = 53 ->
  localPortIsPreAuthenticated env (EntityProtocol conn) (LocalPort conn)
    = false ->
  ProcessPid conn <> ownPID env ->
  nameserverIPMatcherReady w = true ->
  nameserverIPMatcher w = Some matcher ->
  matcher (Dst (Info pkt)) = false ->
  exists conn' w',
    initialHandler env conn pkt w = Some (conn', w') /\
    Verdict conn' = VerdictRerouteToNameserver /\
    Internal conn' = true /\
    firewallHandler conn' = None /\
    verdicts w' = verdicts w ++ [(pkt, SinkRerouteToNameserver)] /\
    stats w' = stats w.
Proof.
  intros Hout Hport Hpre Hpid Hready Hm Hno.
  destruct (verdictsDistinct_facts V HV)
    as (F0 & FA & FB & FD & FN & FT & FF & _ & _ & AN & _ & _ & _ & BN & _ & _
        & DN & _).
  unfold initialHandler.
  rewrite Hpre, andb_false_r, Hout, Hport. cbn [andb Z.eqb Pos.eqb].
  apply Z.eqb_neq in Hpid. rewrite Hpid. cbn [negb].
  unfold bind at 1. unfold bind at 1. unfold getWorld.
  rewrite Hready. unfold bind at 1. unfold callNameserverIPMatcher.
  rewrite Hm, Hno. cbn [negb ret].
  set (conn1 := StopFirewallHandler
                  (withInternal true
                     (withReasonMsg "redirecting rogue dns query"
                        (withVerdict VerdictRerouteToNameserver conn)))).
  rewrite issueVerdict_unfold.
  replace (Z.max 0 (Verdict conn1)) with VerdictRerouteToNameserver
    by (subst conn1; simpl; lia).
  destruct (applyVerdict_cases HV (enablePermanent env conn1 true) pkt
              VerdictRerouteToNameserver w)
    as (s & st & Erun & _ & _ & _ & HN & _).
  destruct (HN eq_refl) as [-> ->].
  eexists. eexists. split.
  - unfold bind, ret. rewrite Erun. reflexivity.
  - rewrite enablePermanent_Verdict.
    split; [reflexivity|].
    split; [unfold enablePermanent;
            destruct (true && negb (VerdictPermanent conn1));
            [destruct (permanentVerdicts env)|]; reflexivity|].
    split; [unfold enablePermanent;
            destruct (true && negb (VerdictPermanent conn1));
            [destruct (permanentVerdicts env)|]; reflexivity|].
    split; reflexivity.
Qed.

Lemma initialHandler_rogue_dns_witness :
  verdictsDistinct specVerdicts /\
  IsOutbound dnsPacket = true /\
  DstPort (Info dnsPacket) = 53 /\
  localPortIsPreAuthenticated quietEnv (EntityProtocol (sampleConn 0 false))
    (LocalPort (sampleConn 0 false)) = false /\
  ProcessPid (sampleConn 0 false) <> ownPID quietEnv /\
  nameserverIPMatcherReady matcherWorld = true /\
  nameserverIPMatcher matcherWorld = Some sampleMatcher /\
  sampleMatcher (Dst (Info dnsPacket)) = false /\
  exists conn' w',
    @initialHandler specVerdicts quietEnv (sampleConn 0 false) dnsPacket
      matcherWorld = Some (conn', w') /\
    Verdict conn' = @VerdictRerouteToNameserver specVerdicts /\
    Internal conn' = true /\
    firewallHandler conn' = None /\
    verdicts w' = verdicts matcherWorld ++ [(dnsPacket, SinkRerouteToNameserver)] /\
    stats w' = stats matcherWorld.
Proof.
  assert (Hpid : ProcessPid (sampleConn 0 false) <> ownPID quietEnv)
    by (simpl; lia).
  split; [apply specVerdicts_distinct|].
  do 3 (split; [reflexivity|]). split; [exact Hpid|].
  do 3 (split; [reflexivity|]).
  apply (@initialHandler_rogue_dns specVerdicts specVerdicts_distinct
           quietEnv (sampleConn 0 false) dnsPacket matcherWorld sampleMatcher);
    try reflexivity.
  exact Hpid.
Defined.

Example matcherWorld_registered :
  SetNameserverIPMatcher (Some sampleMatcher) initialWorld
  = Some (None, matcherWorld).
Proof. reflexivity. Qed.

Lemma SetVerdict_Verdict (v : Z) (reason : string) (c : Connection) :
  Verdict (SetVerdict v reason c) = Z.max v (Verdict c).
Proof.
  unfold SetVerdict. destruct (Z.leb_spec (Verdict c) v); simpl; lia.
Qed.

Lemma SetVerdict_flags (v : Z) (reason : string) (c : Connection) :
  Inspecting (SetVerdict v reason c) = Inspecting c /\
  VerdictPermanent (SetVerdict v reason c) = VerdictPermanent c.
Proof. unfold SetVerdict. destruct (Verdict c <=? v); split; reflexivity. Qed.

(** C3, as the code has it.  When the stream manager returns an error, the
    handler takes accept as the returned verdict, whatever verdict came
    with the error, and hands it to [SetVerdict], so the record's verdict
    becomes the maximum of accept and what it was: unchanged unless it was
    below accept.  The packet then gets the sink of the record's verdict
    through [issueVerdict], with the proposal [0] and permanence allowed
    only once inspection has ended: the accept, block or drop sink, in its
    permanent form exactly when the record is permanent afterwards, the
    reroute sinks, and the drop sink for failed or any other value.  On a
    record whose verdict is accept, that is not permanent and is still
    inspected, the one-shot accept sink is called and the verdict stays as
    it was. *)
Theorem inspectThenVerdict_error `{V : VerdictValues}
  (HV : verdictsDistinct V) (env : Env) (conn conn1 : Connection)
  (pkt : Packet) (w : World) (v : Z) (reason : option string) (e : error) :
  streamManagerHandlePacket env conn pkt = (conn1, (v, reason, Some e)) ->
  exists conn' w' s,
    inspectThenVerdict env conn pkt w = Some (conn', w') /\
    verdicts w' = verdicts w ++ [(pkt, s)] /\
    Verdict conn' = Z.max VerdictAccept (Verdict conn1) /\
    VerdictPermanent conn' =
      VerdictPermanent conn1 ||
      (negb (Inspecting conn1) && permanentVerdicts env) /\
    (Verdict conn' = VerdictAccept ->
     s = if VerdictPermanent conn' then SinkPermanentAccept
         else SinkAccept) /\
    (Verdict conn' = VerdictBlock ->
     s = if VerdictPermanent conn' then SinkPermanentBlock else SinkBlock) /\
    (Verdict conn' = VerdictDrop ->
     s = if VerdictPermanent conn' then SinkPermanentDrop else SinkDrop) /\
    (Verdict conn' = VerdictRerouteToNameserver ->
     s = SinkRerouteToNameserver) /\
    (Verdict conn' = VerdictRerouteToTunnel -> s = SinkRerouteToTunnel) /\
    (Verdict conn' = VerdictFailed -> s = SinkDrop) /\
    (Verdict conn' <> VerdictAccept -> Verdict conn' <> VerdictBlock ->
     Verdict conn' <> VerdictDrop ->
     Verdict conn' <> VerdictRerouteToNameserver ->
     Verdict conn' <> VerdictRerouteToTunnel ->
     Verdict conn' <> VerdictFailed -> s = SinkDrop) /\
    (Verdict conn1 <= VerdictAccept -> sinkKind s = KindAccept) /\
    (VerdictAccept <= Verdict conn1 -> Verdict conn' = Verdict conn1) /\
    (Verdict conn1 = VerdictAccept ->
     Inspecting conn1 = true -> VerdictPermanent conn1 = false ->
     s = SinkAccept /\ Verdict conn' = Verdict conn1 /\
     VerdictPermanent conn' = false /\
     firewallHandler conn' = firewallHandler conn1).
Proof.
  intros Hm.
  destruct (verdictsDistinct_facts V HV) as (F0 & FA & _).
  unfold inspectThenVerdict. rewrite Hm.
  assert (Hlt : (VerdictUndecided <? VerdictAccept) = true)
    by (apply Z.ltb_lt; lia).
  rewrite Hlt.
  set (r := match reason with Some r => r | None => "" end).
  set (conn2 := SetVerdict VerdictAccept r conn1).
  set (conn3 := if negb (Inspecting conn2)
                then SaveWhenFinished (StopFirewallHandler conn2)
                else conn2).
  assert (H3v : Verdict conn3 = Z.max VerdictAccept (Verdict conn1)).
  { subst conn3. rewrite <- (SetVerdict_Verdict VerdictAccept r conn1).
    fold conn2. destruct (negb (Inspecting conn2)); reflexivity. }
  assert (H3i : Inspecting conn3 = Inspecting conn1).
  { subst conn3. destruct (SetVerdict_flags VerdictAccept r conn1) as [Hi _].
    fold conn2 in Hi. destruct (negb (Inspecting conn2)); simpl; exact Hi. }
  assert (H3p : VerdictPermanent conn3 = VerdictPermanent conn1).
  { subst conn3. destruct (SetVerdict_flags VerdictAccept r conn1) as [_ Hp].
    fold conn2 in Hp. destruct (negb (Inspecting conn2)); simpl; exact Hp. }
  rewrite issueVerdict_unfold.
  set (allow := negb (Inspecting conn3)).
  set (conn4 := enablePermanent env conn3 allow).
  assert (Heff : Z.max 0 (Verdict conn3) = Verdict conn3) by lia.
  rewrite Heff.
  assert (H4v : Verdict conn4 = Verdict conn3)
    by apply enablePermanent_Verdict.
  assert (H4p : VerdictPermanent conn4 =
                VerdictPermanent conn1 ||
                (negb (Inspecting conn1) && permanentVerdicts env)).
  { unfold conn4. rewrite enablePermanent_VerdictPermanent, H3p.
    unfold allow. rewrite H3i. reflexivity. }
  destruct (applyVerdict_cases HV conn4 pkt (Verdict conn3) w)
    as (s & st & Erun & HA & HB & HD & HN & HT & HF & HU).
  clear F0 FA Hlt Heff.
  exists conn4, (withVerdicts (verdicts w ++ [(pkt, s)]) (withStats st w)), s.
  split; [unfold bind, ret; rewrite Erun; reflexivity|].
  split; [reflexivity|].
  split; [rewrite H4v; exact H3v|].
  split; [exact H4p|].
  rewrite H4v.
  split; [intros E; apply (HA E)|].
  split; [intros E; apply (HB E)|].
  split; [intros E; apply (HD E)|].
  split; [intros E; apply (HN E)|].
  split; [intros E; apply (HT E)|].
  split; [intros E; apply (HF E)|].
  split; [intros E1 E2 E3 E4 E5 E6; apply (HU E1 E2 E3 E4 E5 E6)|].
  clear HB HD HN HT HF HU.
  split.
  { intros Hle. assert (E : Verdict conn3 = VerdictAccept) by lia.
    destruct (HA E) as [-> _]. destruct (VerdictPermanent conn4); reflexivity. }
  split; [intros Hle; rewrite H3v; lia|].
  intros Ev Hi Hp.
  assert (E : Verdict conn3 = VerdictAccept) by lia.
  assert (Hal : allow = false) by (unfold allow; rewrite H3i, Hi; reflexivity).
  assert (E4 : conn4 = conn3)
    by (unfold conn4, enablePermanent; rewrite Hal; reflexivity).
  destruct (HA E) as [-> _]. rewrite E4, H3p, Hp.
  split; [reflexivity|]. split; [rewrite H3v; lia|].
  split; [reflexivity|].
  unfold conn3. replace (Inspecting conn2) with true
    by (symmetry; rewrite <- Hi; apply SetVerdict_flags).
  simpl. unfold conn2, SetVerdict. destruct (Verdict conn1 <=? VerdictAccept);
    reflexivity.
Qed.

(** The manager fails on a record that blocks and is still inspected: the
    packet gets the one-shot block sink and the record stays at block. *)
Lemma inspectThenVerdict_error_witness :
  verdictsDistinct specVerdicts /\
  streamManagerHandlePacket (sampleEnv false failingManager None)
    (sampleConn (@VerdictBlock specVerdicts) true) dnsPacket
  = (sampleConn (@VerdictBlock specVerdicts) true,
     (0, None, Some "tcp-stream: parse failure")) /\
  exists conn' w',
    @inspectThenVerdict specVerdicts (sampleEnv false failingManager None)
      (sampleConn (@VerdictBlock specVerdicts) true) dnsPacket initialWorld
    = Some (conn', w') /\
    verdicts w' = verdicts initialWorld ++ [(dnsPacket, SinkBlock)] /\
    Verdict conn' = @VerdictBlock specVerdicts /\
    VerdictPermanent conn' = false.
Proof.
  split; [apply specVerdicts_distinct|].
  split; [reflexivity|].
  destruct (@inspectThenVerdict_error specVerdicts specVerdicts_distinct
              (sampleEnv false failingManager None)
              (sampleConn (@VerdictBlock specVerdicts) true)
              (sampleConn (@VerdictBlock specVerdicts) true) dnsPacket
              initialWorld 0 None "tcp-stream: parse failure" eq_refl)
    as (conn' & w' & s & E & Hs & Hv & Hp & _ & HB & _).
  exists conn', w'. split; [exact E|].
  split; [rewrite Hs, (HB Hv), Hp; reflexivity|].
  split; [exact Hv | exact Hp].
Defined.

(** C3 as stated fails in three ways when the stream manager returns an
    error: on a record whose verdict is block the packet is blocked, not
    accepted; on a record whose verdict is undecided the verdict is changed
    to accept; and when the manager has ended the inspection before
    failing and permanent verdicts are on, the accept is permanent. *)
Lemma inspectThenVerdict_error_counterexample :
  (exists conn' w',
     @inspectThenVerdict specVerdicts (sampleEnv false failingManager None)
       (sampleConn (@VerdictBlock specVerdicts) true) dnsPacket initialWorld
     = Some (conn', w') /\
     verdicts w' = [(dnsPacket, SinkBlock)]) /\
  (exists conn' w',
     @inspectThenVerdict specVerdicts (sampleEnv false failingManager None)
       (sampleConn (@VerdictUndecided specVerdicts) true) dnsPacket
       initialWorld
     = Some (conn', w') /\
     Verdict conn' = @VerdictAccept specVerdicts /\
     Verdict conn' <> Verdict (sampleConn (@VerdictUndecided specVerdicts) true))
  /\
  (exists conn' w',
     @inspectThenVerdict specVerdicts (sampleEnv true lastFailingManager None)
       (sampleConn (@VerdictAccept specVerdicts) true) dnsPacket initialWorld
     = Some (conn', w') /\
     verdicts w' = [(dnsPacket, SinkPermanentAccept)] /\
     VerdictPermanent conn' = true).
Proof.
  split; [|split].
  - eexists. eexists. split; [cbv; reflexivity|reflexivity].
  - eexists. eexists. split; [cbv; reflexivity|]. split; [reflexivity|].
    simpl. discriminate.
  - eexists. eexists. split; [cbv; reflexivity|]. split; reflexivity.
Qed.

(** ** Packets without a connection *)

(** A packet the fast track does not handle leaves the world as it is. *)
Lemma fastTrackedPermit_unhandled (env : Env) (pkt : Packet) (w w1 : World) :
  fastTrackedPermit env pkt w = Some (false, w1) -> w1 = w.
Proof.
  unfold fastTrackedPermit, bind, ret, callSink, modifyWorld, getWorld,
    callNameserverIPMatcher.
  repeat match goal with
         | |- context [nameserverIPMatcher ?x] =>
             destruct (nameserverIPMatcher x) eqn:?; simpl
         | |- context [match ?x with _ => _ end] => destruct x eqn:?; simpl
         | |- context [if ?x then _ else _] => destruct x eqn:?; simpl
         end;
    intros E; inversion E; reflexivity.
Qed.

(** Getting the connection touches the connection table only. *)
Lemma getConnection_frame (env : Env) (pkt : Packet) (w w' : World) r :
  getConnection env pkt w = Some (r, w') ->
  verdicts w' = verdicts w /\ stats w' = stats w /\
  handlerCalls w' = handlerCalls w /\
  nameserverIPMatcherReady w' = nameserverIPMatcherReady w.
Proof.
  unfold getConnection, singleflightDo.
  destruct (inflight env (GetConnectionID pkt)) as [[v err]|].
  - unfold bind, ret. destruct err, v; intros E; inversion E; subst;
      repeat split; reflexivity.
  - unfold bind, ret, storeConnection, modifyWorld, getWorld.
    destruct (conns w !! GetConnectionID pkt); simpl;
      intros E; inversion E; subst; repeat split; reflexivity.
Qed.

(** The getter fails exactly when a call in flight hands back an error or
    a nil record. *)
Lemma getConnection_fails (env : Env) (pkt : Packet) (w : World) v err :
  inflight env (GetConnectionID pkt) = Some (v, err) ->
  (exists e, err = Some e) \/ v = None ->
  exists e, getConnection env pkt w = Some ((None, Some e), w).
Proof.
  intros Hf Hbad. unfold getConnection, singleflightDo, bind, ret.
  rewrite Hf. destruct err as [e|].
  - destruct v; eexists; reflexivity.
  - destruct Hbad as [[e He] | ->]; [discriminate|]. eexists. reflexivity.
Qed.

(** C10.  When the fast track does not handle a packet and getting its
    connection fails, [handlePacket] calls the drop sink of the packet and
    returns: no firewall handler is invoked and no counter moves. *)
Theorem handlePacket_no_connection `{V : VerdictValues} (env : Env)
  (pkt : Packet) (w w1 w2 : World) (c : option Connection) (e : error) :
  fastTrackedPermit env pkt w = Some (false, w1) ->
  getConnection env pkt w1 = Some ((c, Some e), w2) ->
  exists w',
    handlePacket env pkt w = Some (tt, w') /\
    verdicts w' = verdicts w ++ [(pkt, SinkDrop)] /\
    handlerCalls w' = handlerCalls w /\
    stats w' = stats w.
Proof.
  intros Hft Hget.
  pose proof (fastTrackedPermit_unhandled env pkt w w1 Hft) as ->.
  destruct (getConnection_frame env pkt w w2 _ Hget) as (Hv & Hs & Hh & _).
  exists (withVerdicts (verdicts w2 ++ [(pkt, SinkDrop)]) w2).
  split.
  - unfold handlePacket. unfold bind at 1. rewrite Hft.
    unfold bind at 1. rewrite Hget. destruct c; reflexivity.
  - simpl. rewrite Hv, Hs, Hh. repeat split; reflexivity.
Qed.

Lemma handlePacket_no_connection_witness :
  fastTrackedPermit
    (sampleEnv false quietManager (Some (None, Some "lookup failed")))
    dnsPacket initialWorld = Some (false, initialWorld) /\
  getConnection
    (sampleEnv false quietManager (Some (None, Some "lookup failed")))
    dnsPacket initialWorld
  = Some ((None, Some "failed to get connection: lookup failed"),
          initialWorld) /\
  exists w',
    @handlePacket specVerdicts
      (sampleEnv false quietManager (Some (None, Some "lookup failed")))
      dnsPacket initialWorld = Some (tt, w') /\
    verdicts w' = verdicts initialWorld ++ [(dnsPacket, SinkDrop)] /\
    handlerCalls w' = handlerCalls initialWorld /\
    stats w' = stats initialWorld.
Proof.
  split; [reflexivity|]. split; [reflexivity|].
  apply (@handlePacket_no_connection specVerdicts
           (sampleEnv false quietManager (Some (None, Some "lookup failed")))
           dnsPacket initialWorld initialWorld initialWorld None
           "failed to get connection: lookup failed");
    reflexivity.
Defined.

(** ** The spec's end-to-end scenarios, evaluated *)

(** Loopback self-check: permanent accept on the fast track, no record. *)
Example scenario_self_check :
  exists w',
    @handlePacket specVerdicts quietEnv selfCheckPacket initialWorld
    = Some (tt, w') /\
    verdicts w' = [(selfCheckPacket, SinkPermanentAccept)] /\
    conns w' !! GetConnectionID selfCheckPacket = None /\
    handlerCalls w' = [].
Proof.
  eexists. split; [cbv; reflexivity|]. repeat split; reflexivity.
Qed.

(** Sentinel block: permanent block on the fast track, no record. *)
Example scenario_sentinel_block :
  exists w',
    @handlePacket specVerdicts quietEnv sentinelPacket initialWorld
    = Some (tt, w') /\
    verdicts w' = [(sentinelPacket, SinkPermanentBlock)] /\
    conns w' !! GetConnectionID sentinelPacket = None /\
    handlerCalls w' = [].
Proof.
  eexists. split; [cbv; reflexivity|]. repeat split; reflexivity.
Qed.

(** Rogue DNS: a record is created, the initial handler reroutes it to the
    nameserver, and the driver receives the reroute. *)
Example scenario_rogue_dns :
  exists w' conn',
    @handlePacket specVerdicts quietEnv dnsPacket matcherWorld
    = Some (tt, w') /\
    verdicts w' = [(dnsPacket, SinkRerouteToNameserver)] /\
    handlerCalls w' = [(sampleID, Some HandlerInitial)] /\
    conns w' !! sampleID = Some conn' /\
    Verdict conn' = @VerdictRerouteToNameserver specVerdicts /\
    Internal conn' = true /\
    firewallHandler conn' = None /\
    stats w' = mkStats 0 0 0 0.
Proof.
  eexists. eexists. split; [vm_compute; reflexivity|].
  split; [reflexivity|]. split; [reflexivity|].
  split; [vm_compute; reflexivity|]. repeat split; reflexivity.
Qed.

(** ** More on the verdict issuer *)

(** The [switch] of [issueVerdict] calls exactly one sink, whatever the
    numbering of the verdicts. *)
Lemma applyVerdict_oneVerdict `{V : VerdictValues} (conn : Connection)
  (pkt : Packet) (v : Z) (w : World) :
  exists s w', applyVerdict conn pkt v w = Some (tt, w') /\ oneVerdict pkt s w w'.
Proof.
  unfold applyVerdict, oneVerdict. switch_cases;
    destruct (VerdictPermanent conn);
    eexists; eexists; (split; [reflexivity|]); eexists;
    unfold withVerdicts, withStats; simpl; reflexivity.
Qed.

Lemma enablePermanent_shape (env : Env) (conn : Connection) (allow : bool) :
  enablePermanent env conn allow =
  if allow && negb (VerdictPermanent conn) && permanentVerdicts env
  then withSaveWhenFinished true (withVerdictPermanent true conn)
  else conn.
Proof.
  unfold enablePermanent.
  destruct allow, (VerdictPermanent conn) eqn:EP; simpl; try reflexivity.
  destruct (permanentVerdicts env); simpl; [reflexivity|].
  destruct conn; simpl in *; subst; reflexivity.
Qed.

(** X1.  [issueVerdict] hands exactly one verdict for the packet to the
    driver and never panics.  Of the record it writes the permanent flag
    and the save flag only: both are raised when permanence is allowed, the
    record is not permanent yet and the permanent-verdicts option is on,
    and the record comes back untouched otherwise; the verdict, the reason,
    the handler and the other flags are never written. *)
Theorem issueVerdict_record_frame `{V : VerdictValues} (env : Env)
  (conn : Connection) (pkt : Packet) (verdict : Z) (allowPermanent : bool)
  (w : World) :
  exists conn' w' s,
    issueVerdict env conn pkt verdict allowPermanent w = Some (conn', w') /\
    oneVerdict pkt s w w' /\
    conn' =
      (if allowPermanent && negb (VerdictPermanent conn) &&
          permanentVerdicts env
       then withSaveWhenFinished true (withVerdictPermanent true conn)
       else conn) /\
    Verdict conn' = Verdict conn /\
    ReasonMsg conn' = ReasonMsg conn /\
    firewallHandler conn' = firewallHandler conn /\
    Inspecting conn' = Inspecting conn /\
    Internal conn' = Internal conn /\
    (VerdictPermanent conn = true -> VerdictPermanent conn' = true).
Proof.
  unfold issueVerdict.
  set (conn' := enablePermanent env conn allowPermanent).
  destruct (applyVerdict_oneVerdict conn' pkt (effectiveVerdict conn' verdict) w)
    as (s & w' & Erun & Hone).
  exists conn', w', s.
  split; [unfold bind, ret; rewrite Erun; reflexivity|].
  split; [exact Hone|].
  assert (Hshape := enablePermanent_shape env conn allowPermanent).
  fold conn' in Hshape.
  split; [exact Hshape|].
  rewrite Hshape.
  destruct (allowPermanent && negb (VerdictPermanent conn)
            && permanentVerdicts env); simpl; repeat split; auto.
Qed.

(** ** More on the fast track *)

Ltac fastTrack_cases :=
  unfold fastTrackedPermit, bind, ret, callSink, modifyWorld, getWorld,
    callNameserverIPMatcher;
  repeat match goal with
         | |- context [nameserverIPMatcher ?x] =>
             destruct (nameserverIPMatcher x) eqn:?; simpl
         | |- context [if SubmitPacketToICMPListener ?a ?b then _ else _] =>
             destruct (SubmitPacketToICMPListener a b) eqn:?; simpl
         | |- context [match ?x with _ => _ end] => destruct x eqn:?; simpl
         | |- context [if ?x then _ else _] => destruct x eqn:?; simpl
         end.

(** What a run of the fast track can look like. *)
Lemma fastTrackedPermit_cases (env : Env) (pkt : Packet) (w w' : World)
  (handled : bool) :
  fastTrackedPermit env pkt w = Some (handled, w') ->
  (handled = false /\ w' = w) \/
  (handled = true /\ FastTrackedByIntegration pkt = true /\ w' = w) \/
  (handled = true /\ FastTrackedByIntegration pkt = false /\
   exists s,
     w' = withVerdicts (verdicts w ++ [(pkt, s)]) w /\
     ((s = SinkPermanentBlock /\ sentinelDst pkt = true) \/
      (s = SinkPermanentAccept /\ sentinelDst pkt = false) \/
      (s = SinkAccept /\ sentinelDst pkt = false /\
       (Protocol (Info pkt) = ICMP \/ Protocol (Info pkt) = ICMPv6) /\
       SubmitPacketToICMPListener env pkt = true))).
Proof.
  unfold sentinelDst. fastTrack_cases;
    intros E; inversion E; subst;
    first [ left; split; reflexivity
          | right; left; repeat split; reflexivity
          | right; right; split; [reflexivity|]; split; [reflexivity|];
            eexists; split; [reflexivity|];
            first [ left; split; reflexivity
                  | right; left; split; reflexivity
                  | right; right; repeat split; auto ] ].
Qed.

(** With the matcher in place the fast track does not panic. *)
Lemma fastTrackedPermit_runs (env : Env) (pkt : Packet) (w : World) :
  matcherInstalled w ->
  exists handled w', fastTrackedPermit env pkt w = Some (handled, w').
Proof.
  unfold matcherInstalled. intros Hinv.
  fastTrack_cases; try (eexists; eexists; reflexivity).
  all: exfalso;
    match goal with
    | H : negb (nameserverIPMatcherReady _) = false |- _ =>
        apply negb_false_iff in H; apply (Hinv H); reflexivity
    end.
Qed.

(** X2.  A run of the fast track leaves the counters, the connection table
    and the handler trace alone; it calls no sink when it does not handle
    the packet or when the OS integration has fast-tracked it, and exactly
    one otherwise.  That sink is a permanent block exactly for a sentinel
    destination and an accept in every other case: the fast track never
    drops, never reroutes, and accepts one-shot only an ICMP packet the
    listener took. *)
Theorem fastTrackedPermit_verdicts (env : Env) (pkt : Packet) (w w' : World)
  (handled : bool) :
  fastTrackedPermit env pkt w = Some (handled, w') ->
  stats w' = stats w /\ conns w' = conns w /\
  handlerCalls w' = handlerCalls w /\
  (handled = false -> verdicts w' = verdicts w) /\
  (FastTrackedByIntegration pkt = true ->
   handled = true /\ verdicts w' = verdicts w) /\
  (handled = true -> FastTrackedByIntegration pkt = false ->
   exists s,
     verdicts w' = verdicts w ++ [(pkt, s)] /\
     (s = SinkPermanentBlock <-> sentinelDst pkt = true) /\
     (s = SinkPermanentBlock \/ s = SinkPermanentAccept \/ s = SinkAccept) /\
     (s = SinkAccept ->
      (Protocol (Info pkt) = ICMP \/ Protocol (Info pkt) = ICMPv6) /\
      SubmitPacketToICMPListener env pkt = true)).
Proof.
  intros Hrun.
  assert (Hft : FastTrackedByIntegration pkt = true ->
                handled = true /\ verdicts w' = verdicts w).
  { intros Hf. unfold fastTrackedPermit in Hrun. rewrite Hf in Hrun.
    inversion Hrun. split; reflexivity. }
  destruct (fastTrackedPermit_cases env pkt w w' handled Hrun)
    as [[-> ->] | [(-> & Hf & ->) | (-> & Hf & s & -> & Hs)]].
  - split; [reflexivity|]. split; [reflexivity|]. split; [reflexivity|].
    split; [reflexivity|]. split; [exact Hft|]. discriminate.
  - split; [reflexivity|]. split; [reflexivity|]. split; [reflexivity|].
    split; [reflexivity|]. split; [exact Hft|].
    intros _ Hf'. rewrite Hf in Hf'. discriminate.
  - split; [reflexivity|]. split; [reflexivity|]. split; [reflexivity|].
    split; [discriminate|]. split; [exact Hft|].
    intros _ _. exists s. split; [reflexivity|].
    destruct Hs as [[-> Hd] | [[-> Hd] | (-> & Hd & Hp & Hl)]].
    + split; [split; auto|]. split; [auto | discriminate].
    + split; [split; [discriminate | rewrite Hd; discriminate]|].
      split; [auto | discriminate].
    + split; [split; [discriminate | rewrite Hd; discriminate]|].
      split; auto.
Qed.

Lemma fastTrackedPermit_verdicts_witness :
  fastTrackedPermit quietEnv sentinelPacket initialWorld
  = Some (true,
          withVerdicts [(sentinelPacket, SinkPermanentBlock)] initialWorld) /\
  stats (withVerdicts [(sentinelPacket, SinkPermanentBlock)] initialWorld)
  = stats initialWorld /\
  conns (withVerdicts [(sentinelPacket, SinkPermanentBlock)] initialWorld)
  = conns initialWorld /\
  handlerCalls (withVerdicts [(sentinelPacket, SinkPermanentBlock)] initialWorld)
  = handlerCalls initialWorld /\
  (true = false ->
   verdicts (withVerdicts [(sentinelPacket, SinkPermanentBlock)] initialWorld)
   = verdicts initialWorld) /\
  (FastTrackedByIntegration sentinelPacket = true ->
   true = true /\
   verdicts (withVerdicts [(sentinelPacket, SinkPermanentBlock)] initialWorld)
   = verdicts initialWorld) /\
  (true = true -> FastTrackedByIntegration sentinelPacket = false ->
   exists s,
     verdicts (withVerdicts [(sentinelPacket, SinkPermanentBlock)] initialWorld)
     = verdicts initialWorld ++ [(sentinelPacket, s)] /\
     (s = SinkPermanentBlock <-> sentinelDst sentinelPacket = true) /\
     (s = SinkPermanentBlock \/ s = SinkPermanentAccept \/ s = SinkAccept) /\
     (s = SinkAccept ->
      (Protocol (Info sentinelPacket) = ICMP \/
       Protocol (Info sentinelPacket) = ICMPv6) /\
      SubmitPacketToICMPListener quietEnv sentinelPacket = true)).
Proof.
  split; [reflexivity|].
  apply (fastTrackedPermit_verdicts quietEnv sentinelPacket initialWorld
           (withVerdicts [(sentinelPacket, SinkPermanentBlock)] initialWorld)
           true).
  reflexivity.
Defined.

(** X3.  DHCP.  A TCP or UDP packet to port 67, 68, 546 or 547 that the
    earlier rules let pass is accepted permanently exactly when it is UDP
    and its destination is host-local, link-local, site-local or a local
    multicast address; otherwise it is not handled.  Neither the API rule
    nor the DNS rule is consulted for these ports, whatever the API port
    is, and the nameserver matcher is not called. *)
Theorem fastTrackedPermit_dhcp (env : Env) (pkt : Packet) (w : World) :
  FastTrackedByIntegration pkt = false ->
  sentinelDst pkt = false ->
  selfCheck pkt = false ->
  Protocol (Info pkt) = UDP \/ Protocol (Info pkt) = TCP ->
  dhcpPort (DstPort (Info pkt)) = true ->
  fastTrackedPermit env pkt w =
  if isUDP (Protocol (Info pkt)) && localScope (ClassifyIP env (Dst (Info pkt)))
  then Some (true, withVerdicts (verdicts w ++ [(pkt, SinkPermanentAccept)]) w)
  else Some (false, w).
Proof.
  unfold sentinelDst, selfCheck, dhcpPort. intros Hf Hs Hc Hp Hd.
  unfold fastTrackedPermit. rewrite Hf, Hs, Hc, Hd.
  destruct Hp as [-> | ->]; simpl; [|reflexivity].
  destruct (ClassifyIP env (Dst (Info pkt))); reflexivity.
Qed.

Lemma fastTrackedPermit_dhcp_witness :
  FastTrackedByIntegration dhcpPacket = false /\
  sentinelDst dhcpPacket = false /\
  selfCheck dhcpPacket = false /\
  (Protocol (Info dhcpPacket) = UDP \/ Protocol (Info dhcpPacket) = TCP) /\
  dhcpPort (DstPort (Info dhcpPacket)) = true /\
  fastTrackedPermit lanEnv dhcpPacket initialWorld =
  (if isUDP (Protocol (Info dhcpPacket)) &&
      localScope (ClassifyIP lanEnv (Dst (Info dhcpPacket)))
   then Some (true,
              withVerdicts
                (verdicts initialWorld ++ [(dhcpPacket, SinkPermanentAccept)])
                initialWorld)
   else Some (false, initialWorld)).
Proof.
  do 3 (split; [reflexivity|]). split; [left; reflexivity|].
  split; [reflexivity|].
  apply (fastTrackedPermit_dhcp lanEnv dhcpPacket initialWorld);
    try reflexivity.
  left; reflexivity.
Defined.



(** X5.  [SetNameserverIPMatcher] accepts a nil function: the flags go up
    and the slot is taken for good.  From then on the fast track panics on
    every TCP or UDP packet to port 53 that reaches the DNS rule, and so
    does the initial handler on every outbound packet to port 53 of
    another process whose connection is not pre-authenticated. *)
Theorem SetNameserverIPMatcher_nil `{V : VerdictValues} (w : World) :
  nameserverIPMatcherSet w = false ->
  exists w1,
    SetNameserverIPMatcher None w = Some (None, w1) /\
    (forall fn, exists msg,
       SetNameserverIPMatcher fn w1 = Some (Some msg, w1)) /\
    (forall env pkt,
       FastTrackedByIntegration pkt = false ->
       sentinelDst pkt = false -> selfCheck pkt = false ->
       Protocol (Info pkt) = UDP \/ Protocol (Info pkt) = TCP ->
       DstPort (Info pkt) = 53 -> apiPort env <> 53 ->
       fastTrackedPermit env pkt w1 = None) /\
    (forall env conn pkt,
       localPortIsPreAuthenticated env (EntityProtocol conn) (LocalPort conn)
         = false ->
       IsOutbound pkt = true -> DstPort (Info pkt) = 53 ->
       ProcessPid conn <> ownPID env ->
       initialHandler env conn pkt w1 = None).
Proof.
  intros Hset.
  exists (mkWorld None true true (stats w) (verdicts w) (handlerCalls w)
            (conns w)).
  split; [unfold SetNameserverIPMatcher; rewrite Hset; reflexivity|].
  split; [intros fn; eexists; apply SetNameserverIPMatcher_again; reflexivity|].
  split.
  - unfold sentinelDst, selfCheck. intros env pkt Hf Hs Hc Hp H53 Ha.
    unfold fastTrackedPermit. rewrite Hf, Hs, Hc, H53.
    assert (Ha' : (53 =? apiPort env) = false) by (apply Z.eqb_neq; lia).
    rewrite Ha'.
    destruct Hp as [-> | ->]; reflexivity.
  - intros env conn pkt Hpre Hout H53 Hpid.
    unfold initialHandler. rewrite Hpre, andb_false_r, Hout, H53.
    apply Z.eqb_neq in Hpid. rewrite Hpid. reflexivity.
Qed.

Lemma SetNameserverIPMatcher_nil_witness :
  nameserverIPMatcherSet initialWorld = false /\
  exists w1,
    SetNameserverIPMatcher None initialWorld = Some (None, w1) /\
    (forall fn, exists msg,
       SetNameserverIPMatcher fn w1 = Some (Some msg, w1)) /\
    (forall env pkt,
       FastTrackedByIntegration pkt = false ->
       sentinelDst pkt = false -> selfCheck pkt = false ->
       Protocol (Info pkt) = UDP \/ Protocol (Info pkt) = TCP ->
       DstPort (Info pkt) = 53 -> apiPort env <> 53 ->
       fastTrackedPermit env pkt w1 = None) /\
    (forall env conn pkt,
       localPortIsPreAuthenticated env (EntityProtocol conn) (LocalPort conn)
         = false ->
       IsOutbound pkt = true -> DstPort (Info pkt) = 53 ->
       ProcessPid conn <> ownPID env ->
       @initialHandler specVerdicts env conn pkt w1 = None).
Proof.
  split; [reflexivity|].
  apply (@SetNameserverIPMatcher_nil specVerdicts initialWorld).
  reflexivity.
Defined.

Example nil_matcher_panics :
  (SetNameserverIPMatcher None ;;; fastTrackedPermit quietEnv dnsPacket)
    initialWorld = None.
Proof. reflexivity. Qed.

(** ** One verdict per packet *)

Lemma oneVerdict_fields (pkt : Packet) (s : Sink) (w w' : World) :
  oneVerdict pkt s w w' ->
  verdicts w' = verdicts w ++ [(pkt, s)] /\
  nameserverIPMatcher w' = nameserverIPMatcher w /\
  nameserverIPMatcherSet w' = nameserverIPMatcherSet w /\
  nameserverIPMatcherReady w' = nameserverIPMatcherReady w /\
  handlerCalls w' = handlerCalls w /\
  conns w' = conns w.
Proof. intros [st ->]. repeat split; reflexivity. Qed.

Lemma issueVerdict_oneVerdict `{V : VerdictValues} (env : Env)
  (conn : Connection) (pkt : Packet) (verdict : Z) (allow : bool) (w : World) :
  exists conn' w' s,
    issueVerdict env conn pkt verdict allow w = Some (conn', w') /\
    oneVerdict pkt s w w' /\
    conn' = enablePermanent env conn allow.
Proof.
  unfold issueVerdict.
  set (conn' := enablePermanent env conn allow).
  destruct (applyVerdict_oneVerdict conn' pkt (effectiveVerdict conn' verdict) w)
    as (s & w' & Erun & Hone).
  exists conn', w', s.
  split; [unfold bind, ret; rewrite Erun; reflexivity|].
  split; [exact Hone | reflexivity].
Qed.

Lemma inspectThenVerdict_oneVerdict `{V : VerdictValues} (env : Env)
  (conn : Connection) (pkt : Packet) (w : World) :
  exists conn' w' s,
    inspectThenVerdict env conn pkt w = Some (conn', w') /\
    oneVerdict pkt s w w'.
Proof.
  unfold inspectThenVerdict.
  destruct (streamManagerHandlePacket env conn pkt)
    as [conn1 [[v reason] err]].
  match goal with
  | |- context [issueVerdict env ?c pkt 0 ?a] =>
      destruct (issueVerdict_oneVerdict env c pkt 0 a w)
        as (conn' & w' & s & E & Hone & _)
  end.
  exists conn', w', s. split; assumption.
Qed.

Lemma initialHandler_oneVerdict `{V : VerdictValues} (env : Env)
  (conn : Connection) (pkt : Packet) (w : World) :
  matcherInstalled w ->
  exists conn' w' s,
    initialHandler env conn pkt w = Some (conn', w') /\
    oneVerdict pkt s w w'.
Proof.
  unfold matcherInstalled. intros Hinv.
  assert (Hiv : forall c verdict allow,
            exists conn' w' s,
              issueVerdict env c pkt verdict allow w = Some (conn', w') /\
              oneVerdict pkt s w w').
  { intros c verdict allow.
    destruct (issueVerdict_oneVerdict env c pkt verdict allow w)
      as (conn' & w' & s & E & Hone & _).
    exists conn', w', s. split; assumption. }
  unfold initialHandler.
  destruct (negb (ConnInbound conn) &&
            localPortIsPreAuthenticated env (EntityProtocol conn)
              (LocalPort conn)); [apply Hiv|].
  unfold bind at 1.
  set (check := if IsOutbound pkt && (DstPort (Info pkt) =? 53) &&
                   negb (ProcessPid conn =? ownPID env)
                then _ else _).
  assert (Hcheck : exists rogue, check w = Some (rogue, w)).
  { unfold check.
    destruct (IsOutbound pkt && (DstPort (Info pkt) =? 53) &&
              negb (ProcessPid conn =? ownPID env));
      [|exists false; reflexivity].
    unfold bind, getWorld, callNameserverIPMatcher, ret.
    destruct (nameserverIPMatcherReady w) eqn:Hr; [|exists false; reflexivity].
    destruct (nameserverIPMatcher w) as [fn|] eqn:Hm.
    - eexists; reflexivity.
    - exfalso. apply (Hinv eq_refl). reflexivity. }
  destruct Hcheck as [rogue ->].
  destruct rogue; [apply Hiv|].
  destruct (negb (filterEnabled env)); [apply Hiv|].
  match goal with
  | |- context [if Inspecting ?c then _ else _] => destruct (Inspecting c)
  end.
  - apply inspectThenVerdict_oneVerdict.
  - apply Hiv.
Qed.

Lemma getConnection_runs (env : Env) (pkt : Packet) (w : World) :
  exists r w',
    getConnection env pkt w = Some (r, w') /\
    ((exists c, r = (Some c, None)) \/ (exists e, r = (None, Some e))) /\
    verdicts w' = verdicts w /\ stats w' = stats w /\
    handlerCalls w' = handlerCalls w /\
    nameserverIPMatcher w' = nameserverIPMatcher w /\
    nameserverIPMatcherSet w' = nameserverIPMatcherSet w /\
    nameserverIPMatcherReady w' = nameserverIPMatcherReady w.
Proof.
  unfold getConnection, singleflightDo.
  destruct (inflight env (GetConnectionID pkt)) as [[v err]|].
  - unfold bind, ret. destruct err as [e|], v as [c|];
      eexists; eexists; (split; [reflexivity|]);
      (split; [first [left; eexists; reflexivity
                     | right; eexists; reflexivity]|]);
      repeat split; reflexivity.
  - unfold bind, ret, storeConnection, modifyWorld, getWorld.
    destruct (conns w !! GetConnectionID pkt) as [c|]; simpl;
      eexists; eexists; (split; [reflexivity|]);
      (split; [left; eexists; reflexivity|]); repeat split; reflexivity.
Qed.

(** X6.  One verdict per packet.  In a world where the matcher variable
    holds a function whenever its ready flag is up, [handlePacket] never
    panics and keeps that property; it hands exactly one verdict for the
    packet to the driver, and none at all when the OS integration has
    fast-tracked the packet.  This covers every path: the fast track, a
    failing connection getter, and each of the three firewall handlers. *)
Theorem handlePacket_one_verdict `{V : VerdictValues} (env : Env)
  (pkt : Packet) (w : World) :
  matcherInstalled w ->
  exists w',
    handlePacket env pkt w = Some (tt, w') /\
    matcherInstalled w' /\
    nameserverIPMatcher w' = nameserverIPMatcher w /\
    nameserverIPMatcherReady w' = nameserverIPMatcherReady w /\
    (FastTrackedByIntegration pkt = true -> verdicts w' = verdicts w) /\
    (FastTrackedByIntegration pkt = false ->
     exists s, verdicts w' = verdicts w ++ [(pkt, s)]).
Proof.
  intros Hinv.
  destruct (fastTrackedPermit_runs env pkt w Hinv) as (handled & w1 & Eft).
  pose proof (fastTrackedPermit_cases env pkt w w1 handled Eft) as Hc.
  unfold handlePacket. unfold bind at 1. rewrite Eft.
  destruct Hc as [[-> ->] | [(-> & Hf & ->) | (-> & Hf & s & -> & _)]].
  - (* not handled *)
    assert (Hnf : FastTrackedByIntegration pkt = false).
    { destruct (FastTrackedByIntegration pkt) eqn:E; [|reflexivity].
      unfold fastTrackedPermit in Eft. rewrite E in Eft. discriminate. }
    destruct (getConnection_runs env pkt w)
      as (r & w2 & Eg & Hshape & Hv & _ & _ & Hm & _ & Hr).
    unfold bind at 1. rewrite Eg.
    assert (Hinv2 : matcherInstalled w2).
    { unfold matcherInstalled. rewrite Hm, Hr. exact Hinv. }
    destruct Hshape as [[c ->] | [e ->]].
    + unfold ConnectionHandlePacket, bind, modifyWorld.
      set (w3 := withHandlerCalls _ w2).
      assert (Hinv3 : matcherInstalled w3) by exact Hinv2.
      assert (Hrun : exists conn' w4 s,
                match firewallHandler c with
                | Some HandlerInitial => initialHandler env c pkt
                | Some HandlerInspectThenVerdict =>
                    inspectThenVerdict env c pkt
                | None => defaultHandler env c pkt
                end w3 = Some (conn', w4) /\ oneVerdict pkt s w3 w4).
      { destruct (firewallHandler c) as [[|]|].
        - apply initialHandler_oneVerdict, Hinv3.
        - apply inspectThenVerdict_oneVerdict.
        - unfold defaultHandler.
          destruct (issueVerdict_oneVerdict env c pkt 0 true w3)
            as (conn' & w4 & s & E & Hone & _).
          exists conn', w4, s. split; assumption. }
      destruct Hrun as (conn' & w4 & s & -> & Hone).
      apply oneVerdict_fields in Hone.
      destruct Hone as (Hv4 & Hm4 & _ & Hr4 & _ & _).
      eexists. split; [reflexivity|].
      unfold storeConnection, modifyWorld, matcherInstalled. simpl.
      rewrite Hm4, Hr4, Hv4. simpl. rewrite Hm, Hr, Hv.
      split; [exact Hinv|]. split; [reflexivity|]. split; [reflexivity|].
      split; [intros E; rewrite Hnf in E; discriminate|].
      intros _. exists s. reflexivity.
    + eexists. split; [reflexivity|].
      unfold matcherInstalled. simpl. rewrite Hm, Hr, Hv.
      split; [exact Hinv|]. split; [reflexivity|]. split; [reflexivity|].
      split; [intros E; rewrite Hnf in E; discriminate|].
      intros _. exists SinkDrop. reflexivity.
  - exists w. split; [reflexivity|]. split; [exact Hinv|].
    split; [reflexivity|]. split; [reflexivity|].
    split; [reflexivity|]. intros E. rewrite Hf in E. discriminate.
  - eexists. split; [reflexivity|]. split; [exact Hinv|].
    split; [reflexivity|]. split; [reflexivity|].
    split; [intros E; rewrite Hf in E; discriminate|].
    intros _. exists s. reflexivity.
Qed.

Lemma handlePacket_one_verdict_witness :
  matcherInstalled matcherWorld /\
  exists w',
    @handlePacket specVerdicts quietEnv dnsPacket matcherWorld
    = Some (tt, w') /\
    matcherInstalled w' /\
    nameserverIPMatcher w' = nameserverIPMatcher matcherWorld /\
    nameserverIPMatcherReady w' = nameserverIPMatcherReady matcherWorld /\
    (FastTrackedByIntegration dnsPacket = true ->
     verdicts w' = verdicts matcherWorld) /\
    (FastTrackedByIntegration dnsPacket = false ->
     exists s, verdicts w' = verdicts matcherWorld ++ [(dnsPacket, s)]).
Proof.
  assert (Hinv : matcherInstalled matcherWorld)
    by (unfold matcherInstalled; simpl; discriminate).
  split; [exact Hinv|].
  apply (@handlePacket_one_verdict specVerdicts quietEnv dnsPacket
           matcherWorld Hinv).
Defined.

(** X7.  What [getConnection] hands to its caller.  It never panics and
    returns either a record and no error, or no record and an error, never
    neither; it touches neither the driver nor the counters.  An error
    arises only from a call in flight that hands back an error or a nil
    record.  Without a call in flight, a record the table has for the
    packet's connection id is returned as it is and the world is left
    alone; without one, the returned record is the fresh one with the
    initial handler installed. *)
Theorem getConnection_contract (env : Env) (pkt : Packet) (w : World) :
  exists r w',
    getConnection env pkt w = Some (r, w') /\
    ((exists c, r = (Some c, None)) \/
     (exists e v err,
        r = (None, Some e) /\ w' = w /\
        inflight env (GetConnectionID pkt) = Some (v, err) /\
        (v = None \/ err <> None))) /\
    verdicts w' = verdicts w /\ stats w' = stats w /\
    handlerCalls w' = handlerCalls w /\
    (inflight env (GetConnectionID pkt) = None ->
     forall c, conns w !! GetConnectionID pkt = Some c ->
               r = (Some c, None) /\ w' = w) /\
    (inflight env (GetConnectionID pkt) = None ->
     conns w !! GetConnectionID pkt = None ->
     r = (Some (SetFirewallHandler HandlerInitial
                  (NewConnectionFromFirstPacket env pkt)), None) /\
     firewallHandler
       (SetFirewallHandler HandlerInitial
          (NewConnectionFromFirstPacket env pkt)) = Some HandlerInitial).
Proof.
  unfold getConnection, singleflightDo.
  destruct (inflight env (GetConnectionID pkt)) as [[v err]|] eqn:Ef.
  - unfold bind, ret. destruct err as [e|], v as [c|];
      eexists; eexists; (split; [reflexivity|]).
    + split; [right; do 3 eexists; repeat split; right; discriminate|].
      repeat split; discriminate.
    + split; [right; do 3 eexists; repeat split; left; reflexivity|].
      repeat split; discriminate.
    + split; [left; eexists; reflexivity|]. repeat split; discriminate.
    + split; [right; do 3 eexists; repeat split; left; reflexivity|].
      repeat split; discriminate.
  - unfold bind, ret, storeConnection, modifyWorld, getWorld.
    destruct (conns w !! GetConnectionID pkt) as [c|] eqn:El; simpl;
      eexists; eexists; (split; [reflexivity|]);
      (split; [left; eexists; reflexivity|]).
    + do 3 (split; [reflexivity|]). split.
      * intros _ c' Hc. inversion Hc. split; reflexivity.
      * intros _ Hc. discriminate.
    + do 3 (split; [reflexivity|]). split.
      * intros _ c' Hc. discriminate.
      * intros _ _. split; reflexivity.
Qed.

(** ** The handler chain *)

Lemma applyVerdict_permanent_sink `{V : VerdictValues} (conn : Connection)
  (pkt : Packet) (v : Z) (w : World) :
  exists s w',
    applyVerdict conn pkt v w = Some (tt, w') /\ oneVerdict pkt s w w' /\
    (sinkPermanent s = true -> VerdictPermanent conn = true).
Proof.
  unfold applyVerdict, oneVerdict. switch_cases;
    destruct (VerdictPermanent conn);
    eexists; eexists; (split; [reflexivity|]);
    (split; [eexists; unfold withVerdicts, withStats; simpl; reflexivity|]);
    simpl; auto.
Qed.

Lemma SetVerdict_frame (v : Z) (reason : string) (c : Connection) :
  Inspecting (SetVerdict v reason c) = Inspecting c /\
  VerdictPermanent (SetVerdict v reason c) = VerdictPermanent c /\
  firewallHandler (SetVerdict v reason c) = firewallHandler c /\
  saveWhenFinished (SetVerdict v reason c) = saveWhenFinished c /\
  Internal (SetVerdict v reason c) = Internal c.
Proof.
  unfold SetVerdict. destruct (Verdict c <=? v); repeat split; reflexivity.
Qed.

(** X8.  Permanence and inspection.  [inspectThenVerdict] hands one verdict
    to the driver.  While the stream manager keeps the connection under
    inspection, the record's permanent flag, save flag and firewall handler
    stay as the manager left them, and a record that is not permanent gets
    a one-shot sink, so the next packet of the flow is seen again.  Once
    the manager has ended the inspection, the handler is cleared, the
    record is marked to be saved, and the permanent flag is raised when the
    permanent-verdicts option is on. *)
Theorem inspectThenVerdict_permanence `{V : VerdictValues} (env : Env)
  (conn conn1 : Connection) (pkt : Packet) (w : World) (v : Z)
  (reason : option string) (err : option error) :
  streamManagerHandlePacket env conn pkt = (conn1, (v, reason, err)) ->
  exists conn' w' s,
    inspectThenVerdict env conn pkt w = Some (conn', w') /\
    oneVerdict pkt s w w' /\
    Inspecting conn' = Inspecting conn1 /\
    (Inspecting conn1 = true ->
     VerdictPermanent conn' = VerdictPermanent conn1 /\
     saveWhenFinished conn' = saveWhenFinished conn1 /\
     firewallHandler conn' = firewallHandler conn1 /\
     (VerdictPermanent conn1 = false -> sinkPermanent s = false)) /\
    (Inspecting conn1 = false ->
     firewallHandler conn' = None /\
     saveWhenFinished conn' = true /\
     VerdictPermanent conn' = VerdictPermanent conn1 || permanentVerdicts env).
Proof.
  intros Hm. unfold inspectThenVerdict. rewrite Hm.
  set (verdict := match err with Some _ => VerdictAccept | None => v end).
  set (conn2 := if VerdictUndecided <? verdict
                then SetVerdict verdict
                       match reason with Some r => r | None => "" end conn1
                else conn1).
  assert (H2 : Inspecting conn2 = Inspecting conn1 /\
               VerdictPermanent conn2 = VerdictPermanent conn1 /\
               firewallHandler conn2 = firewallHandler conn1 /\
               saveWhenFinished conn2 = saveWhenFinished conn1 /\
               Internal conn2 = Internal conn1).
  { unfold conn2. destruct (VerdictUndecided <? verdict);
      [apply SetVerdict_frame | repeat split; reflexivity]. }
  destruct H2 as (H2i & H2p & H2h & H2s & _).
  set (conn3 := if negb (Inspecting conn2)
                then SaveWhenFinished (StopFirewallHandler conn2)
                else conn2).
  assert (H3i : Inspecting conn3 = Inspecting conn1).
  { unfold conn3. destruct (negb (Inspecting conn2)); simpl; exact H2i. }
  unfold issueVerdict.
  set (conn4 := enablePermanent env conn3 (negb (Inspecting conn3))).
  destruct (applyVerdict_permanent_sink conn4 pkt (effectiveVerdict conn4 0) w)
    as (s & w' & Erun & Hone & Hperm).
  exists conn4, w', s.
  split; [unfold bind, ret; rewrite Erun; reflexivity|].
  split; [exact Hone|].
  assert (H4 := enablePermanent_shape env conn3 (negb (Inspecting conn3))).
  fold conn4 in H4. rewrite H3i in H4.
  split.
  { rewrite H4. destruct (negb (Inspecting conn1) &&
                          negb (VerdictPermanent conn3) &&
                          permanentVerdicts env); simpl; exact H3i. }
  split.
  - intros Hi. rewrite Hi in H4. simpl in H4.
    assert (E3 : conn3 = conn2)
      by (unfold conn3; rewrite H2i, Hi; reflexivity).
    rewrite H4, E3. repeat split; try assumption.
    intros Hp. destruct (sinkPermanent s) eqn:Es; [|reflexivity].
    specialize (Hperm eq_refl). rewrite H4, E3, H2p, Hp in Hperm.
    discriminate.
  - intros Hi. rewrite Hi in H4. simpl in H4.
    assert (E3 : conn3 = SaveWhenFinished (StopFirewallHandler conn2))
      by (unfold conn3; rewrite H2i, Hi; reflexivity).
    assert (H3p : VerdictPermanent conn3 = VerdictPermanent conn1)
      by (rewrite E3; simpl; exact H2p).
    rewrite H3p in H4. rewrite H4, E3.
    destruct (VerdictPermanent conn1) eqn:Ep; simpl.
    + repeat split; try reflexivity; exact H2p.
    + destruct (permanentVerdicts env); simpl; repeat split;
        try reflexivity; exact H2p.
Qed.

Lemma inspectThenVerdict_permanence_witness :
  streamManagerHandlePacket quietEnv (sampleConn 1 true) dnsPacket
  = (sampleConn 1 true, (0, None, None)) /\
  exists conn' w' s,
    @inspectThenVerdict specVerdicts quietEnv (sampleConn 1 true) dnsPacket
      initialWorld = Some (conn', w') /\
    oneVerdict dnsPacket s initialWorld w' /\
    Inspecting conn' = Inspecting (sampleConn 1 true) /\
    (Inspecting (sampleConn 1 true) = true ->
     VerdictPermanent conn' = VerdictPermanent (sampleConn 1 true) /\
     saveWhenFinished conn' = saveWhenFinished (sampleConn 1 true) /\
     firewallHandler conn' = firewallHandler (sampleConn 1 true) /\
     (VerdictPermanent (sampleConn 1 true) = false ->
      sinkPermanent s = false)) /\
    (Inspecting (sampleConn 1 true) = false ->
     firewallHandler conn' = None /\
     saveWhenFinished conn' = true /\
     VerdictPermanent conn' =
       VerdictPermanent (sampleConn 1 true) || permanentVerdicts quietEnv).
Proof.
  split; [reflexivity|].
  apply (@inspectThenVerdict_permanence specVerdicts quietEnv
           (sampleConn 1 true) (sampleConn 1 true) dnsPacket initialWorld
           0 None None).
  reflexivity.
Defined.

Lemma enablePermanent_frame (env : Env) (conn : Connection) (allow : bool) :
  firewallHandler (enablePermanent env conn allow) = firewallHandler conn /\
  Inspecting (enablePermanent env conn allow) = Inspecting conn /\
  Internal (enablePermanent env conn allow) = Internal conn.
Proof.
  rewrite enablePermanent_shape.
  destruct (allow && negb (VerdictPermanent conn) && permanentVerdicts env);
    repeat split; reflexivity.
Qed.

Lemma issueVerdict_handler `{V : VerdictValues} (env : Env)
  (conn conn' : Connection) (pkt : Packet) (verdict : Z) (allow : bool)
  (w w' : World) :
  issueVerdict env conn pkt verdict allow w = Some (conn', w') ->
  firewallHandler conn' = firewallHandler conn /\
  Inspecting conn' = Inspecting conn /\ Internal conn' = Internal conn.
Proof.
  intros E.
  destruct (issueVerdict_oneVerdict env conn pkt verdict allow w)
    as (c & w1 & s & E1 & _ & ->).
  rewrite E1 in E. inversion E; subst. apply enablePermanent_frame.
Qed.

(** The handler and the inspecting flag after [inspectThenVerdict]. *)
Lemma inspectThenVerdict_handler `{V : VerdictValues} (env : Env)
  (conn conn1 conn' : Connection) (pkt : Packet) (w w' : World) (v : Z)
  (reason : option string) (err : option error) :
  streamManagerHandlePacket env conn pkt = (conn1, (v, reason, err)) ->
  inspectThenVerdict env conn pkt w = Some (conn', w') ->
  Inspecting conn' = Inspecting conn1 /\
  (Inspecting conn1 = true -> firewallHandler conn' = firewallHandler conn1) /\
  (Inspecting conn1 = false -> firewallHandler conn' = None).
Proof.
  intros Hm. unfold inspectThenVerdict. rewrite Hm.
  set (verdict := match err with Some _ => VerdictAccept | None => v end).
  set (conn2 := if VerdictUndecided <? verdict
                then SetVerdict verdict
                       match reason with Some r => r | None => "" end conn1
                else conn1).
  assert (H2 : Inspecting conn2 = Inspecting conn1 /\
               firewallHandler conn2 = firewallHandler conn1).
  { unfold conn2. destruct (VerdictUndecided <? verdict);
      [|split; reflexivity].
    split; apply SetVerdict_frame. }
  destruct H2 as [H2i H2h].
  intros E. apply issueVerdict_handler in E. destruct E as (Eh & Ei & _).
  rewrite Eh, Ei, H2i.
  destruct (Inspecting conn1) eqn:Hi1; simpl; rewrite ?H2i;
    (split; [reflexivity|]); split; intros Hi; try discriminate;
    first [exact H2h | reflexivity].
Qed.

(** X9.  The handler chain only moves forward.  Given a stream manager that
    does not swap the firewall handler itself: after [initialHandler] the
    record's handler is nil, or it is [inspectThenVerdict] on a record
    under inspection, never [initialHandler] again; after
    [inspectThenVerdict] it is nil, or left as it was on a record still
    under inspection; [defaultHandler] leaves it as it is. *)
Theorem firewallHandler_progress `{V : VerdictValues} (env : Env)
  (conn conn' : Connection) (pkt : Packet) (w w' : World) :
  (forall c p, firewallHandler (fst (streamManagerHandlePacket env c p))
               = firewallHandler c) ->
  (initialHandler env conn pkt w = Some (conn', w') ->
   firewallHandler conn' = None \/
   (firewallHandler conn' = Some HandlerInspectThenVerdict /\
    Inspecting conn' = true)) /\
  (inspectThenVerdict env conn pkt w = Some (conn', w') ->
   firewallHandler conn' = None \/
   (firewallHandler conn' = firewallHandler conn /\
    Inspecting conn' = true)) /\
  (defaultHandler env conn pkt w = Some (conn', w') ->
   firewallHandler conn' = firewallHandler conn).
Proof.
  intros Hframe.
  assert (Hinspect : forall c c' w0 w1,
            inspectThenVerdict env c pkt w0 = Some (c', w1) ->
            firewallHandler c' = None \/
            (firewallHandler c' = firewallHandler c /\ Inspecting c' = true)).
  { intros c c' w0 w1 E.
    destruct (streamManagerHandlePacket env c pkt)
      as [c1 [[v reason] err]] eqn:Em.
    destruct (inspectThenVerdict_handler env c c1 c' pkt w0 w1 v reason err
                Em E) as (Hi & Hon & Hoff).
    pose proof (Hframe c pkt) as Hf. rewrite Em in Hf. simpl in Hf.
    destruct (Inspecting c1) eqn:Ei.
    - right. split; [rewrite (Hon eq_refl); exact Hf | exact Hi].
    - left. apply Hoff. reflexivity. }
  split; [|split].
  - unfold initialHandler.
    destruct (negb (ConnInbound conn) &&
              localPortIsPreAuthenticated env (EntityProtocol conn)
                (LocalPort conn)).
    { intros E. apply issueVerdict_handler in E. left. apply E. }
    unfold bind at 1.
    match goal with
    | |- context [match ?m w with _ => _ end] => destruct (m w) as [[rogue w1]|]
    end; [|discriminate].
    destruct rogue.
    { intros E. apply issueVerdict_handler in E. left. apply E. }
    destruct (negb (filterEnabled env)).
    { intros E. apply issueVerdict_handler in E. left.
      destruct E as [-> _]. reflexivity. }
    match goal with
    | |- context [if Inspecting ?c then _ else _] =>
        destruct (Inspecting c) eqn:Ei
    end.
    + intros E. apply Hinspect in E. destruct E as [E | [E1 E2]].
      * left. exact E.
      * right. split; [rewrite E1; reflexivity | exact E2].
    + intros E. apply issueVerdict_handler in E. left. apply E.
  - apply Hinspect.
  - unfold defaultHandler. intros E. apply issueVerdict_handler in E. apply E.
Qed.

Lemma firewallHandler_progress_witness :
  (forall c p, firewallHandler (fst (streamManagerHandlePacket quietEnv c p))
               = firewallHandler c) /\
  ((@initialHandler specVerdicts quietEnv (sampleConn 0 true) dnsPacket
      initialWorld
    = Some (SetFirewallHandler HandlerInspectThenVerdict (sampleConn 0 true),
            withVerdicts [(dnsPacket, SinkDrop)]
              (withStats (mkStats 0 0 1 0) initialWorld)) ->
    firewallHandler
      (SetFirewallHandler HandlerInspectThenVerdict (sampleConn 0 true))
    = None \/
    (firewallHandler
       (SetFirewallHandler HandlerInspectThenVerdict (sampleConn 0 true))
     = Some HandlerInspectThenVerdict /\
     Inspecting
       (SetFirewallHandler HandlerInspectThenVerdict (sampleConn 0 true))
     = true)) /\
   (@inspectThenVerdict specVerdicts quietEnv (sampleConn 0 true) dnsPacket
      initialWorld
    = Some (SetFirewallHandler HandlerInspectThenVerdict (sampleConn 0 true),
            withVerdicts [(dnsPacket, SinkDrop)]
              (withStats (mkStats 0 0 1 0) initialWorld)) ->
    firewallHandler
      (SetFirewallHandler HandlerInspectThenVerdict (sampleConn 0 true))
    = None \/
    (firewallHandler
       (SetFirewallHandler HandlerInspectThenVerdict (sampleConn 0 true))
     = firewallHandler (sampleConn 0 true) /\
     Inspecting
       (SetFirewallHandler HandlerInspectThenVerdict (sampleConn 0 true))
     = true)) /\
   (@defaultHandler specVerdicts quietEnv (sampleConn 0 true) dnsPacket
      initialWorld
    = Some (SetFirewallHandler HandlerInspectThenVerdict (sampleConn 0 true),
            withVerdicts [(dnsPacket, SinkDrop)]
              (withStats (mkStats 0 0 1 0) initialWorld)) ->
    firewallHandler
      (SetFirewallHandler HandlerInspectThenVerdict (sampleConn 0 true))
    = firewallHandler (sampleConn 0 true))) /\
  @initialHandler specVerdicts quietEnv (sampleConn 0 true) dnsPacket
    initialWorld
  = Some (SetFirewallHandler HandlerInspectThenVerdict (sampleConn 0 true),
          withVerdicts [(dnsPacket, SinkDrop)]
            (withStats (mkStats 0 0 1 0) initialWorld)).
Proof.
  assert (Hframe : forall c p,
            firewallHandler (fst (streamManagerHandlePacket quietEnv c p))
            = firewallHandler c) by (intros c p; reflexivity).
  split; [exact Hframe|].
  split; [|cbv; reflexivity].
  apply (@firewallHandler_progress specVerdicts quietEnv (sampleConn 0 true)
           (SetFirewallHandler HandlerInspectThenVerdict (sampleConn 0 true))
           dnsPacket initialWorld
           (withVerdicts [(dnsPacket, SinkDrop)]
              (withStats (mkStats 0 0 1 0) initialWorld)) Hframe).
Defined.

(** X10.  Permanent verdicts are stable.  On a record that is permanent and
    whose verdict is accept, block or drop, every later packet that reaches
    [defaultHandler] gets the permanent sink of that verdict, whatever the
    permanent-verdicts option says by then, and the record stays as it
    is. *)
Theorem defaultHandler_permanent_stable `{V : VerdictValues}
  (HV : verdictsDistinct V) (conn : Connection)
  (pkts : list (Env * Packet)) (w : World) :
  VerdictPermanent conn = true ->
  Verdict conn = VerdictAccept \/ Verdict conn = VerdictBlock \/
  Verdict conn = VerdictDrop ->
  exists s w',
    defaultHandlerAll conn pkts w = Some (conn, w') /\
    verdicts w' = verdicts w ++ map (fun p => (snd p, s)) pkts /\
    sinkPermanent s = true /\
    (Verdict conn = VerdictAccept -> s = SinkPermanentAccept) /\
    (Verdict conn = VerdictBlock -> s = SinkPermanentBlock) /\
    (Verdict conn = VerdictDrop -> s = SinkPermanentDrop).
Proof.
  intros Hp Hv.
  destruct (verdictsDistinct_facts V HV)
    as (F0 & FA & FB & FD & _ & _ & _ & AB & AD & _ & _ & _ & BD & _).
  set (s := if Verdict conn =? VerdictAccept then SinkPermanentAccept
            else if Verdict conn =? VerdictBlock then SinkPermanentBlock
            else SinkPermanentDrop).
  assert (Hs : sinkPermanent s = true /\
               (Verdict conn = VerdictAccept -> s = SinkPermanentAccept) /\
               (Verdict conn = VerdictBlock -> s = SinkPermanentBlock) /\
               (Verdict conn = VerdictDrop -> s = SinkPermanentDrop)).
  { unfold s. switch_cases; repeat split; intros; try reflexivity;
      exfalso; destruct Hv as [Hv | [Hv | Hv]]; congruence. }
  assert (Hstep : forall env pkt w0,
            exists w1, defaultHandler env conn pkt w0 = Some (conn, w1) /\
                       verdicts w1 = verdicts w0 ++ [(pkt, s)]).
  { intros env pkt w0. unfold defaultHandler. rewrite issueVerdict_unfold.
    assert (Ec : enablePermanent env conn true = conn).
    { rewrite enablePermanent_shape, Hp. reflexivity. }
    rewrite Ec.
    assert (Em : Z.max 0 (Verdict conn) = Verdict conn)
      by (destruct Hv as [-> | [-> | ->]]; lia).
    rewrite Em.
    destruct (applyVerdict_cases HV conn pkt (Verdict conn) w0)
      as (s' & st & Erun & HA & HB & HD & _).
    assert (Es : s' = s).
    { unfold s. destruct Hv as [E | [E | E]].
      - destruct (HA E) as [-> _]. rewrite Hp, E, Z.eqb_refl. reflexivity.
      - destruct (HB E) as [-> _]. rewrite Hp, E.
        destruct (Z.eqb_spec VerdictBlock VerdictAccept); [congruence|].
        rewrite Z.eqb_refl. reflexivity.
      - destruct (HD E) as [-> _]. rewrite Hp, E.
        destruct (Z.eqb_spec VerdictDrop VerdictAccept); [congruence|].
        destruct (Z.eqb_spec VerdictDrop VerdictBlock); [congruence|].
        reflexivity. }
    subst s'. eexists. unfold bind, ret. rewrite Erun.
    split; reflexivity. }
  exists s.
  assert (Hall : forall pkts w0,
            exists w', defaultHandlerAll conn pkts w0 = Some (conn, w') /\
                       verdicts w' = verdicts w0 ++
                                     map (fun p => (snd p, s)) pkts).
  { clear w. induction pkts0 as [|[env pkt] rest IH]; intros w0.
    - exists w0. split; [reflexivity|]. simpl. rewrite app_nil_r. reflexivity.
    - destruct (Hstep env pkt w0) as (w1 & E1 & Hv1).
      destruct (IH w1) as (w' & E2 & Hv2).
      exists w'. split.
      + cbn [defaultHandlerAll]. unfold bind at 1. rewrite E1. exact E2.
      + rewrite Hv2, Hv1. cbn [map snd]. rewrite <- app_assoc. reflexivity. }
  destruct (Hall pkts w) as (w' & E & Hvs).
  exists w'. split; [exact E|]. split; [exact Hvs|]. exact Hs.
Qed.

Lemma defaultHandler_permanent_stable_witness :
  verdictsDistinct specVerdicts /\
  VerdictPermanent (withVerdictPermanent true (sampleConn 4 false)) = true /\
  (Verdict (withVerdictPermanent true (sampleConn 4 false))
   = @VerdictAccept specVerdicts \/
   Verdict (withVerdictPermanent true (sampleConn 4 false))
   = @VerdictBlock specVerdicts \/
   Verdict (withVerdictPermanent true (sampleConn 4 false))
   = @VerdictDrop specVerdicts) /\
  exists s w',
    @defaultHandlerAll specVerdicts
      (withVerdictPermanent true (sampleConn 4 false))
      [(quietEnv, dnsPacket); (lanEnv, dnsPacket)] initialWorld
    = Some (withVerdictPermanent true (sampleConn 4 false), w') /\
    verdicts w' =
      verdicts initialWorld ++
      map (fun p => (snd p, s)) [(quietEnv, dnsPacket); (lanEnv, dnsPacket)] /\
    sinkPermanent s = true /\
    (Verdict (withVerdictPermanent true (sampleConn 4 false))
     = @VerdictAccept specVerdicts -> s = SinkPermanentAccept) /\
    (Verdict (withVerdictPermanent true (sampleConn 4 false))
     = @VerdictBlock specVerdicts -> s = SinkPermanentBlock) /\
    (Verdict (withVerdictPermanent true (sampleConn 4 false))
     = @VerdictDrop specVerdicts -> s = SinkPermanentDrop).
Proof.
  assert (Hv : Verdict (withVerdictPermanent true (sampleConn 4 false))
               = @VerdictAccept specVerdicts \/
               Verdict (withVerdictPermanent true (sampleConn 4 false))
               = @VerdictBlock specVerdicts \/
               Verdict (withVerdictPermanent true (sampleConn 4 false))
               = @VerdictDrop specVerdicts)
    by (right; left; reflexivity).
  split; [apply specVerdicts_distinct|].
  split; [reflexivity|]. split; [exact Hv|].
  apply (@defaultHandler_permanent_stable specVerdicts specVerdicts_distinct
           (withVerdictPermanent true (sampleConn 4 false))
           [(quietEnv, dnsPacket); (lanEnv, dnsPacket)] initialWorld eq_refl
           Hv).
Defined.

(** ** Package resolver *)

(** X11.  [SetLocalAddrFactory] is set-once without an error: after any
    series of registrations the factory in use is the one that was there
    before, if any, and else the first registration that was not nil;
    registering nil does not take the slot, and [getLocalAddr] answers nil
    while no factory is set. *)
Theorem SetLocalAddrFactory_first_wins
  (lafs : list (option LocalAddrFactory))
  (current : option LocalAddrFactory) (network : string) :
  setLocalAddrFactories lafs current =
    match current with
    | Some f => Some f
    | None => firstFactory lafs
    end /\
  (forall f, current = Some f ->
     getLocalAddr (setLocalAddrFactories lafs current) network = f network) /\
  (current = None -> firstFactory lafs = None ->
     getLocalAddr (setLocalAddrFactories lafs current) network = None) /\
  setLocalAddrFactories (None :: lafs) None = setLocalAddrFactories lafs None.
Proof.
  assert (H : forall l cur,
            setLocalAddrFactories l cur =
            match cur with Some f => Some f | None => firstFactory l end).
  { induction l as [|laf l IH]; intros cur.
    - destruct cur; reflexivity.
    - unfold setLocalAddrFactories in *. cbn [fold_left]. rewrite IH.
      destruct cur as [f|]; [reflexivity|].
      destruct laf as [g|]; reflexivity. }
  split; [apply H|]. split; [|split].
  - intros f ->. rewrite H. reflexivity.
  - intros -> Hn. rewrite H, Hn. reflexivity.
  - reflexivity.
Qed.

Lemma last_cons_default {A : Type} (l : list A) (a d d' : A) :
  List.last (a :: l) d = List.last (a :: l) d'.
Proof.
  revert a. induction l as [|b l IH]; intros a; [reflexivity|].
  change (List.last (a :: b :: l) d) with (List.last (b :: l) d).
  change (List.last (a :: b :: l) d') with (List.last (b :: l) d').
  apply IH.
Qed.

(** X12.  The config-change hook keeps the space-joined nameserver list of
    the configuration it saw last, whether it reloaded or not, and calls
    [loadResolvers] exactly at the events at which that text differs from
    the one before: a repeated configuration never reloads, and neither
    does a different list with the same joined text. *)
Theorem configChangeHook_reloads (initial : list string)
  (configs : list (list string)) :
  let st := runConfigChanges configs (resolverStart initial) in
  prevNameservers st = Join (List.last configs initial) " " /\
  loadResolversCalls st
  = (1 + joinedChanges (Join initial " ") configs)%nat /\
  (forall c, configChangeHook c (configChangeHook c st)
             = configChangeHook c st) /\
  (forall c, Join c " " = prevNameservers st -> configChangeHook c st = st).
Proof.
  assert (H : forall cs st,
            prevNameservers (runConfigChanges cs st)
            = match cs with
              | [] => prevNameservers st
              | _ => Join (List.last cs []) " "
              end /\
            loadResolversCalls (runConfigChanges cs st)
            = (loadResolversCalls st
               + joinedChanges (prevNameservers st) cs)%nat).
  { induction cs as [|c cs IH]; intros st.
    - simpl. split; [reflexivity | lia].
    - unfold runConfigChanges in *. cbn [fold_left].
      destruct (IH (configChangeHook c st)) as [IHp IHl].
      rewrite IHp, IHl. cbn [joinedChanges].
      unfold configChangeHook.
      destruct (String.eqb_spec (Join c " ") (prevNameservers st)) as [E|NE];
        simpl.
      + split; [destruct cs; [symmetry; exact E | reflexivity]|].
        rewrite E. lia.
      + split; [destruct cs; reflexivity | lia]. }
  intros st. unfold st.
  destruct (H configs (resolverStart initial)) as [Hp Hl].
  assert (Hidem : forall c s, Join c " " = prevNameservers s ->
                              configChangeHook c s = s).
  { intros c s E. unfold configChangeHook. rewrite E, String.eqb_refl.
    reflexivity. }
  split; [|split; [|split]].
  - rewrite Hp. destruct configs as [|c cs]; [reflexivity|].
    f_equal. apply last_cons_default.
  - rewrite Hl. reflexivity.
  - intros c. apply Hidem. unfold configChangeHook.
    destruct (String.eqb_spec (Join c " ")
                (prevNameservers
                   (runConfigChanges configs (resolverStart initial))));
      simpl; [assumption | reflexivity].
  - intros c E. apply Hidem. exact E.
Qed.

Example joined_text_collision :
  configChangeHook ["10.0.0.1"; "10.0.0.2"]
    (resolverStart ["10.0.0.1 10.0.0.2"])
  = resolverStart ["10.0.0.1 10.0.0.2"].
Proof. reflexivity. Qed.

(** ** Package interception: the nfqueue firewall rules *)

Example Split_rule :
  Split "nat OUTPUT -m mark --mark 1799 -p udp -j DNAT --to 127.0.0.17:53"
    Ascii.Space
  = ["nat"; "OUTPUT"; "-m"; "mark"; "--mark"; "1799"; "-p"; "udp"; "-j";
     "DNAT"; "--to"; "127.0.0.17:53"].
Proof. reflexivity. Qed.

Example Split_edges :
  Split "" Ascii.Space = [""] /\ Split "C17" Ascii.Space = ["C17"] /\
  Split "a  b " Ascii.Space = ["a"; ""; "b"; ""] /\
  ruleFields "C17" = None /\ ruleFields "filter C17" = Some ("filter", "C17", []).
Proof. repeat split; reflexivity. Qed.

Lemma replyErrors_app (a b : IPTLog) :
  replyErrors (a ++ b) = replyErrors a ++ replyErrors b.
Proof. unfold replyErrors. apply flat_map_app. Qed.

Lemma countOp_app (op : IPTOp) (a b : IPTLog) :
  countOp op (a ++ b) = (countOp op a + countOp op b)%nat.
Proof. unfold countOp. rewrite List.filter_app, length_app. reflexivity. Qed.

Lemma countExists_app (answer : bool) (a b : IPTLog) :
  countExists answer (a ++ b)
  = (countExists answer a + countExists answer b)%nat.
Proof. unfold countExists. rewrite List.filter_app, length_app. reflexivity. Qed.

Lemma stopsAtFirstError_app (a b : IPTLog) (res : option error) :
  replyErrors a = [] -> stopsAtFirstError b res ->
  stopsAtFirstError (a ++ b) res.
Proof.
  intros Ha. destruct res as [e|]; simpl.
  - intros (before & call & reply & -> & Hb & Hr).
    exists (a ++ before), call, reply.
    rewrite app_assoc, replyErrors_app, Ha, Hb. repeat split; assumption.
  - intros Hb. rewrite replyErrors_app, Ha, Hb. reflexivity.
Qed.

Lemma stopsAtFirstError_call (c : IPTCall) (r : IPTReply) (e : error) :
  replyErr r = Some e -> stopsAtFirstError [(c, r)] (Some e).
Proof. intros Hr. exists [], c, r. repeat split; assumption. Qed.

Lemma replyErrors_ok (c : IPTCall) (r : IPTReply) :
  replyErr r = None -> replyErrors [(c, r)] = [].
Proof. intros Hr. unfold replyErrors. simpl. rewrite Hr. reflexivity. Qed.

Lemma iptCall_run (B : IPTBackend) (c : IPTCall) (log : IPTLog) :
  iptCall B c log = Some (B log c, log ++ [(c, B log c)]).
Proof. reflexivity. Qed.

(** A loop over well-formed lines that calls one operation per line and
    returns at the first error. *)
Lemma clearChains_run (B : IPTBackend) (chains : list string) :
  wellFormedRules chains ->
  forall log, exists res new,
    clearChains B chains log = Some (res, log ++ new) /\
    stopsAtFirstError new res /\
    Forall (fun entry => isOp OpClearChain entry = true) new /\
    (res = None -> length new = length chains).
Proof.
  induction 1 as [|chain rest Hwf _ IH]; intros log.
  - exists None, []. rewrite app_nil_r. repeat split; constructor.
  - cbn [clearChains].
    destruct (ruleFields chain) as [[[table name] spec]|]; [|congruence].
    unfold iptBind. rewrite iptCall_run.
    set (c := IptClearChain table name). set (r := B log c).
    destruct (replyErr r) as [e|] eqn:Hr.
    + exists (Some e), [(c, r)]. split; [reflexivity|].
      split; [apply stopsAtFirstError_call, Hr|].
      split; [repeat constructor | discriminate].
    + destruct (IH (log ++ [(c, r)])) as (res & new & E & Hs & Hk & Hl).
      exists res, ((c, r) :: new). rewrite E, <- app_assoc.
      split; [reflexivity|].
      split; [apply (stopsAtFirstError_app [(c, r)]);
              [apply replyErrors_ok, Hr | exact Hs]|].
      split; [constructor; [reflexivity | exact Hk]|].
      intros Hn. simpl. rewrite (Hl Hn). reflexivity.
Qed.

Lemma appendRules_run (B : IPTBackend) (rules : list string) :
  wellFormedRules rules ->
  forall log, exists res new,
    appendRules B rules log = Some (res, log ++ new) /\
    stopsAtFirstError new res /\
    Forall (fun entry => isOp OpAppend entry = true) new /\
    (res = None -> length new = length rules).
Proof.
  induction 1 as [|rule rest Hwf _ IH]; intros log.
  - exists None, []. rewrite app_nil_r. repeat split; constructor.
  - cbn [appendRules].
    destruct (ruleFields rule) as [[[table chain] spec]|]; [|congruence].
    unfold iptBind. rewrite iptCall_run.
    set (c := IptAppend table chain spec). set (r := B log c).
    destruct (replyErr r) as [e|] eqn:Hr.
    + exists (Some e), [(c, r)]. split; [reflexivity|].
      split; [apply stopsAtFirstError_call, Hr|].
      split; [repeat constructor | discriminate].
    + destruct (IH (log ++ [(c, r)])) as (res & new & E & Hs & Hk & Hl).
      exists res, ((c, r) :: new). rewrite E, <- app_assoc.
      split; [reflexivity|].
      split; [apply (stopsAtFirstError_app [(c, r)]);
              [apply replyErrors_ok, Hr | exact Hs]|].
      split; [constructor; [reflexivity | exact Hk]|].
      intros Hn. simpl. rewrite (Hl Hn). reflexivity.
Qed.

Lemma insertOnce_run (B : IPTBackend) (once : list string) :
  wellFormedRules once ->
  forall log, exists res new,
    insertOnce B once log = Some (res, log ++ new) /\
    stopsAtFirstError new res /\
    Forall (fun entry => isOp OpExists entry || isOp OpInsert entry = true)
      new /\
    insertsAtHead new /\
    (res = None ->
     countOp OpExists new = length once /\
     countOp OpInsert new = countExists false new).
Proof.
  induction 1 as [|rule rest Hwf _ IH]; intros log.
  - exists None, []. rewrite app_nil_r.
    repeat split; try constructor.
  - cbn [insertOnce].
    destruct (ruleFields rule) as [[[table chain] spec]|]; [|congruence].
    unfold iptBind at 1. rewrite iptCall_run.
    set (c := IptExists table chain spec). set (r := B log c).
    destruct (replyErr r) as [e|] eqn:Hr.
    + exists (Some e), [(c, r)]. split; [reflexivity|].
      split; [apply stopsAtFirstError_call, Hr|].
      split; [repeat constructor|]. split; [repeat constructor|].
      discriminate.
    + destruct (replyOk r) eqn:Hok; cbn [negb].
      * destruct (IH (log ++ [(c, r)]))
          as (res & new & E & Hs & Hk & Hh & Hc).
        exists res, ((c, r) :: new). rewrite E, <- app_assoc.
        split; [reflexivity|].
        split; [apply (stopsAtFirstError_app [(c, r)]);
                [apply replyErrors_ok, Hr | exact Hs]|].
        split; [constructor; [reflexivity | exact Hk]|].
        split; [constructor; [exact I | exact Hh]|].
        intros Hn. destruct (Hc Hn) as [Hc1 Hc2].
        change ((c, r) :: new) with ([(c, r)] ++ new).
        rewrite !countOp_app, countExists_app, Hc1, Hc2.
        unfold countOp, countExists. simpl. rewrite Hok. simpl.
        split; reflexivity.
      * unfold iptBind. rewrite iptCall_run.
        set (c' := IptInsert table chain 1 spec).
        set (r' := B (log ++ [(c, r)]) c').
        destruct (replyErr r') as [e|] eqn:Hr'.
        -- exists (Some e), [(c, r); (c', r')]. rewrite <- app_assoc.
           split; [reflexivity|].
           split; [apply (stopsAtFirstError_app [(c, r)] [(c', r')]);
                   [apply replyErrors_ok, Hr
                   | apply stopsAtFirstError_call, Hr']|].
           split; [repeat constructor|].
           split; [repeat constructor | discriminate].
        -- destruct (IH ((log ++ [(c, r)]) ++ [(c', r')]))
             as (res & new & E & Hs & Hk & Hh & Hc).
           exists res, ((c, r) :: (c', r') :: new).
           rewrite E, <- !app_assoc.
           split; [reflexivity|].
           split; [apply (stopsAtFirstError_app [(c, r); (c', r')]);
                   [unfold replyErrors; simpl; rewrite Hr, Hr'; reflexivity
                   | exact Hs]|].
           split; [repeat (constructor; [reflexivity|]); exact Hk|].
           split; [constructor; [exact I|];
                   constructor; [reflexivity | exact Hh]|].
           intros Hn. destruct (Hc Hn) as [Hc1 Hc2].
           change ((c, r) :: (c', r') :: new)
             with ([(c, r); (c', r')] ++ new).
           rewrite !countOp_app, countExists_app, Hc1, Hc2.
           unfold countOp, countExists. simpl. rewrite Hok. simpl.
           split; reflexivity.
Qed.

Lemma activateIPTables_run (B : IPTBackend) (protocol : IPTProtocol)
  (rules once chains : list string) (log : IPTLog) :
  wellFormedRules rules -> wellFormedRules once -> wellFormedRules chains ->
  exists res reply cleared appended inserted,
    activateIPTables B protocol rules once chains log
    = Some (res, log ++ (IptNewWithProtocol protocol, reply)
                         :: cleared ++ appended ++ inserted) /\
    stopsAtFirstError
      ((IptNewWithProtocol protocol, reply) :: cleared ++ appended ++ inserted)
      res /\
    Forall (fun entry => isOp OpClearChain entry = true) cleared /\
    Forall (fun entry => isOp OpAppend entry = true) appended /\
    Forall (fun entry => isOp OpExists entry || isOp OpInsert entry = true)
      inserted /\
    insertsAtHead inserted /\
    (res = None ->
     length cleared = length chains /\
     length appended = length rules /\
     countOp OpExists inserted = length once /\
     countOp OpInsert inserted = countExists false inserted).
Proof.
  intros Hr Ho Hc. unfold activateIPTables.
  unfold iptBind at 1. rewrite iptCall_run.
  set (c0 := IptNewWithProtocol protocol). set (r0 := B log c0).
  destruct (replyErr r0) as [e|] eqn:H0.
  { exists (Some e), r0, [], [], []. split; [reflexivity|].
    split; [apply stopsAtFirstError_call, H0|].
    repeat split; try constructor; discriminate. }
  destruct (clearChains_run B chains Hc (log ++ [(c0, r0)]))
    as (res1 & n1 & E1 & Hs1 & Hk1 & Hl1).
  unfold iptBind at 1. rewrite E1.
  destruct res1 as [e|].
  { exists (Some e), r0, n1, [], []. rewrite <- app_assoc, !app_nil_r.
    split; [reflexivity|].
    split; [apply (stopsAtFirstError_app [(c0, r0)]);
            [apply replyErrors_ok, H0 | exact Hs1]|].
    repeat split; try constructor; try assumption; discriminate. }
  destruct (appendRules_run B rules Hr ((log ++ [(c0, r0)]) ++ n1))
    as (res2 & n2 & E2 & Hs2 & Hk2 & Hl2).
  unfold iptBind at 1. rewrite E2.
  assert (He1 : replyErrors ([(c0, r0)] ++ n1) = []).
  { rewrite replyErrors_app, (replyErrors_ok _ _ H0). exact Hs1. }
  destruct res2 as [e|].
  { exists (Some e), r0, n1, n2, []. rewrite <- !app_assoc, app_nil_r.
    split; [reflexivity|].
    split; [apply (stopsAtFirstError_app ([(c0, r0)] ++ n1));
            [exact He1 | exact Hs2]|].
    repeat split; try constructor; try assumption; discriminate. }
  destruct (insertOnce_run B once Ho (((log ++ [(c0, r0)]) ++ n1) ++ n2))
    as (res3 & n3 & E3 & Hs3 & Hk3 & Hh3 & Hc3).
  rewrite E3.
  exists res3, r0, n1, n2, n3. rewrite <- !app_assoc.
  split; [reflexivity|].
  split.
  { change ((c0, r0) :: n1 ++ n2 ++ n3)
      with ([(c0, r0)] ++ n1 ++ n2 ++ n3).
    rewrite !app_assoc. apply stopsAtFirstError_app; [|exact Hs3].
    rewrite replyErrors_app, He1. exact Hs2. }
  repeat split; try assumption.
  - apply Hl1. reflexivity.
  - apply Hl2. reflexivity.
  - apply Hc3. assumption.
  - apply Hc3. assumption.
Qed.

Lemma answeredBy_app (B : IPTBackend) (log a b : IPTLog) :
  answeredBy B log (a ++ b) <->
  answeredBy B log a /\ answeredBy B (log ++ a) b.
Proof.
  revert log. induction a as [|[c r] a IH]; intros log; simpl.
  - rewrite app_nil_r. tauto.
  - rewrite IH, <- app_assoc. simpl. tauto.
Qed.

Lemma existsAnswers_app (a b : IPTLog) :
  existsAnswers (a ++ b) = existsAnswers a ++ existsAnswers b.
Proof. unfold existsAnswers. rewrite List.filter_app, map_app. reflexivity. Qed.

(** The calls of the three loops of [activateIPTables]. *)
Lemma clearChains_calls (B : IPTBackend) (chains : list string) :
  forall log res log',
    clearChains B chains log = Some (res, log') ->
    exists new rest,
      log' = log ++ new /\ answeredBy B log new /\ existsAnswers new = [] /\
      clearCalls chains = map fst new ++ rest /\ (res = None -> rest = []).
Proof.
  induction chains as [|chain chains IH]; intros log res log' E.
  - inversion E; subst. exists [], []. rewrite app_nil_r.
    repeat split; reflexivity.
  - cbn [clearChains] in E. unfold clearCalls. cbn [flat_map].
    fold (clearCalls chains).
    destruct (ruleFields chain) as [[[table name] spec]|]; [|discriminate].
    unfold iptBind in E. rewrite iptCall_run in E.
    set (c := IptClearChain table name) in *. set (r := B log c) in *.
    destruct (replyErr r) as [e|] eqn:Hr.
    + inversion E; subst. exists [(c, r)], (clearCalls chains).
      repeat split; try reflexivity. discriminate.
    + apply IH in E. destruct E as (new & rest & -> & Ha & He & Hc & Hn).
      exists ((c, r) :: new), rest. rewrite <- app_assoc.
      split; [reflexivity|]. split; [split; [reflexivity | exact Ha]|].
      split; [exact He|]. split; [simpl; rewrite Hc; reflexivity | exact Hn].
Qed.

Lemma appendRules_calls (B : IPTBackend) (rules : list string) :
  forall log res log',
    appendRules B rules log = Some (res, log') ->
    exists new rest,
      log' = log ++ new /\ answeredBy B log new /\ existsAnswers new = [] /\
      appendCalls rules = map fst new ++ rest /\ (res = None -> rest = []).
Proof.
  induction rules as [|rule rules IH]; intros log res log' E.
  - inversion E; subst. exists [], []. rewrite app_nil_r.
    repeat split; reflexivity.
  - cbn [appendRules] in E. unfold appendCalls. cbn [flat_map].
    fold (appendCalls rules).
    destruct (ruleFields rule) as [[[table chain] spec]|]; [|discriminate].
    unfold iptBind in E. rewrite iptCall_run in E.
    set (c := IptAppend table chain spec) in *. set (r := B log c) in *.
    destruct (replyErr r) as [e|] eqn:Hr.
    + inversion E; subst. exists [(c, r)], (appendCalls rules).
      repeat split; try reflexivity. discriminate.
    + apply IH in E. destruct E as (new & rest & -> & Ha & He & Hc & Hn).
      exists ((c, r) :: new), rest. rewrite <- app_assoc.
      split; [reflexivity|]. split; [split; [reflexivity | exact Ha]|].
      split; [exact He|]. split; [simpl; rewrite Hc; reflexivity | exact Hn].
Qed.

Lemma insertOnce_calls (B : IPTBackend) (once : list string) :
  forall log res log',
    insertOnce B once log = Some (res, log') ->
    exists new rest,
      log' = log ++ new /\ answeredBy B log new /\
      insertCalls once (existsAnswers new) = map fst new ++ rest /\
      (res = None -> rest = []).
Proof.
  induction once as [|rule once IH]; intros log res log' E.
  - inversion E; subst. exists [], []. rewrite app_nil_r.
    repeat split; reflexivity.
  - cbn [insertOnce] in E. cbn [insertCalls].
    destruct (ruleFields rule) as [[[table chain] spec]|]; [|discriminate].
    unfold iptBind at 1 in E. rewrite iptCall_run in E.
    set (c := IptExists table chain spec) in *. set (r := B log c) in *.
    destruct (replyErr r) as [e|] eqn:Hr.
    { inversion E; subst. exists [(c, r)]. eexists.
      split; [reflexivity|]. split; [split; [reflexivity | exact I]|].
      split; [reflexivity | discriminate]. }
    destruct (replyOk r) eqn:Hok; cbn [negb] in E.
    + apply IH in E. destruct E as (new & rest & -> & Ha & Hc & Hn).
      exists ((c, r) :: new), rest. rewrite <- app_assoc.
      split; [reflexivity|]. split; [split; [reflexivity | exact Ha]|].
      split; [|exact Hn].
      change (existsAnswers ((c, r) :: new))
        with (replyOk r :: existsAnswers new).
      rewrite Hok, Hc. reflexivity.
    + unfold iptBind in E. rewrite iptCall_run in E.
      set (c' := IptInsert table chain 1 spec) in *.
      set (r' := B (log ++ [(c, r)]) c') in *.
      destruct (replyErr r') as [e|] eqn:Hr'.
      { inversion E; subst. exists [(c, r); (c', r')]. eexists.
        rewrite <- app_assoc. split; [reflexivity|].
        split; [split; [reflexivity | split; [reflexivity | exact I]]|].
        split; [|discriminate].
        change (existsAnswers [(c, r); (c', r')]) with [replyOk r].
        rewrite Hok. reflexivity. }
      apply IH in E. destruct E as (new & rest & -> & Ha & Hc & Hn).
      exists ((c, r) :: (c', r') :: new), rest. rewrite <- !app_assoc.
      split; [reflexivity|].
      split; [split; [reflexivity | split; [reflexivity | exact Ha]]|].
      split; [|exact Hn].
      change (existsAnswers ((c, r) :: (c', r') :: new))
        with (replyOk r :: existsAnswers new).
      rewrite Hok, Hc. reflexivity.
Qed.

Lemma activateIPTables_calls (B : IPTBackend) (protocol : IPTProtocol)
  (rules once chains : list string) (log : IPTLog) (res : option error)
  (log' : IPTLog) :
  activateIPTables B protocol rules once chains log = Some (res, log') ->
  exists new rest,
    log' = log ++ new /\ answeredBy B log new /\
    activateCalls protocol rules once chains (existsAnswers new)
    = map fst new ++ rest /\
    (res = None -> rest = []).
Proof.
  unfold activateIPTables, activateCalls.
  unfold iptBind at 1. rewrite iptCall_run.
  set (c0 := IptNewWithProtocol protocol). set (r0 := B log c0).
  destruct (replyErr r0) as [e|] eqn:H0.
  { intros E. inversion E; subst. exists [(c0, r0)]. eexists.
    split; [reflexivity|]. split; [split; [reflexivity | exact I]|].
    split; [reflexivity | discriminate]. }
  unfold iptBind at 1.
  destruct (clearChains B chains (log ++ [(c0, r0)])) as [[res1 l1]|] eqn:E1;
    [|discriminate].
  apply clearChains_calls in E1.
  destruct E1 as (n1 & rest1 & -> & Ha1 & He1 & Hc1 & Hn1).
  destruct res1 as [e|].
  { intros E. inversion E; subst.
    exists ((c0, r0) :: n1),
      (rest1 ++ appendCalls rules ++
       insertCalls once (existsAnswers ((c0, r0) :: n1))).
    rewrite <- app_assoc. split; [reflexivity|].
    split; [split; [reflexivity | exact Ha1]|].
    split; [|discriminate].
    cbn [map fst]. rewrite Hc1.
    rewrite <- ?app_comm_cons, <- ?app_assoc. reflexivity. }
  rewrite (Hn1 eq_refl), app_nil_r in Hc1.
  unfold iptBind at 1.
  destruct (appendRules B rules ((log ++ [(c0, r0)]) ++ n1))
    as [[res2 l2]|] eqn:E2; [|discriminate].
  apply appendRules_calls in E2.
  destruct E2 as (n2 & rest2 & -> & Ha2 & He2 & Hc2 & Hn2).
  destruct res2 as [e|].
  { intros E. inversion E; subst.
    exists ((c0, r0) :: n1 ++ n2),
      (rest2 ++ insertCalls once (existsAnswers ((c0, r0) :: n1 ++ n2))).
    rewrite <- !app_assoc. split; [reflexivity|].
    split; [split; [reflexivity|]; apply answeredBy_app; split; assumption|].
    split; [|discriminate].
    cbn [map fst]. rewrite Hc1, Hc2, map_app.
    rewrite <- ?app_comm_cons, <- ?app_assoc. reflexivity. }
  rewrite (Hn2 eq_refl), app_nil_r in Hc2.
  intros E. apply insertOnce_calls in E.
  destruct E as (n3 & rest3 & -> & Ha3 & Hc3 & Hn3).
  exists ((c0, r0) :: n1 ++ n2 ++ n3), rest3. rewrite <- !app_assoc.
  split; [reflexivity|].
  split.
  { split; [reflexivity|]. apply answeredBy_app. split; [exact Ha1|].
    apply answeredBy_app. split; assumption. }
  split; [|exact Hn3].
  change ((c0, r0) :: n1 ++ n2 ++ n3) with ([(c0, r0)] ++ n1 ++ n2 ++ n3).
  rewrite !existsAnswers_app, He1, He2.
  change (existsAnswers [(c0, r0)]) with (@nil bool).
  cbn [app map fst]. rewrite Hc1, Hc2, Hc3, !map_app.
  rewrite <- ?app_comm_cons, <- ?app_assoc. reflexivity.
Qed.

(** X13.  [activateIPTables] returns the first error.  On lines that have
    the two fields the code indexes it never panics.  The calls it makes
    are, in this order: the tables are opened for the protocol; every chain
    line is cleared, on its own table and chain; every rule line is
    appended, with its own table, chain and rulespec; for every once-rule
    it is asked whether the rule exists and, when the answer is no, that
    same rule is inserted at position 1.  Each call is answered by iptables
    as it then is.  The first call that fails ends the run and its error is
    the result: no call is made after it; when no call fails the result is
    nil and all the calls were made.  The fields are needed: with a first
    chain line that has no second field, the run panics as soon as the
    tables are open. *)
Theorem activateIPTables_first_error (B : IPTBackend)
  (protocol : IPTProtocol) (rules once chains : list string) (log : IPTLog) :
  wellFormedRules rules -> wellFormedRules once -> wellFormedRules chains ->
  (exists res new rest,
     activateIPTables B protocol rules once chains log
     = Some (res, log ++ new) /\
     answeredBy B log new /\
     stopsAtFirstError new res /\
     activateCalls protocol rules once chains (existsAnswers new)
     = map fst new ++ rest /\
     (res = None -> rest = [])) /\
  (forall bad : string,
     ruleFields bad = None ->
     replyErr (B log (IptNewWithProtocol protocol)) = None ->
     activateIPTables B protocol rules once (bad :: chains) log = None).
Proof.
  intros Hr Ho Hc. split.
  - destruct (activateIPTables_run B protocol rules once chains log Hr Ho Hc)
      as (res & reply & cleared & appended & inserted & E & Hs & _).
    destruct (activateIPTables_calls _ _ _ _ _ _ _ _ E)
      as (new & rest & Heq & Ha & Hp & Hn).
    apply app_inv_head in Heq. subst new.
    exists res, ((IptNewWithProtocol protocol, reply)
                 :: cleared ++ appended ++ inserted), rest.
    split; [exact E|]. split; [exact Ha|]. split; [exact Hs|].
    split; assumption.
  - intros bad Hbad Hopen. unfold activateIPTables.
    unfold iptBind at 1. rewrite iptCall_run, Hopen.
    unfold iptBind at 1. cbn [clearChains]. rewrite Hbad. reflexivity.
Qed.

Lemma deleteRules_run (B : IPTBackend) (rules : list string) :
  wellFormedRules rules ->
  forall multierr log, exists new,
    deleteRules B rules multierr log
    = Some (multierr ++ replyErrors new, log ++ new) /\
    Forall (fun entry => isOp OpExists entry || isOp OpDelete entry = true)
      new /\
    countOp OpExists new = length rules /\
    countOp OpDelete new = countExists true new.
Proof.
  induction 1 as [|rule rest Hwf _ IH]; intros multierr log.
  - exists []. simpl. unfold iptRet. rewrite !app_nil_r.
    repeat split; constructor.
  - cbn [deleteRules].
    destruct (ruleFields rule) as [[[table chain] spec]|]; [|congruence].
    unfold iptBind at 1. rewrite iptCall_run.
    set (c := IptExists table chain spec). set (r := B log c).
    destruct (replyOk r) eqn:Hok.
    + unfold iptBind. rewrite iptCall_run.
      set (c' := IptDelete table chain spec).
      set (r' := B (log ++ [(c, r)]) c').
      destruct (IH (appendError (appendError multierr (replyErr r))
                      (replyErr r')) ((log ++ [(c, r)]) ++ [(c', r')]))
        as (new & E & Hk & Hc1 & Hc2).
      exists ((c, r) :: (c', r') :: new). rewrite E, <- !app_assoc.
      split.
      { f_equal. f_equal.
        change ((c, r) :: (c', r') :: new) with ([(c, r); (c', r')] ++ new).
        rewrite replyErrors_app, app_assoc. f_equal.
        unfold replyErrors, appendError. simpl.
        destruct (replyErr r), (replyErr r'); simpl;
          rewrite <- ?app_assoc, ?app_nil_r; reflexivity. }
      split; [repeat (constructor; [reflexivity|]); exact Hk|].
      change ((c, r) :: (c', r') :: new) with ([(c, r); (c', r')] ++ new).
      rewrite !countOp_app, countExists_app, Hc1, Hc2.
      unfold countOp, countExists. simpl. rewrite Hok. simpl.
      split; reflexivity.
    + destruct (IH (appendError multierr (replyErr r)) (log ++ [(c, r)]))
        as (new & E & Hk & Hc1 & Hc2).
      exists ((c, r) :: new). rewrite E, <- !app_assoc.
      split.
      { f_equal. f_equal.
        change ((c, r) :: new) with ([(c, r)] ++ new).
        rewrite replyErrors_app, app_assoc. f_equal.
        unfold replyErrors, appendError. simpl.
        destruct (replyErr r); simpl; rewrite ?app_nil_r; reflexivity. }
      split; [constructor; [reflexivity | exact Hk]|].
      change ((c, r) :: new) with ([(c, r)] ++ new).
      rewrite !countOp_app, countExists_app, Hc1, Hc2.
      unfold countOp, countExists. simpl. rewrite Hok. simpl.
      split; reflexivity.
Qed.

Lemma deleteChains_run (B : IPTBackend) (chains : list string) :
  wellFormedRules chains ->
  forall multierr log, exists new,
    deleteChains B chains multierr log
    = Some (multierr ++ replyErrors new, log ++ new) /\
    Forall (fun entry =>
              isOp OpClearChain entry || isOp OpDeleteChain entry = true) new /\
    countOp OpClearChain new = length chains /\
    countOp OpDeleteChain new = length chains.
Proof.
  induction 1 as [|chain rest Hwf _ IH]; intros multierr log.
  - exists []. simpl. unfold iptRet. rewrite !app_nil_r.
    repeat split; constructor.
  - cbn [deleteChains].
    destruct (ruleFields chain) as [[[table name] spec]|]; [|congruence].
    unfold iptBind. rewrite !iptCall_run.
    set (c := IptClearChain table name). set (r := B log c).
    set (c' := IptDeleteChain table name).
    set (r' := B (log ++ [(c, r)]) c').
    destruct (IH (appendError (appendError multierr (replyErr r))
                    (replyErr r')) ((log ++ [(c, r)]) ++ [(c', r')]))
      as (new & E & Hk & Hc1 & Hc2).
    exists ((c, r) :: (c', r') :: new). rewrite E, <- !app_assoc.
    split.
    { f_equal. f_equal.
      change ((c, r) :: (c', r') :: new) with ([(c, r); (c', r')] ++ new).
      rewrite replyErrors_app, app_assoc. f_equal.
      unfold replyErrors, appendError. simpl.
      destruct (replyErr r), (replyErr r'); simpl;
        rewrite <- ?app_assoc, ?app_nil_r; reflexivity. }
    split; [repeat (constructor; [reflexivity|]); exact Hk|].
    change ((c, r) :: (c', r') :: new) with ([(c, r); (c', r')] ++ new).
    rewrite !countOp_app, Hc1, Hc2. split; reflexivity.
Qed.

Lemma deactivateIPTables_run (B : IPTBackend) (protocol : IPTProtocol)
  (rules chains : list string) (log : IPTLog) :
  wellFormedRules rules -> wellFormedRules chains ->
  exists reply deleted removed,
    deactivateIPTables B protocol rules chains log
    = Some (replyErrors ((IptNewWithProtocol protocol, reply)
                           :: deleted ++ removed),
            log ++ (IptNewWithProtocol protocol, reply)
                     :: deleted ++ removed) /\
    Forall (fun entry => isOp OpExists entry || isOp OpDelete entry = true)
      deleted /\
    Forall (fun entry =>
              isOp OpClearChain entry || isOp OpDeleteChain entry = true)
      removed /\
    (replyErr reply <> None -> deleted = [] /\ removed = []) /\
    (replyErr reply = None ->
     countOp OpExists deleted = length rules /\
     countOp OpDelete deleted = countExists true deleted /\
     countOp OpClearChain removed = length chains /\
     countOp OpDeleteChain removed = length chains).
Proof.
  intros Hr Hc. unfold deactivateIPTables.
  unfold iptBind at 1. rewrite iptCall_run.
  set (c0 := IptNewWithProtocol protocol). set (r0 := B log c0).
  destruct (replyErr r0) as [e|] eqn:H0.
  { exists r0, [], []. split.
    - unfold iptRet, replyErrors. simpl. rewrite H0. reflexivity.
    - split; [constructor|]. split; [constructor|].
      split; [intros _; split; reflexivity | intros Hn; congruence]. }
  destruct (deleteRules_run B rules Hr [] (log ++ [(c0, r0)]))
    as (n1 & E1 & Hk1 & Hc1 & Hd1).
  unfold iptBind. rewrite E1.
  destruct (deleteChains_run B chains Hc ([] ++ replyErrors n1)
              ((log ++ [(c0, r0)]) ++ n1))
    as (n2 & E2 & Hk2 & Hc2 & Hd2).
  rewrite E2. exists r0, n1, n2. rewrite <- !app_assoc.
  split.
  { f_equal. f_equal.
    change ((c0, r0) :: n1 ++ n2) with ([(c0, r0)] ++ n1 ++ n2).
    rewrite !replyErrors_app, (replyErrors_ok _ _ H0). reflexivity. }
  split; [exact Hk1|]. split; [exact Hk2|].
  split; [intros Hn; congruence|].
  intros _. repeat split; assumption.
Qed.

(** The calls of the two loops of [deactivateIPTables]. *)
Lemma deleteRules_calls (B : IPTBackend) (rules : list string) :
  forall multierr log errs log',
    deleteRules B rules multierr log = Some (errs, log') ->
    exists new,
      log' = log ++ new /\ answeredBy B log new /\
      deleteCalls rules (existsAnswers new) = map fst new.
Proof.
  induction rules as [|rule rules IH]; intros multierr log errs log' E.
  - inversion E; subst. exists []. rewrite app_nil_r.
    repeat split; reflexivity.
  - cbn [deleteRules] in E. cbn [deleteCalls].
    destruct (ruleFields rule) as [[[table chain] spec]|]; [|discriminate].
    unfold iptBind at 1 in E. rewrite iptCall_run in E.
    set (c := IptExists table chain spec) in *. set (r := B log c) in *.
    cbv zeta in E.
    destruct (replyOk r) eqn:Hok.
    + unfold iptBind in E. rewrite iptCall_run in E.
      set (c' := IptDelete table chain spec) in *.
      set (r' := B (log ++ [(c, r)]) c') in *.
      apply IH in E. destruct E as (new & -> & Ha & Hc).
      exists ((c, r) :: (c', r') :: new). rewrite <- !app_assoc.
      split; [reflexivity|].
      split; [split; [reflexivity | split; [reflexivity | exact Ha]]|].
      change (existsAnswers ((c, r) :: (c', r') :: new))
        with (replyOk r :: existsAnswers new).
      rewrite Hok, Hc. reflexivity.
    + apply IH in E. destruct E as (new & -> & Ha & Hc).
      exists ((c, r) :: new). rewrite <- app_assoc.
      split; [reflexivity|]. split; [split; [reflexivity | exact Ha]|].
      change (existsAnswers ((c, r) :: new))
        with (replyOk r :: existsAnswers new).
      rewrite Hok, Hc. reflexivity.
Qed.

Lemma deleteChains_calls (B : IPTBackend) (chains : list string) :
  forall multierr log errs log',
    deleteChains B chains multierr log = Some (errs, log') ->
    exists new,
      log' = log ++ new /\ answeredBy B log new /\ existsAnswers new = [] /\
      removeCalls chains = map fst new.
Proof.
  induction chains as [|chain chains IH]; intros multierr log errs log' E.
  - inversion E; subst. exists []. rewrite app_nil_r.
    repeat split; reflexivity.
  - cbn [deleteChains] in E. unfold removeCalls. cbn [flat_map].
    fold (removeCalls chains).
    destruct (ruleFields chain) as [[[table name] spec]|]; [|discriminate].
    unfold iptBind in E. rewrite !iptCall_run in E.
    set (c := IptClearChain table name) in *. set (r := B log c) in *.
    set (c' := IptDeleteChain table name) in *.
    set (r' := B (log ++ [(c, r)]) c') in *.
    apply IH in E. destruct E as (new & -> & Ha & He & Hc).
    exists ((c, r) :: (c', r') :: new). rewrite <- !app_assoc.
    split; [reflexivity|].
    split; [split; [reflexivity | split; [reflexivity | exact Ha]]|].
    split; [exact He|]. simpl. rewrite Hc. reflexivity.
Qed.

Lemma deactivateIPTables_calls (B : IPTBackend) (protocol : IPTProtocol)
  (rules chains : list string) (log : IPTLog) (errs : list error)
  (log' : IPTLog) :
  deactivateIPTables B protocol rules chains log = Some (errs, log') ->
  exists new,
    log' = log ++ new /\ answeredBy B log new /\
    (replyErr (B log (IptNewWithProtocol protocol)) <> None ->
     map fst new = [IptNewWithProtocol protocol]) /\
    (replyErr (B log (IptNewWithProtocol protocol)) = None ->
     map fst new
     = deactivateCalls protocol rules chains (existsAnswers new)).
Proof.
  unfold deactivateIPTables, deactivateCalls.
  unfold iptBind at 1. rewrite iptCall_run.
  set (c0 := IptNewWithProtocol protocol). set (r0 := B log c0).
  destruct (replyErr r0) as [e|] eqn:H0.
  { intros E. inversion E; subst. exists [(c0, r0)].
    split; [reflexivity|]. split; [split; [reflexivity | exact I]|].
    split; [reflexivity | discriminate]. }
  unfold iptBind at 1.
  destruct (deleteRules B rules [] (log ++ [(c0, r0)])) as [[e1 l1]|] eqn:E1;
    [|discriminate].
  apply deleteRules_calls in E1. destruct E1 as (n1 & -> & Ha1 & Hc1).
  intros E. apply deleteChains_calls in E.
  destruct E as (n2 & -> & Ha2 & He2 & Hc2).
  exists ((c0, r0) :: n1 ++ n2). rewrite <- !app_assoc.
  split; [reflexivity|].
  split; [split; [reflexivity|]; apply answeredBy_app; split; assumption|].
  split; [intros Hn; congruence|]. intros _.
  change ((c0, r0) :: n1 ++ n2) with ([(c0, r0)] ++ n1 ++ n2).
  rewrite !existsAnswers_app, He2, app_nil_r.
  change (existsAnswers [(c0, r0)]) with (@nil bool).
  cbn [app map fst]. rewrite Hc1, Hc2, map_app. reflexivity.
Qed.

(** X14.  [deactivateIPTables] goes on after errors.  On lines that have the
    two fields the code indexes it never panics.  It opens the tables for
    the protocol; when that fails, that error is returned and nothing else
    is called.  Otherwise, for every rule line it asks whether the rule
    exists, with the line's own table, chain and rulespec, and deletes that
    same rule when the answer is yes; then every chain line is cleared and
    deleted, on its own table and chain; all of this whatever fails on the
    way.  Each call is answered by iptables as it then is, and the
    returned errors are the errors of all the calls made, in order, so the
    result is nil exactly when no call failed.  The fields are needed: with
    a first rule line that has no second field, the run panics as soon as
    the tables are open. *)
Theorem deactivateIPTables_collects (B : IPTBackend)
  (protocol : IPTProtocol) (rules chains : list string) (log : IPTLog) :
  wellFormedRules rules -> wellFormedRules chains ->
  (exists new,
     deactivateIPTables B protocol rules chains log
     = Some (replyErrors new, log ++ new) /\
     answeredBy B log new /\
     (replyErr (B log (IptNewWithProtocol protocol)) <> None ->
      map fst new = [IptNewWithProtocol protocol]) /\
     (replyErr (B log (IptNewWithProtocol protocol)) = None ->
      map fst new
      = deactivateCalls protocol rules chains (existsAnswers new))) /\
  (forall bad : string,
     ruleFields bad = None ->
     replyErr (B log (IptNewWithProtocol protocol)) = None ->
     deactivateIPTables B protocol (bad :: rules) chains log = None).
Proof.
  intros Hr Hc. split.
  - destruct (deactivateIPTables_run B protocol rules chains log Hr Hc)
      as (reply & deleted & removed & E & _).
    destruct (deactivateIPTables_calls _ _ _ _ _ _ _ E)
      as (new & Heq & Ha & Hfail & Hok).
    apply app_inv_head in Heq. subst new.
    exists ((IptNewWithProtocol protocol, reply) :: deleted ++ removed).
    split; [exact E|]. split; [exact Ha|]. split; assumption.
  - intros bad Hbad Hopen. unfold deactivateIPTables.
    unfold iptBind at 1. rewrite iptCall_run, Hopen.
    unfold iptBind at 1. cbn [deleteRules]. rewrite Hbad. reflexivity.
Qed.

Lemma builtin_wellFormed :
  wellFormedRules v4rules /\ wellFormedRules v4once /\
  wellFormedRules v4chains /\ wellFormedRules v6rules /\
  wellFormedRules v6once /\ wellFormedRules v6chains.
Proof.
  unfold wellFormedRules.
  repeat split; repeat (constructor; [vm_compute; discriminate|]);
    constructor.
Qed.

(** On an iptables that answers every call without error and finds no
    rule, all the calls for the IPv4 tables are made and every once-rule is
    inserted. *)
Lemma activateIPTables_first_error_witness :
  wellFormedRules v4rules /\ wellFormedRules v4once /\
  wellFormedRules v4chains /\
  exists new,
    activateIPTables emptyBackend ProtocolIPv4 v4rules v4once v4chains []
    = Some (None, new) /\
    map fst new
    = activateCalls ProtocolIPv4 v4rules v4once v4chains
        (map (fun _ => false) v4once).
Proof.
  destruct builtin_wellFormed as (H1 & H2 & H3 & _).
  split; [exact H1|]. split; [exact H2|]. split; [exact H3|].
  destruct (activateIPTables_first_error emptyBackend ProtocolIPv4 v4rules
              v4once v4chains [] H1 H2 H3) as [(res & new & rest & E & _) _].
  exists new. vm_compute in E. inversion E; subst. vm_compute. split; reflexivity.
Defined.

(** On an iptables whose every call fails, only the opening of the IPv6
    tables is called and its error is returned. *)
Lemma deactivateIPTables_collects_witness :
  wellFormedRules v6once /\ wellFormedRules v6chains /\
  exists new,
    deactivateIPTables brokenBackend ProtocolIPv6 v6once v6chains []
    = Some (["iptables: permission denied"], new) /\
    map fst new = [IptNewWithProtocol ProtocolIPv6].
Proof.
  destruct builtin_wellFormed as (_ & _ & _ & _ & H5 & H6).
  split; [exact H5|]. split; [exact H6|].
  destruct (deactivateIPTables_collects brokenBackend ProtocolIPv6 v6once
              v6chains [] H5 H6) as [(new & E & _ & Hfail & _) _].
  exists new. split; [|apply Hfail; discriminate].
  rewrite E. vm_compute in E. inversion E. reflexivity.
Defined.


(** On the built-in tables both directions return. *)
Lemma activateNfqueueFirewall_total (B : IPTBackend) (log : IPTLog) :
  exists res log', activateNfqueueFirewall B log = Some (res, log').
Proof.
  destruct builtin_wellFormed as (H1 & H2 & H3 & H4 & H5 & H6).
  unfold activateNfqueueFirewall, iptBind.
  destruct (activateIPTables_run B ProtocolIPv4 v4rules v4once v4chains log
              H1 H2 H3) as (res4 & r4 & a & b & c & E4 & _).
  rewrite E4. destruct res4 as [e|]; [eexists; eexists; reflexivity|].
  destruct (activateIPTables_run B ProtocolIPv6 v6rules v6once v6chains
              (log ++ (IptNewWithProtocol ProtocolIPv4, r4) :: a ++ b ++ c)
              H4 H5 H6) as (res6 & r6 & a' & b' & c' & E6 & _).
  rewrite E6. eexists; eexists; reflexivity.
Qed.

Lemma DeactivateNfqueueFirewall_total (B : IPTBackend) (log : IPTLog) :
  exists new,
    DeactivateNfqueueFirewall B log = Some (replyErrors new, log ++ new).
Proof.
  destruct builtin_wellFormed as (_ & H2 & H3 & _ & H5 & H6).
  unfold DeactivateNfqueueFirewall, iptBind.
  destruct (deactivateIPTables_run B ProtocolIPv4 v4once v4chains log H2 H3)
    as (r4 & a & b & E4 & _).
  rewrite E4.
  destruct (deactivateIPTables_run B ProtocolIPv6 v6once v6chains
              (log ++ (IptNewWithProtocol ProtocolIPv4, r4) :: a ++ b) H5 H6)
    as (r6 & a' & b' & E6 & _).
  rewrite E6.
  exists (((IptNewWithProtocol ProtocolIPv4, r4) :: a ++ b) ++
          (IptNewWithProtocol ProtocolIPv6, r6) :: a' ++ b').
  unfold iptRet. rewrite replyErrors_app, <- app_assoc. reflexivity.
Qed.


(** ** Package interception: starting and stopping the nfqueue backend *)

(** With a platform [stop] that only answers, [Stop] on the package
    variables is [InterceptionStop]. *)
Lemma Stop_InterceptionStop (env : InterceptionEnv) (st : PackageState) :
  Stop env (answeringStop (platformStop env)) st
  = match InterceptionStop env (interceptionState st) with
    | None => None
    | Some (err, ist) => Some (err, mkPackageState (nfqState st) ist)
    end.
Proof.
  destruct st as [n ist]. unfold Stop, InterceptionStop, answeringStop.
  cbn [nfqState interceptionState].
  destruct (disableInterception env); [reflexivity|].
  destruct (metricsDoneClosed ist); reflexivity.
Qed.

(** X16.  [StartNfqueueInterception] activates the firewall rules and then
    opens the queues 17040, 17140 (IPv4) and 17060, 17160 (IPv6) in this
    order, assigning each queue variable what the constructor returned.
    When all of this works it starts the interception loop and returns
    nil; [Stop] is not called and neither [metrics.done] nor
    [shutdownSignal] is touched.  At the first step that fails it opens no
    further queue, does not start the loop, calls the package's [Stop] once
    on the variables as they then are, and returns the error of that step
    behind the step's text, whatever [Stop] returned.  It never panics on
    its own: it panics exactly when that [Stop] does, that is, with
    interception enabled, when [metrics.done] is already closed or the
    platform's [stop] panics. *)
Theorem StartNfqueueInterception_outcome (env : NfqEnv)
  (ienv : InterceptionEnv) (stop : PlatformStop) (st : PackageState) :
  exists activation opened decided,
    activateNfqueueFirewall (iptables env) (nfqLog (nfqState st))
    = Some (activation, nfqLog (nfqState decided)) /\
    (opened <= 4)%nat /\
    (forall step, (step < opened)%nat ->
                  startStepError env activation step = None) /\
    interceptionState decided = interceptionState st /\
    shutdownSignalClosed (nfqState decided)
    = shutdownSignalClosed (nfqState st) /\
    nfqEvents (nfqState decided)
    = nfqEvents (nfqState st) ++ firstn opened queueOpenings /\
    queueVariables (nfqState decided)
    = firstn opened (queueHandles env)
      ++ skipn opened (queueVariables (nfqState st)) /\
    match startStepError env activation opened with
    | None =>
        opened = 4%nat /\
        StartNfqueueInterception env ienv stop st
        = Some (None,
                withNfqState
                  (addEvents [EvGoHandleInterception] (nfqState decided))
                  decided)
    | Some err =>
        StartNfqueueInterception env ienv stop st
        = stopAndFail ienv stop (startStepPrefix opened +:+ err) decided /\
        (disableInterception ienv = true ->
         StartNfqueueInterception env ienv stop st
         = Some (Some (startStepPrefix opened +:+ err), decided)) /\
        (disableInterception ienv = false ->
         metricsDoneClosed (interceptionState st) = true ->
         StartNfqueueInterception env ienv stop st = None) /\
        (disableInterception ienv = false ->
         metricsDoneClosed (interceptionState st) = false ->
         StartNfqueueInterception env ienv stop st
         = match stop (mkPackageState (nfqState decided)
                         (mkInterceptionState true
                            (interceptionEvents (interceptionState st)
                             ++ [EvPlatformStop]))) with
           | None => None
           | Some (_, st') => Some (Some (startStepPrefix opened +:+ err), st')
           end)
    end.
Proof.
  assert (Hfail : forall msg decided,
            interceptionState decided = interceptionState st ->
            (disableInterception ienv = true ->
             stopAndFail ienv stop msg decided = Some (Some msg, decided)) /\
            (disableInterception ienv = false ->
             metricsDoneClosed (interceptionState st) = true ->
             stopAndFail ienv stop msg decided = None) /\
            (disableInterception ienv = false ->
             metricsDoneClosed (interceptionState st) = false ->
             stopAndFail ienv stop msg decided
             = match stop (mkPackageState (nfqState decided)
                             (mkInterceptionState true
                                (interceptionEvents (interceptionState st)
                                 ++ [EvPlatformStop]))) with
               | None => None
               | Some (_, st') => Some (Some msg, st')
               end)).
  { intros msg decided Hi. unfold stopAndFail, Stop. rewrite Hi.
    split; [intros ->; reflexivity|].
    split; [intros -> ->; reflexivity | intros -> ->; reflexivity]. }
  unfold startStepError, queueHandles.
  destruct st as [[o4 i4 o6 i6 closed log evs] ist].
  cbn [nfqState nfqLog interceptionState shutdownSignalClosed nfqEvents
       queueVariables out4Queue in4Queue out6Queue in6Queue].
  set (st := mkPackageState (mkNfqState o4 i4 o6 i6 closed log evs) ist).
  pose (ev1 := [EvFactory 17040 false]). pose (ev2 := [EvFactory 17140 false]).
  pose (ev3 := [EvFactory 17060 true]). pose (ev4 := [EvFactory 17160 true]).
  destruct (activateNfqueueFirewall_total (iptables env) log)
    as (res0 & log0 & E).
  rewrite E. destruct res0 as [e0|].
  { pose (d := mkPackageState
                 (mkNfqState o4 i4 o6 i6 closed log0
                  evs) ist).
    assert (ES : StartNfqueueInterception env ienv stop st
                 = stopAndFail ienv stop ("could not initialize nfqueue: " +:+ e0) d)
      by (unfold StartNfqueueInterception; cbn [nfqState nfqLog st];
          rewrite E; reflexivity).
    rewrite ES. exists (Some e0), 0%nat, d.
    split; [reflexivity|]. split; [lia|]. split; [intros step Hs; lia|].
    split; [reflexivity|]. split; [reflexivity|].
    split; [symmetry; apply app_nil_r|]. split; [reflexivity|].
    split; [reflexivity|]. apply Hfail. reflexivity. }
  destruct (nfQueueFactory env 17040 false) as [q1 [e1|]] eqn:F1.
  { pose (d := mkPackageState
                 (mkNfqState q1 i4 o6 i6 closed log0
                  (evs ++ ev1)) ist).
    assert (ES : StartNfqueueInterception env ienv stop st
                 = stopAndFail ienv stop ("nfqueue(IPv4, out): " +:+ e1) d)
      by (unfold StartNfqueueInterception; cbn [nfqState nfqLog st];
          rewrite E, F1; reflexivity).
    rewrite ES. exists None, 1%nat, d.
    split; [reflexivity|]. split; [lia|].
    split; [intros step Hs;
            do 1 (destruct step as [|step]; [reflexivity|]); lia|].
    split; [reflexivity|]. split; [reflexivity|].
    split; [cbn; rewrite <- ?app_assoc; reflexivity|].
    split; [reflexivity|].
    split; [reflexivity|]. apply Hfail. reflexivity. }
  destruct (nfQueueFactory env 17140 false) as [q2 [e2|]] eqn:F2.
  { pose (d := mkPackageState
                 (mkNfqState q1 q2 o6 i6 closed log0
                  ((evs ++ ev1) ++ ev2)) ist).
    assert (ES : StartNfqueueInterception env ienv stop st
                 = stopAndFail ienv stop ("nfqueue(IPv4, in): " +:+ e2) d)
      by (unfold StartNfqueueInterception; cbn [nfqState nfqLog st];
          rewrite E, F1, F2; reflexivity).
    rewrite ES. exists None, 2%nat, d.
    split; [reflexivity|]. split; [lia|].
    split; [intros step Hs;
            do 2 (destruct step as [|step]; [reflexivity|]); lia|].
    split; [reflexivity|]. split; [reflexivity|].
    split; [cbn; rewrite <- ?app_assoc; reflexivity|].
    split; [reflexivity|].
    split; [reflexivity|]. apply Hfail. reflexivity. }
  destruct (nfQueueFactory env 17060 true) as [q3 [e3|]] eqn:F3.
  { pose (d := mkPackageState
                 (mkNfqState q1 q2 q3 i6 closed log0
                  (((evs ++ ev1) ++ ev2) ++ ev3)) ist).
    assert (ES : StartNfqueueInterception env ienv stop st
                 = stopAndFail ienv stop ("nfqueue(IPv6, out): " +:+ e3) d)
      by (unfold StartNfqueueInterception; cbn [nfqState nfqLog st];
          rewrite E, F1, F2, F3; reflexivity).
    rewrite ES. exists None, 3%nat, d.
    split; [reflexivity|]. split; [lia|].
    split; [intros step Hs;
            do 3 (destruct step as [|step]; [reflexivity|]); lia|].
    split; [reflexivity|]. split; [reflexivity|].
    split; [cbn; rewrite <- ?app_assoc; reflexivity|].
    split; [reflexivity|].
    split; [reflexivity|]. apply Hfail. reflexivity. }
  destruct (nfQueueFactory env 17160 true) as [q4 [e4|]] eqn:F4.
  { pose (d := mkPackageState
                 (mkNfqState q1 q2 q3 q4 closed log0
                  ((((evs ++ ev1) ++ ev2) ++ ev3) ++ ev4)) ist).
    assert (ES : StartNfqueueInterception env ienv stop st
                 = stopAndFail ienv stop ("nfqueue(IPv6, in): " +:+ e4) d)
      by (unfold StartNfqueueInterception; cbn [nfqState nfqLog st];
          rewrite E, F1, F2, F3, F4; reflexivity).
    rewrite ES. exists None, 4%nat, d.
    split; [reflexivity|]. split; [lia|].
    split; [intros step Hs;
            do 4 (destruct step as [|step]; [reflexivity|]); lia|].
    split; [reflexivity|]. split; [reflexivity|].
    split; [cbn; rewrite <- ?app_assoc; reflexivity|].
    split; [reflexivity|].
    split; [reflexivity|]. apply Hfail. reflexivity. }
  pose (d := mkPackageState
               (mkNfqState q1 q2 q3 q4 closed log0
                ((((evs ++ ev1) ++ ev2) ++ ev3) ++ ev4)) ist).
  assert (ES : StartNfqueueInterception env ienv stop st
               = Some (None,
                       withNfqState
                         (addEvents [EvGoHandleInterception] (nfqState d))
                         d))
    by (unfold StartNfqueueInterception; cbn [nfqState nfqLog st];
        rewrite E, F1, F2, F3, F4; reflexivity).
  rewrite ES. exists None, 4%nat, d.
  split; [reflexivity|]. split; [lia|].
  split; [intros step Hs;
          do 4 (destruct step as [|step]; [reflexivity|]); lia|].
  split; [reflexivity|]. split; [reflexivity|].
  split; [cbn; rewrite <- ?app_assoc; reflexivity|].
  split; [reflexivity|].
  split; reflexivity.
Qed.

Lemma StopNfqueueInterception_unfold (env : NfqEnv) (st : NfqState) :
  StopNfqueueInterception env st =
  match DeactivateNfqueueFirewall (iptables env) (nfqLog st) with
  | None => None
  | Some (errs, log) =>
      if shutdownSignalClosed st then None
      else Some (match errs with
                 | [] => None
                 | _ => Some ("interception: error while deactivating nfqueue: "
                              +:+ multierrorText env errs)
                 end,
                 mkNfqState (out4Queue st) (in4Queue st) (out6Queue st)
                   (in6Queue st) true log
                   (nfqEvents st ++ destroyEvents (out4Queue st) ++
                    destroyEvents (in4Queue st) ++
                    destroyEvents (out6Queue st) ++
                    destroyEvents (in6Queue st)))
  end.
Proof.
  unfold StopNfqueueInterception. destruct st as [o4 i4 o6 i6 closed log evs].
  cbn -[DeactivateNfqueueFirewall].
  destruct (DeactivateNfqueueFirewall (iptables env) log) as [[errs log']|];
    [|reflexivity].
  destruct closed; [reflexivity|]. rewrite <- !app_assoc. reflexivity.
Qed.

(** X17.  [StopNfqueueInterception] cannot be called twice.  While
    [shutdownSignal] is open it destroys the queues that are not nil, in
    the order out4, in4, out6, in6, runs [DeactivateNfqueueFirewall] on
    iptables as it is, closes the channel and returns an error, with the
    text of the collected errors, exactly when a call into iptables failed;
    the queue variables are left as they are.  Any later call panics on
    closing the closed channel. *)
Theorem StopNfqueueInterception_once (env : NfqEnv) (st : NfqState) :
  shutdownSignalClosed st = false ->
  exists res st1 new,
    StopNfqueueInterception env st = Some (res, st1) /\
    shutdownSignalClosed st1 = true /\
    out4Queue st1 = out4Queue st /\ in4Queue st1 = in4Queue st /\
    out6Queue st1 = out6Queue st /\ in6Queue st1 = in6Queue st /\
    nfqEvents st1 =
      nfqEvents st ++ destroyEvents (out4Queue st) ++
      destroyEvents (in4Queue st) ++ destroyEvents (out6Queue st) ++
      destroyEvents (in6Queue st) /\
    DeactivateNfqueueFirewall (iptables env) (nfqLog st)
    = Some (replyErrors new, nfqLog st1) /\
    nfqLog st1 = nfqLog st ++ new /\
    res = match replyErrors new with
          | [] => None
          | _ => Some ("interception: error while deactivating nfqueue: "
                       +:+ multierrorText env (replyErrors new))
          end /\
    (res = None <-> replyErrors new = []) /\
    StopNfqueueInterception env st1 = None.
Proof.
  intros Hopen.
  destruct (DeactivateNfqueueFirewall_total (iptables env) (nfqLog st))
    as (new & E).
  rewrite (StopNfqueueInterception_unfold env st), E, Hopen.
  eexists. eexists. exists new. split; [reflexivity|].
  cbn [shutdownSignalClosed out4Queue in4Queue out6Queue in6Queue nfqEvents
       nfqLog].
  split; [reflexivity|]. do 4 (split; [reflexivity|]).
  split; [reflexivity|]. split; [reflexivity|]. split; [reflexivity|].
  split; [reflexivity|].
  split.
  - destruct (replyErrors _); split; intros H; try reflexivity;
      discriminate.
  - rewrite StopNfqueueInterception_unfold.
    cbn [shutdownSignalClosed nfqLog]. clear E.
    match goal with
    | |- context [DeactivateNfqueueFirewall ?b ?l] =>
        destruct (DeactivateNfqueueFirewall b l) as [[errs log]|]
    end; reflexivity.
Qed.

(** On a host where everything works and nothing was started, the stop
    runs through the rules of both protocols and returns nil. *)
Lemma StopNfqueueInterception_once_witness :
  shutdownSignalClosed initialNfqState = false /\
  exists st1,
    StopNfqueueInterception workingNfqEnv initialNfqState = Some (None, st1) /\
    shutdownSignalClosed st1 = true /\
    map fst (nfqLog st1)
    = deactivateCalls ProtocolIPv4 v4once v4chains
        (map (fun _ => false) v4once)
      ++ deactivateCalls ProtocolIPv6 v6once v6chains
           (map (fun _ => false) v6once) /\
    StopNfqueueInterception workingNfqEnv st1 = None.
Proof.
  split; [reflexivity|].
  destruct (StopNfqueueInterception_once workingNfqEnv initialNfqState
              eq_refl)
    as (res & st1 & new & E & Hc & _ & _ & _ & _ & _ & _ & _ & _ & _ & H2).
  exists st1. vm_compute in E. inversion E; subst.
  split; [reflexivity|]. split; [reflexivity|]. split; [reflexivity|].
  exact H2.
Defined.

(** Start and stop on a host where everything works, with
    [StopNfqueueInterception] as the platform's [stop]: the start opens the
    four queues, the first [Stop] destroys them and closes both channels,
    a second [Stop] panics.  When the second queue cannot be opened, the
    start itself destroys the first queue and closes both channels through
    [Stop], so a [Stop] after the failed start panics. *)
Example start_then_stop_twice :
  exists st1 st2,
    StartNfqueueInterception workingNfqEnv plainInterceptionEnv
      (nfqueueStop workingNfqEnv) initialPackageState = Some (None, st1) /\
    Stop plainInterceptionEnv (nfqueueStop workingNfqEnv) st1
    = Some (None, st2) /\
    nfqEvents (nfqState st2) =
      queueOpenings ++ [EvGoHandleInterception] ++
      [EvDestroy 17040; EvDestroy 17140; EvDestroy 17060; EvDestroy 17160] /\
    shutdownSignalClosed (nfqState st2) = true /\
    metricsDoneClosed (interceptionState st2) = true /\
    Stop plainInterceptionEnv (nfqueueStop workingNfqEnv) st2 = None.
Proof.
  eexists. eexists. split; [vm_compute; reflexivity|].
  split; [vm_compute; reflexivity|]. repeat split; vm_compute; reflexivity.
Qed.

Example failed_start_then_stop :
  let env :=
    {| iptables := emptyBackend;
       experimentalNfqueueBackend := false;
       NewNFQueue := fun qid =>
         if qid =? 17140 then (None, Some "queue busy")
         else (Some qid, None);
       nfqexpNew := fun qid _ => (Some qid, None);
       multierrorText := fun errs => Join errs "; " |} in
  exists st1,
    StartNfqueueInterception env plainInterceptionEnv (nfqueueStop env)
      initialPackageState
    = Some (Some "nfqueue(IPv4, in): queue busy", st1) /\
    nfqEvents (nfqState st1) =
      [EvFactory 17040 false; EvFactory 17140 false; EvDestroy 17040] /\
    shutdownSignalClosed (nfqState st1) = true /\
    metricsDoneClosed (interceptionState st1) = true /\
    Stop plainInterceptionEnv (nfqueueStop env) st1 = None.
Proof.
  eexists. split; [vm_compute; reflexivity|].
  repeat split; vm_compute; reflexivity.
Qed.

(** ** Package interception: [Start] and [Stop] *)

(** X18.  With interception disabled, [Start] and [Stop] succeed and do
    nothing, any number of times.  With interception enabled, a first
    [Stop] closes [metrics.done] and hands back what the platform's [stop]
    answers, also when [Start] was never called; every later [Stop] panics
    before it reaches the platform's [stop], which therefore runs at most
    once. *)
Theorem InterceptionStop_once (env : InterceptionEnv)
  (st : InterceptionState) :
  (disableInterception env = true ->
   InterceptionStart env st = Some (None, st) /\
   InterceptionStop env st = Some (None, st)) /\
  (disableInterception env = false -> metricsDoneClosed st = false ->
   exists st1,
     InterceptionStop env st = Some (platformStop env, st1) /\
     interceptionEvents st1 = interceptionEvents st ++ [EvPlatformStop] /\
     InterceptionStop env st1 = None /\
     (forall res st2,
        InterceptionStart env st1 = Some (res, st2) ->
        InterceptionStop env st2 = None)).
Proof.
  split.
  - intros Hd. unfold InterceptionStart, InterceptionStop. rewrite Hd.
    split; reflexivity.
  - intros Hd Hc. unfold InterceptionStop at 1. rewrite Hd, Hc.
    eexists. split; [reflexivity|]. split; [reflexivity|].
    split.
    + unfold InterceptionStop. rewrite Hd. reflexivity.
    + intros res st2. unfold InterceptionStart, InterceptionStop.
      rewrite Hd.
      destruct (negb (String.eqb (packetMetricsDestination env) ""));
        intros E; inversion E; reflexivity.
Qed.
